(** * MVar plot (legacy): axis expansion, combination driver, settings guard

    A shallow embedding of [mvar_plot_legacy.py]: the Python built-ins and the
    [re], [csv], [itertools] and [numpy] routines the script calls, the axis
    option registry, [process_axis], [fix_axis_seeds], [draw_crp_pages],
    [SharedSettingsStackHelper] and [Script.run], followed by the properties
    of the sweep.

    Strings are sequences of ASCII characters; a character above 127 is
    carried through as an opaque symbol (neither a digit nor white space).
    Python [float] is IEEE binary64, embedded as Rocq's primitive floats. *)

From Stdlib Require Import ZArith List String Ascii Bool Lia Floats.
From Stdlib Require Import Permutation Sorted Factorial.
Import ListNotations.

Local Open Scope string_scope.
Local Open Scope Z_scope.
Local Open Scope list_scope.

Set Implicit Arguments.

(** ** Exceptions and results *)

(** The exception classes the script can meet. *)
Inductive exn : Type :=
| ValueError (msg : string)
| RuntimeError (msg : string)
| IndexError
| AttributeError
| TypeError
| ZeroDivisionError
| CsvError
| HostError (msg : string).

(** A computation that returns or raises. *)
Inductive outcome (A : Type) : Type :=
| Ok (a : A)
| Raise (e : exn).
Arguments Ok {A} a.
Arguments Raise {A} e.

Definition obind {A B} (m : outcome A) (f : A -> outcome B) : outcome B :=
  match m with
  | Ok a => f a
  | Raise e => Raise e
  end.

Notation "x <-? m ; k" := (obind m (fun x => k))
  (at level 61, m at next level, right associativity).

(** [[f(x) for x in xs]] for an [f] that may raise: left to right, the first
    exception ends the comprehension. *)
Fixpoint omap {A B} (f : A -> outcome B) (xs : list A) : outcome (list B) :=
  match xs with
  | [] => Ok []
  | x :: xs' => y <-? f x ; ys <-? omap f xs' ; Ok (y :: ys)
  end.

Definition is_ok {A} (m : outcome A) : bool :=
  match m with Ok _ => true | Raise _ => false end.

(** ** Python strings *)

Module PyStr.

Definition code (c : ascii) : nat := nat_of_ascii c.

(** [str.isspace] on ASCII: TAB..CR, FS..US and the blank. *)
Definition is_space (c : ascii) : bool :=
  let n := code c in
  ((9 <=? n) && (n <=? 13) || (28 <=? n) && (n <=? 32))%nat.

Definition is_digit (c : ascii) : bool :=
  let n := code c in ((48 <=? n) && (n <=? 57))%nat.

Definition digit_val (c : ascii) : Z := Z.of_nat (code c) - 48.

Definition is_sign (c : ascii) : bool :=
  (Ascii.eqb c "+" || Ascii.eqb c "-")%char.

Definition is_empty (s : string) : bool :=
  match s with EmptyString => true | String _ _ => false end.

Fixpoint lstrip (s : string) : string :=
  match s with
  | String c s' => if is_space c then lstrip s' else s
  | EmptyString => EmptyString
  end.

Fixpoint rstrip (s : string) : string :=
  match s with
  | String c s' =>
      let r := rstrip s' in
      if is_space c && is_empty r then EmptyString else String c r
  | EmptyString => EmptyString
  end.

(** [s.strip()] *)
Definition strip (s : string) : string := rstrip (lstrip s).

Definition lower_char (c : ascii) : ascii :=
  let n := code c in
  if ((65 <=? n) && (n <=? 90))%nat then ascii_of_nat (n + 32) else c.

(** [s.lower()] *)
Fixpoint lower (s : string) : string :=
  match s with
  | String c s' => String (lower_char c) (lower s')
  | EmptyString => EmptyString
  end.

Fixpoint starts_with (pre s : string) : bool :=
  match pre, s with
  | EmptyString, _ => true
  | String a pre', String b s' => Ascii.eqb a b && starts_with pre' s'
  | String _ _, EmptyString => false
  end.

(** [sub in s] *)
Fixpoint contains (sub s : string) : bool :=
  starts_with sub s ||
  match s with
  | String _ s' => contains sub s'
  | EmptyString => false
  end.

(** [s.find(sub)]: the lowest index where [sub] occurs, or [-1]. *)
Fixpoint find_from (sub s : string) (i : Z) : Z :=
  if starts_with sub s then i
  else match s with
       | String _ s' => find_from sub s' (i + 1)
       | EmptyString => -1
       end.

Definition find (s sub : string) : Z := find_from sub s 0.

Definition len (s : string) : Z := Z.of_nat (String.length s).

Fixpoint drop (n : nat) (s : string) : string :=
  match n, s with
  | O, _ => s
  | S n', String _ s' => drop n' s'
  | S _, EmptyString => EmptyString
  end.

Fixpoint take (n : nat) (s : string) : string :=
  match n, s with
  | O, _ => EmptyString
  | S n', String c s' => String c (take n' s')
  | S _, EmptyString => EmptyString
  end.

(** A slice bound as Python normalises it: negative bounds count from the
    end, and everything is clamped to [0, len]. *)
Definition clamp (s : string) (i : Z) : nat :=
  let i' := if i <? 0 then i + len s else i in
  Z.to_nat (Z.min (Z.max i' 0) (len s)).

(** [s[0:n]] *)
Definition slice_to (s : string) (n : Z) : string := take (clamp s n) s.

(** [s[n:]] *)
Definition slice_from (s : string) (n : Z) : string := drop (clamp s n) s.

(** [s.replace(old, new)] for a non-empty [old]: occurrences are replaced
    left to right without overlap; [skip] counts the characters of an
    occurrence still to be passed over. *)
Fixpoint replace_go (old new : string) (skip : nat) (s : string) : string :=
  match s with
  | EmptyString => EmptyString
  | String c s' =>
      match skip with
      | S k => replace_go old new k s'
      | O =>
          if starts_with old s
          then new ++ replace_go old new (String.length old - 1) s'
          else String c (replace_go old new 0 s')
      end
  end%string.

(** With an empty [old], Python inserts [new] before every character and
    at the end. *)
Fixpoint intersperse (new s : string) : string :=
  match s with
  | EmptyString => new
  | String c s' => new ++ String c (intersperse new s')
  end%string.

Definition replace (s old new : string) : string :=
  if is_empty old then intersperse new s else replace_go old new 0 s.

(** [sep.join(xs)] *)
Fixpoint join (sep : string) (xs : list string) : string :=
  match xs with
  | [] => EmptyString
  | [x] => x
  | x :: xs' => (x ++ sep ++ join sep xs')%string
  end.

End PyStr.

(** ** Regular expressions ([re]) *)

Module Re.

(** The fragment of [re] syntax the four patterns of the script use:
    character classes, concatenation, greedy [?] and greedy [*] over a
    character class, and numbered capture groups. *)
Inductive regex : Type :=
| Eps
| Chr (p : ascii -> bool)
| Seq (r1 r2 : regex)
| Opt (r : regex)
| Star (p : ascii -> bool)
| Grp (n : nat) (r : regex).

(** Captured groups, latest binding first. *)
Definition caps : Type := list (nat * string).

Fixpoint group (m : caps) (n : nat) : option string :=
  match m with
  | [] => None
  | (k, s) :: m' => if Nat.eqb k n then Some s else group m' n
  end.

Definition cont : Type := string -> caps -> option caps.

(** Greedy repetition: take as many characters as possible, and give
    them back one at a time while the continuation fails. *)
Fixpoint star (p : ascii -> bool) (k : cont) (s : string) (c : caps)
  : option caps :=
  match s with
  | String a s' =>
      if p a then
        match star p k s' c with
        | Some r => Some r
        | None => k s c
        end
      else k s c
  | EmptyString => k s c
  end.

(** What a group captured: the part of [s] consumed down to [rest]. *)
Definition consumed (s rest : string) : string :=
  PyStr.take (String.length s - String.length rest) s.

(** The backtracking matcher, in continuation-passing style: [exec r s c k]
    matches [r] at the front of [s] in priority order and hands the rest of
    the input to [k]; the first alternative on which [k] succeeds wins. *)
Fixpoint exec (r : regex) (s : string) (c : caps) (k : cont) {struct r}
  : option caps :=
  match r with
  | Eps => k s c
  | Chr p =>
      match s with
      | String a s' => if p a then k s' c else None
      | EmptyString => None
      end
  | Seq r1 r2 => exec r1 s c (fun s1 c1 => exec r2 s1 c1 k)
  | Opt r1 =>
      match exec r1 s c k with
      | Some m => Some m
      | None => k s c
      end
  | Star p => star p k s c
  | Grp n r1 => exec r1 s c (fun s1 c1 => k s1 ((n, consumed s s1) :: c1))
  end.

Definition at_end : cont :=
  fun s c => if PyStr.is_empty s then Some c else None.

(** [pattern.fullmatch(s)] *)
Definition fullmatch (r : regex) (s : string) : option caps :=
  exec r s [] at_end.

Definition lit (a : ascii) : regex := Chr (Ascii.eqb a).
Definition plus (p : ascii -> bool) : regex := Seq (Chr p) (Star p).
(** [.] matches anything but a newline. *)
Definition dot : ascii -> bool := fun a => negb (Ascii.eqb a "010"%char).

End Re.

Declare Scope re_scope.
Delimit Scope re_scope with re.
Infix ";;" := Re.Seq (at level 65, right associativity) : re_scope.

Module Patterns.
Import Re PyStr.
Local Open Scope re_scope.

Definition ws : regex := Star is_space.
Definition digits : regex := plus is_digit.

(** The numeral ["[+-]?\s*\d+"]. *)
Definition int_lit : regex := Opt (Chr is_sign) ;; ws ;; digits.
(** The float numeral: the integer numeral followed by an optional
    fraction, written with an unescaped dot in the source, so any character
    but a newline stands for the decimal point, then digits. *)
Definition float_lit : regex :=
  Opt (Chr is_sign) ;; ws ;; digits ;; Opt (Chr dot ;; Star is_digit).

(** ["\s*(START)\s*-\s*(END)SUFFIX?\s*"], the shape the four patterns share. *)
Definition range_of (num suffix : regex) : regex :=
  ws ;; Grp 1 num ;; ws ;; lit "-" ;; ws ;; Grp 2 num ;; Opt suffix ;; ws.

(** The optional suffixes: a signed step in parentheses, a count in
    brackets. *)
Definition step_suffix : regex :=
  ws ;; lit "(" ;; Grp 3 (Chr is_sign ;; digits) ;; ws ;; lit ")".
Definition step_suffix_float : regex :=
  ws ;; lit "(" ;;
  Grp 3 (Chr is_sign ;; digits ;; Opt (Chr dot ;; Star is_digit)) ;;
  ws ;; lit ")".
Definition count_suffix : regex :=
  ws ;; lit "[" ;; Grp 3 digits ;; ws ;; lit "]".
Definition count_suffix_float : regex :=
  ws ;; lit "[" ;;
  Grp 3 (digits ;; Opt (Chr dot ;; Star is_digit)) ;;
  ws ;; lit "]".

(** [r"\s*([+-]?\s*\d+)\s*-\s*([+-]?\s*\d+)(?:\s*\(([+-]\d+)\s*\))?\s*"] *)
Definition re_range : regex := range_of int_lit step_suffix.

(** [re_range_float]: as [re_range] with float numerals for START, END
    and the signed STEP. *)
Definition re_range_float : regex := range_of float_lit step_suffix_float.

(** [r"\s*([+-]?\s*\d+)\s*-\s*([+-]?\s*\d+)(?:\s*\[(\d+)\s*\])?\s*"] *)
Definition re_range_count : regex := range_of int_lit count_suffix.

(** [re_range_count_float]: as [re_range_count] with float numerals for
    START and END, and an unsigned float numeral for COUNT. *)
Definition re_range_count_float : regex :=
  range_of float_lit count_suffix_float.

End Patterns.

(** ** Python numbers: [int], [float], [range], and numpy's [arange], [linspace] *)

Module PyNum.
Import PyStr.

(** A run of decimal digits in which single underscores may separate two
    digits: the value read so far, the number of digits read, and the rest
    of the text. *)
Fixpoint take_digits (acc : Z) (n : nat) (s : string) : Z * nat * string :=
  match s with
  | String c s' =>
      if is_digit c then take_digits (10 * acc + digit_val c) (S n) s'
      else if Ascii.eqb c "_" then
        match n, s' with
        | S _, String c2 _ =>
            if is_digit c2 then take_digits acc n s' else (acc, n, s)
        | _, _ => (acc, n, s)
        end
      else (acc, n, s)
  | EmptyString => (acc, n, s)
  end.

Definition split_sign (s : string) : bool * string :=
  match s with
  | String c s' =>
      if Ascii.eqb c "-" then (true, s')
      else if Ascii.eqb c "+" then (false, s')
      else (false, s)
  | EmptyString => (false, s)
  end.

Definition signed (neg : bool) (v : Z) : Z := if neg then - v else v.

(** [int(s)] for a string: surrounding white space, one optional sign
    directly before the digits, base ten. *)
Definition py_int (s : string) : outcome Z :=
  let (neg, body) := split_sign (strip s) in
  match take_digits 0 0 body with
  | (v, S _, EmptyString) => Ok (signed neg v)
  | _ => Raise (ValueError "invalid literal for int() with base 10")
  end.

(** [len(range(start, stop, step))] for a non-zero step. *)
Definition range_len (start stop step : Z) : Z :=
  if 0 <? step
  then (if start <? stop then (stop - start - 1) / step + 1 else 0)
  else (if stop <? start then (start - stop - 1) / (- step) + 1 else 0).

(** [list(range(start, stop, step))] *)
Definition py_range (start stop step : Z) : outcome (list Z) :=
  if step =? 0 then Raise (ValueError "range() arg 3 must not be zero")
  else Ok (map (fun i => start + Z.of_nat i * step)
               (seq 0 (Z.to_nat (range_len start stop step)))).

(** *** binary64 *)

(** The positive rational [n/d] rounded to the nearest binary64, ties to
    even: the quotient is scaled to 53 bits (fewer below the normal range),
    rounded, and overflows to infinity. *)
Definition round_ratio (n d : Z) : float :=
  let e1 := Z.log2 n - Z.log2 d - 52 in
  let scaled (e : Z) : Z * Z :=
    if 0 <=? e then (n, d * 2 ^ e) else (n * 2 ^ (- e), d) in
  let e2 := (let (a, b) := scaled e1 in if a / b <? 2 ^ 52 then e1 - 1 else e1) in
  let e := Z.max e2 (-1074) in
  let (a, b) := scaled e in
  let q := a / b in
  let r := a mod b in
  let q' := if (b <? 2 * r) || ((b =? 2 * r) && Z.odd q) then q + 1 else q in
  if (971 <? e) || ((e =? 971) && (2 ^ 53 <=? q')) then infinity
  else match q' with
       | Zpos m => SF2Prim (S754_finite false m e)
       | _ => zero
       end.

(** [float(z)] for an integer. *)
Definition float_of_Z (z : Z) : float :=
  match z with
  | Z0 => zero
  | Zpos _ => round_ratio z 1
  | Zneg _ => (- round_ratio (- z) 1)%float
  end.

Definition fsigned (neg : bool) (f : float) : float :=
  if neg then (- f)%float else f.

(** The exponent part of a float literal, when there is one. *)
Definition parse_exp (s : string) : option (Z * string) :=
  match s with
  | String c s' =>
      if Ascii.eqb (lower_char c) "e" then
        let (neg, b) := split_sign s' in
        match take_digits 0 0 b with
        | (v, S _, rest) => Some (signed neg v, rest)
        | _ => None
        end
      else None
  | EmptyString => None
  end.

Definition bad_float : outcome float :=
  Raise (ValueError "could not convert string to float").

(** [float(s)] for a string: white space, sign, then [inf], [infinity],
    [nan], or a decimal literal with optional fraction and exponent,
    correctly rounded. *)
Definition py_float (s : string) : outcome float :=
  let (neg, body) := split_sign (strip s) in
  let word := lower body in
  if String.eqb word "inf" || String.eqb word "infinity"
  then Ok (fsigned neg infinity)
  else if String.eqb word "nan" then Ok nan
  else
    let '(ip, ni, r1) := take_digits 0 0 body in
    let '(m, nf, r2) :=
      match r1 with
      | String "." r => take_digits ip 0 r
      | _ => (ip, O, r1)
      end in
    match (ni + nf)%nat with
    | O => bad_float
    | S _ =>
        let scale (ex : Z) : outcome float :=
          let sc := ex - Z.of_nat nf in
          Ok (fsigned neg
                (if m =? 0 then zero
                 else if 0 <=? sc then round_ratio (m * 10 ^ sc) 1
                 else round_ratio m (10 ^ (- sc)))) in
        match r2 with
        | EmptyString => scale 0
        | _ => match parse_exp r2 with
               | Some (ex, EmptyString) => scale ex
               | _ => bad_float
               end
        end
    end.

(** The integer part of a finite float, rounded towards zero or up. *)
Definition float_parts (f : float) : option (bool * Z * Z) :=
  match Prim2SF f with
  | S754_zero _ => Some (false, 0, 0)
  | S754_finite s m e => Some (s, Zpos m, e)
  | _ => None
  end.

Definition trunc (f : float) : option Z :=
  match float_parts f with
  | Some (s, m, e) =>
      Some (signed s (if 0 <=? e then m * 2 ^ e else m / 2 ^ (- e)))
  | None => None
  end.

Definition ceil (f : float) : option Z :=
  match float_parts f with
  | Some (s, m, e) =>
      Some (if 0 <=? e then signed s (m * 2 ^ e)
            else if s then - (m / 2 ^ (- e))
            else (m + 2 ^ (- e) - 1) / 2 ^ (- e))
  | None => None
  end.

(** [int(x)] for a float. *)
Definition int_of_float (f : float) : outcome Z :=
  match trunc f with
  | Some z => Ok z
  | None => Raise (ValueError "cannot convert float NaN or infinity to integer")
  end.

(** [numpy.arange(start, stop, step).tolist()] on doubles: the length is
    [ceil((stop - start) / step)]; the first two entries are [start] and
    [start + step], the others [start + i * delta] with
    [delta = (start + step) - start]. *)
Definition np_arange (start stop step : float) : outcome (list float) :=
  if (step =? 0)%float then Raise ZeroDivisionError
  else match ceil ((stop - start) / step)%float with
       | None => Raise (ValueError "arange: cannot compute length")
       | Some n =>
           let next := (start + step)%float in
           let delta := (next - start)%float in
           Ok (map (fun i =>
                      match i with
                      | O => start
                      | S O => next
                      | _ => (start + float_of_Z (Z.of_nat i) * delta)%float
                      end)
                   (seq 0 (Z.to_nat n)))
       end.

(** [numpy.linspace(start=start, stop=stop, num=num).tolist()]: [num]
    samples, [step = (stop - start) / (num - 1)], the last sample set to
    [stop] itself. *)
Definition np_linspace (start stop : float) (num : Z) : outcome (list float) :=
  if num <? 0 then Raise (ValueError "Number of samples must be non-negative")
  else
    let div := num - 1 in
    let delta := (stop - start)%float in
    let step := (delta / float_of_Z div)%float in
    let sample (i : nat) : float :=
      let y := float_of_Z (Z.of_nat i) in
      let y1 :=
        if 0 <? div then
          (if (step =? 0)%float then (y / float_of_Z div) * delta
           else y * step)%float
        else (y * delta)%float in
      if (1 <? num) && (Z.of_nat i =? num - 1) then stop
      else (y1 + start)%float in
    Ok (map sample (seq 0 (Z.to_nat num))).

End PyNum.

(** ** [csv.reader] over [StringIO] *)

Module Csv.
Import PyStr.

(** The parser states of the reader (default "excel" dialect: comma
    delimiter, double-quote quoting with doubled quotes, not strict). *)
Inductive state : Type :=
| START_RECORD | START_FIELD | IN_FIELD
| IN_QUOTED_FIELD | QUOTE_IN_QUOTED_FIELD | EAT_CRNL.

Record reader : Type := mk_reader {
  st : state;
  field : string;           (* the field being read *)
  fields : list string      (* the fields saved so far, in order *)
}.

Definition quotechar : ascii := "034"%char.
Definition nl : ascii := "010"%char.
Definition cr : ascii := "013"%char.

Definition add_char (c : ascii) (r : reader) (s : state) : reader :=
  mk_reader s (field r ++ String c EmptyString)%string (fields r).

Definition save_field (r : reader) (s : state) : reader :=
  mk_reader s EmptyString (fields r ++ [field r]).

Definition goto (r : reader) (s : state) : reader :=
  mk_reader s (field r) (fields r).

Definition is_newline (c : ascii) : bool := Ascii.eqb c nl || Ascii.eqb c cr.

Definition start_field (c : option ascii) (r : reader) : reader :=
  match c with
  | None => save_field r START_RECORD
  | Some a =>
      if is_newline a then save_field r EAT_CRNL
      else if Ascii.eqb a quotechar then goto r IN_QUOTED_FIELD
      else if Ascii.eqb a "," then save_field r START_FIELD
      else add_char a r IN_FIELD
  end.

(** One character of a line; [None] is the end-of-line mark the reader
    feeds itself after the last character of every line. *)
Definition process_char (c : option ascii) (r : reader) : outcome reader :=
  match st r with
  | START_RECORD =>
      match c with
      | None => Ok r
      | Some a => if is_newline a then Ok (goto r EAT_CRNL)
                  else Ok (start_field c r)
      end
  | START_FIELD => Ok (start_field c r)
  | IN_FIELD =>
      match c with
      | None => Ok (save_field r START_RECORD)
      | Some a =>
          if is_newline a then Ok (save_field r EAT_CRNL)
          else if Ascii.eqb a "," then Ok (save_field r START_FIELD)
          else Ok (add_char a r IN_FIELD)
      end
  | IN_QUOTED_FIELD =>
      match c with
      | None => Ok r
      | Some a =>
          if Ascii.eqb a quotechar then Ok (goto r QUOTE_IN_QUOTED_FIELD)
          else Ok (add_char a r IN_QUOTED_FIELD)
      end
  | QUOTE_IN_QUOTED_FIELD =>
      match c with
      | None => Ok (save_field r START_RECORD)
      | Some a =>
          if Ascii.eqb a quotechar then Ok (add_char a r IN_QUOTED_FIELD)
          else if Ascii.eqb a "," then Ok (save_field r START_FIELD)
          else if is_newline a then Ok (save_field r EAT_CRNL)
          else Ok (add_char a r IN_FIELD)
      end
  | EAT_CRNL =>
      match c with
      | None => Ok (goto r START_RECORD)
      | Some a => if is_newline a then Ok r else Raise CsvError
      end
  end.

(** The text is read line by line ([StringIO] ends a line after every
    newline character); input that ends inside a quoted field closes the
    field. *)
Fixpoint feed (s : string) (r : reader) : outcome reader :=
  match s with
  | EmptyString => Ok r
  | String c s' =>
      r1 <-? process_char (Some c) r ;
      r2 <-? (if Ascii.eqb c nl || is_empty s'
              then process_char None r1 else Ok r1) ;
      feed s' r2
  end.

(** [chain.from_iterable(csv.reader(StringIO(vals)))]: the fields of all
    records, in order. *)
Definition fields_of (vals : string) : outcome (list string) :=
  r <-? feed vals (mk_reader START_RECORD EmptyString []) ;
  match st r with
  | START_RECORD => Ok (fields r)
  | _ => Ok (fields r ++ [field r])
  end.

End Csv.

(** ** [itertools.permutations] *)

Module Itertools.

(** Every element of the list paired with the others, in order. *)
Fixpoint selections {A} (xs : list A) : list (A * list A) :=
  match xs with
  | [] => []
  | x :: xs' => (x, xs') :: map (fun p => (fst p, x :: snd p)) (selections xs')
  end.

Fixpoint perms {A} (n : nat) (xs : list A) : list (list A) :=
  match n with
  | O => [[]]
  | S n' =>
      flat_map (fun p => map (cons (fst p)) (perms n' (snd p))) (selections xs)
  end.

(** [list(permutations(xs))], in the order of the positions chosen. *)
Definition permutations {A} (xs : list A) : list (list A) :=
  perms (List.length xs) xs.

End Itertools.

(** ** Values, requests and the host's shared state *)

(** A Python value as the axes carry them: [None], [bool], [int], [float],
    [str], a tuple of strings (one ordering of the prompt tokens), and the
    reference to the host's one shared model object. *)
Inductive value : Type :=
| VNone
| VBool (b : bool)
| VInt (z : Z)
| VFloat (f : float)
| VStr (s : string)
| VTuple (xs : list string)
| VSdModel.

(** The request [p], an object with attributes: its attribute dictionary. *)
Definition Request : Type := list (string * value).

Fixpoint getattr (p : Request) (name : string) : value :=
  match p with
  | [] => VNone
  | (k, v) :: p' => if String.eqb k name then v else getattr p' name
  end.

(** [setattr(p, name, x)] *)
Fixpoint setattr (p : Request) (name : string) (x : value) : Request :=
  match p with
  | [] => [(name, x)]
  | (k, v) :: p' =>
      if String.eqb k name then (k, x) :: p' else (k, v) :: setattr p' name x
  end.

(** A legend label. The host draws the text; here a label keeps what the
    formatter was given: [Labelled l x] stands for the text "l: x",
    [Shown x] for the value itself, and a float is shown as [round(x, 8)]. *)
Inductive label : Type :=
| Text (s : string)
| Labelled (name : string) (x : value)
| Shown (x : value).

(** Images. [Picture] is an image the host rendered; [Blank] is
    [Image.new(mode, size)]; [Grid] is [images.image_grid(cells, rows)];
    [Legend] and [PageLegend] are the two uses of
    [images.draw_grid_annotations]: per cell with column and row texts, and
    across the whole grid with the page's text. *)
#[warnings="-register-all"]
Inductive image : Type :=
| Picture (mode : string) (size : Z * Z) (id : nat)
| Blank (mode : string) (size : Z * Z)
| Grid (cells : list image) (rows : nat)
| Legend (im : image) (width height : Z) (col_texts row_texts : list label)
| PageLegend (im : image) (page_text : label).

Definition image_mode (im : image) : string :=
  match im with
  | Picture m _ _ | Blank m _ => m
  | _ => "RGB"
  end.

Definition image_size (im : image) : Z * Z :=
  match im with
  | Picture _ s _ | Blank _ s => s
  | _ => (0, 0)
  end.

(** The host's [Processed] result object. *)
Record Processed : Type := mk_Processed {
  images : list image;
  prompt : string;
  seed : value;
  infotexts : list string;
  all_prompts : list string;
  all_seeds : list value
}.

(** Modelled from the spec: the "empty/default result" that
    [Processed()] stands for; the host's constructor is not part of the
    script. *)
Definition empty_Processed : Processed :=
  mk_Processed [] "" (VInt (-1)) [] [] [].

(** [opts], [shared] and [state] of the host, as far as the script reads or
    writes them. *)
Record Shared : Type := mk_Shared {
  CLIP_stop_at_last_layers : value;   (* opts.data["CLIP_stop_at_last_layers"] *)
  sd_hypernetwork : string;           (* opts.sd_hypernetwork, the configured name *)
  sd_hypernetwork_strength : value;   (* opts.sd_hypernetwork_strength *)
  sd_model_checkpoint : string;       (* opts.sd_model_checkpoint, the configured checkpoint *)
  return_grid : bool;                 (* opts.return_grid *)
  grid_save : bool;                   (* opts.grid_save *)
  sd_model : string;                  (* the checkpoint loaded in shared.sd_model *)
  loaded_hypernetwork : option string;(* shared.loaded_hypernetwork *)
  hypernetwork_multiplier : value;    (* the strength in force *)
  interrupted : bool;                 (* state.interrupted *)
  job_count : Z;                      (* state.job_count *)
  job : Z * Z;                        (* state.job: "i out of n" *)
  total_tqdm : Z                      (* shared.total_tqdm.updateTotal *)
}.

Definition set_CLIP (x : value) (s : Shared) : Shared :=
  mk_Shared x (sd_hypernetwork s) (sd_hypernetwork_strength s)
    (sd_model_checkpoint s) (return_grid s) (grid_save s) (sd_model s)
    (loaded_hypernetwork s) (hypernetwork_multiplier s) (interrupted s)
    (job_count s) (job s) (total_tqdm s).

Definition set_sd_model (m : string) (s : Shared) : Shared :=
  mk_Shared (CLIP_stop_at_last_layers s) (sd_hypernetwork s)
    (sd_hypernetwork_strength s) (sd_model_checkpoint s) (return_grid s)
    (grid_save s) m (loaded_hypernetwork s) (hypernetwork_multiplier s)
    (interrupted s) (job_count s) (job s) (total_tqdm s).

Definition set_loaded_hypernetwork (h : option string) (s : Shared) : Shared :=
  mk_Shared (CLIP_stop_at_last_layers s) (sd_hypernetwork s)
    (sd_hypernetwork_strength s) (sd_model_checkpoint s) (return_grid s)
    (grid_save s) (sd_model s) h (hypernetwork_multiplier s) (interrupted s)
    (job_count s) (job s) (total_tqdm s).

Definition set_multiplier (x : value) (s : Shared) : Shared :=
  mk_Shared (CLIP_stop_at_last_layers s) (sd_hypernetwork s)
    (sd_hypernetwork_strength s) (sd_model_checkpoint s) (return_grid s)
    (grid_save s) (sd_model s) (loaded_hypernetwork s) x (interrupted s)
    (job_count s) (job s) (total_tqdm s).

Definition set_interrupted (b : bool) (s : Shared) : Shared :=
  mk_Shared (CLIP_stop_at_last_layers s) (sd_hypernetwork s)
    (sd_hypernetwork_strength s) (sd_model_checkpoint s) (return_grid s)
    (grid_save s) (sd_model s) (loaded_hypernetwork s)
    (hypernetwork_multiplier s) b (job_count s) (job s) (total_tqdm s).

Definition set_job_count (n : Z) (s : Shared) : Shared :=
  mk_Shared (CLIP_stop_at_last_layers s) (sd_hypernetwork s)
    (sd_hypernetwork_strength s) (sd_model_checkpoint s) (return_grid s)
    (grid_save s) (sd_model s) (loaded_hypernetwork s)
    (hypernetwork_multiplier s) (interrupted s) n (job s) (total_tqdm s).

Definition set_job (j : Z * Z) (s : Shared) : Shared :=
  mk_Shared (CLIP_stop_at_last_layers s) (sd_hypernetwork s)
    (sd_hypernetwork_strength s) (sd_model_checkpoint s) (return_grid s)
    (grid_save s) (sd_model s) (loaded_hypernetwork s)
    (hypernetwork_multiplier s) (interrupted s) (job_count s) j (total_tqdm s).

Definition set_total_tqdm (n : Z) (s : Shared) : Shared :=
  mk_Shared (CLIP_stop_at_last_layers s) (sd_hypernetwork s)
    (sd_hypernetwork_strength s) (sd_model_checkpoint s) (return_grid s)
    (grid_save s) (sd_model s) (loaded_hypernetwork s)
    (hypernetwork_multiplier s) (interrupted s) (job_count s) (job s) n.

(** The global render configuration: the active checkpoint, the active
    hypernetwork and the CLIP layer-skip count. *)
Definition render_config (s : Shared) : string * option string * value :=
  (sd_model s, loaded_hypernetwork s, CLIP_stop_at_last_layers s).

(** The kinds of axis value: [int], [float], [str], [str_permutations]. *)
Inductive axis_type : Type := TInt | TFloat | TStr | TStrPermutations.

(** ** The host and the world the sweep runs in *)

(** What the host application provides. [Host] is the part of the host's
    state the script never looks into (the pending user actions, the random
    generator, ...). *)
Record host_api (Host : Type) : Type := mk_host {
  (** [sd_samplers.samplers_map], keyed by lower-case name *)
  samplers_map : string -> option string;
  (** [modules.sd_models.get_closet_checkpoint_match] *)
  get_closet_checkpoint_match : string -> option string;
  (** [hypernetwork.find_closest_hypernetwork_name] *)
  find_closest_hypernetwork_name : string -> option string;
  (** [shared.hypernetworks], the files known by name *)
  hypernetworks : string -> option string;
  (** [process_images]: it sees the request and the shared state, succeeds
      or raises, may find the job interrupted, and moves the host on *)
  process_images : Request -> Shared -> Host -> outcome Processed * bool * Host;
  (** the next raw draw of the [random] module *)
  rng_next : Host -> Z * Host
}.

Record World (Host : Type) : Type := mk_World {
  shared : Shared;
  host : Host;
  (** the requests handed to [process_images] so far, latest last: a log
      kept for the statements, the script has no such list *)
  rendered : list Request;
  (** the images handed to [images.save_image] so far *)
  saved : list image
}.
Arguments mk_World {Host}.
Arguments shared {Host}.
Arguments host {Host}.
Arguments rendered {Host}.
Arguments saved {Host}.

Section Sweep.

Variable Host : Type.
Variable api : host_api Host.

(** Code that runs against the world: it returns or raises, and either
    way leaves a world behind. *)
Definition M (A : Type) : Type := World Host -> outcome A * World Host.

Definition ret {A} (a : A) : M A := fun w => (Ok a, w).
Definition raise {A} (e : exn) : M A := fun w => (Raise e, w).
Definition bind {A B} (m : M A) (f : A -> M B) : M B :=
  fun w => match m w with
           | (Ok a, w') => f a w'
           | (Raise e, w') => (Raise e, w')
           end.
Definition lift {A} (o : outcome A) : M A := fun w => (o, w).
Definition get_shared : M Shared := fun w => (Ok (shared w), w).
Definition modify_shared (f : Shared -> Shared) : M unit :=
  fun w => (Ok tt, mk_World (f (shared w)) (host w) (rendered w) (saved w)).

Notation "x <- m ;; k" := (bind m (fun x => k))
  (at level 61, m at next level, right associativity).
Notation "m ;;; k" := (bind m (fun _ => k))
  (at level 61, right associativity).

(** [random.randrange(n)]: the next draw, brought into [0, n). *)
Definition randrange (n : Z) : M Z :=
  fun w => let (r, h) := rng_next api (host w) in
           (Ok (r mod n), mk_World (shared w) h (rendered w) (saved w)).

(** The call of the host's renderer. *)
Definition render (pc : Request) : M Processed :=
  fun w =>
    let '(res, intr, h) := process_images api pc (shared w) (host w) in
    (res, mk_World (set_interrupted intr (shared w)) h
                   (rendered w ++ [pc]) (saved w)).

(** Modelled from the spec: [modules.sd_models.reload_model_weights(sd_model, info)]
    swaps the active checkpoint: the weights of [info] are loaded into the
    shared model object, and without [info] those of the checkpoint
    configured in the host's settings. The model object is updated in
    place, so every reference to it sees the new weights. *)
Definition reload_model_weights (sd_model : value) (info : option string)
  : M unit :=
  modify_shared (fun s =>
    set_sd_model (match info with
                  | Some i => i
                  | None => sd_model_checkpoint s
                  end) s).

(** Modelled from the spec: [hypernetwork.load_hypernetwork(name)] swaps
    the active hypernetwork to the file known under [name], or to none. *)
Definition load_hypernetwork (name : option string) : M unit :=
  modify_shared (set_loaded_hypernetwork
                   (match name with
                    | Some n => hypernetworks api n
                    | None => None
                    end)).

(** Modelled from the spec: [hypernetwork.apply_strength(value)] puts the
    strength in force, the configured one when called without a value. *)
Definition apply_strength (x : option value) : M unit :=
  modify_shared (fun s =>
    set_multiplier (match x with
                    | Some v => v
                    | None => sd_hypernetwork_strength s
                    end) s).

(** ** The axis functions *)

Definition apply_fn : Type := Request -> value -> list value -> M Request.

Definition apply_field (field : string) : apply_fn :=
  fun p x xs => ret (setattr p field x).

Definition apply_prompt : apply_fn :=
  fun p x xs =>
    match xs with
    | [] => raise IndexError
    | VStr tok :: _ =>
        match getattr p "prompt", getattr p "negative_prompt" with
        | VStr pr, VStr np =>
            if negb (PyStr.contains tok pr) && negb (PyStr.contains tok np)
            then raise (RuntimeError
                          ("Prompt S/R did not find " ++ tok ++
                           " in prompt or negative prompt.")%string)
            else
              match x with
              | VStr x' =>
                  ret (setattr
                         (setattr p "prompt" (VStr (PyStr.replace pr tok x')))
                         "negative_prompt" (VStr (PyStr.replace np tok x')))
              | _ => raise TypeError
              end
        | _, _ => raise TypeError
        end
    | _ :: _ => raise TypeError
    end.

(** [token_order.sort(key=lambda t: t[0])]: a stable sort on the position. *)
Fixpoint insert_by_pos (t : Z * string) (l : list (Z * string))
  : list (Z * string) :=
  match l with
  | [] => [t]
  | u :: l' => if fst t <? fst u then t :: l else u :: insert_by_pos t l'
  end.

Definition sort_by_pos (l : list (Z * string)) : list (Z * string) :=
  fold_left (fun acc t => insert_by_pos t acc) l [].

(** The second loop of [apply_order]: cut the prompt at every token, in
    the order the tokens were first seen. *)
Fixpoint split_tokens (tokens : list string) (prompt : string)
  : list string * string :=
  match tokens with
  | [] => ([], prompt)
  | token :: rest =>
      let n := PyStr.find prompt token in
      let part := PyStr.slice_to prompt n in
      let prompt' := PyStr.slice_from prompt (n + PyStr.len token) in
      let (parts, final) := split_tokens rest prompt' in
      (part :: parts, final)
  end.

(** The third loop: the parts with the tokens in the wanted order. *)
Fixpoint rebuild (parts x : list string) : string :=
  match parts, x with
  | part :: parts', tok :: x' => (part ++ tok ++ rebuild parts' x')%string
  | _, _ => EmptyString
  end.

Definition apply_order : apply_fn :=
  fun p x xs =>
    match x, getattr p "prompt" with
    | VTuple tokens, VStr pr =>
        let token_order :=
          sort_by_pos (map (fun token => (PyStr.find pr token, token)) tokens) in
        let (prompt_parts, rest) := split_tokens (map snd token_order) pr in
        ret (setattr p "prompt" (VStr (rebuild prompt_parts tokens ++ rest)%string))
    | _, _ => raise TypeError
    end.

Definition apply_sampler : apply_fn :=
  fun p x xs =>
    match x with
    | VStr name =>
        match samplers_map api (PyStr.lower name) with
        | None => raise (RuntimeError ("Unknown sampler: " ++ name)%string)
        | Some sampler_name => ret (setattr p "sampler_name" (VStr sampler_name))
        end
    | _ => raise TypeError
    end.

Definition confirm_fn : Type := Request -> list value -> outcome unit.

Fixpoint confirm_samplers (p : Request) (xs : list value) : outcome unit :=
  match xs with
  | [] => Ok tt
  | VStr x :: xs' =>
      match samplers_map api (PyStr.lower x) with
      | None => Raise (RuntimeError ("Unknown sampler: " ++ x)%string)
      | Some _ => confirm_samplers p xs'
      end
  | _ :: _ => Raise TypeError
  end.

Definition apply_checkpoint : apply_fn :=
  fun p x xs =>
    match x with
    | VStr name =>
        match get_closet_checkpoint_match api name with
        | None => raise (RuntimeError ("Unknown checkpoint: " ++ name)%string)
        | Some info =>
            reload_model_weights VSdModel (Some info) ;;;
            ret (setattr p "sd_model" VSdModel)
        end
    | _ => raise TypeError
    end.

Fixpoint confirm_checkpoints (p : Request) (xs : list value) : outcome unit :=
  match xs with
  | [] => Ok tt
  | VStr x :: xs' =>
      match get_closet_checkpoint_match api x with
      | None => Raise (RuntimeError ("Unknown checkpoint: " ++ x)%string)
      | Some _ => confirm_checkpoints p xs'
      end
  | _ :: _ => Raise TypeError
  end.

(** [x.lower() in ["", "none"]] *)
Definition names_no_hypernetwork (x : string) : bool :=
  let l := PyStr.lower x in String.eqb l "" || String.eqb l "none".

(** [not name] for what the host's search returns. *)
Definition no_name (name : option string) : bool :=
  match name with
  | None => true
  | Some n => PyStr.is_empty n
  end.

Definition apply_hypernetwork : apply_fn :=
  fun p x xs =>
    match x with
    | VStr x' =>
        if names_no_hypernetwork x' then load_hypernetwork None ;;; ret p
        else
          let name := find_closest_hypernetwork_name api x' in
          if no_name name
          then raise (RuntimeError ("Unknown hypernetwork: " ++ x')%string)
          else load_hypernetwork name ;;; ret p
    | _ => raise TypeError
    end.

Definition apply_hypernetwork_strength : apply_fn :=
  fun p x xs => apply_strength (Some x) ;;; ret p.

Fixpoint confirm_hypernetworks (p : Request) (xs : list value) : outcome unit :=
  match xs with
  | [] => Ok tt
  | VStr x :: xs' =>
      if names_no_hypernetwork x then confirm_hypernetworks p xs'
      else if no_name (find_closest_hypernetwork_name api x)
           then Raise (RuntimeError ("Unknown hypernetwork: " ++ x)%string)
           else confirm_hypernetworks p xs'
  | _ :: _ => Raise TypeError
  end.

Definition apply_clip_skip : apply_fn :=
  fun p x xs => modify_shared (set_CLIP x) ;;; ret p.

Definition do_nothing : apply_fn := fun p x xs => ret p.

(** The option record; [format_value] gets the option's label, which is
    all the formatters read of [opt]. *)
Record AxisOption : Type := mk_AxisOption {
  opt_label : string;
  opt_type : axis_type;
  opt_apply : apply_fn;
  opt_format_value : Request -> string -> value -> label;
  opt_confirm : option confirm_fn
}.

Definition format_value_add_label (p : Request) (l : string) (x : value)
  : label := Labelled l x.

Definition format_value (p : Request) (l : string) (x : value) : label :=
  Shown x.

Definition format_value_join_list (p : Request) (l : string) (x : value)
  : label :=
  match x with
  | VTuple xs => Text (PyStr.join ", " xs)
  | _ => Shown x
  end.

Definition format_nothing (p : Request) (l : string) (x : value) : label :=
  Text "".

Definition axis_options : list AxisOption :=
  [ mk_AxisOption "Nothing" TStr do_nothing format_nothing None;
    mk_AxisOption "Seed" TInt (apply_field "seed") format_value_add_label None;
    mk_AxisOption "Var. seed" TInt (apply_field "subseed") format_value_add_label None;
    mk_AxisOption "Var. strength" TFloat (apply_field "subseed_strength") format_value_add_label None;
    mk_AxisOption "Steps" TInt (apply_field "steps") format_value_add_label None;
    mk_AxisOption "CFG Scale" TFloat (apply_field "cfg_scale") format_value_add_label None;
    mk_AxisOption "Prompt S/R" TStr apply_prompt format_value None;
    mk_AxisOption "Prompt order" TStrPermutations apply_order format_value_join_list None;
    mk_AxisOption "Sampler" TStr apply_sampler format_value (Some confirm_samplers);
    mk_AxisOption "Checkpoint name" TStr apply_checkpoint format_value (Some confirm_checkpoints);
    mk_AxisOption "Hypernetwork" TStr apply_hypernetwork format_value (Some confirm_hypernetworks);
    mk_AxisOption "Hypernet str." TFloat apply_hypernetwork_strength format_value_add_label None;
    mk_AxisOption "Sigma Churn" TFloat (apply_field "s_churn") format_value_add_label None;
    mk_AxisOption "Sigma min" TFloat (apply_field "s_tmin") format_value_add_label None;
    mk_AxisOption "Sigma max" TFloat (apply_field "s_tmax") format_value_add_label None;
    mk_AxisOption "Sigma noise" TFloat (apply_field "s_noise") format_value_add_label None;
    mk_AxisOption "Eta" TFloat (apply_field "eta") format_value_add_label None;
    mk_AxisOption "Clip skip" TInt apply_clip_skip format_value_add_label None;
    mk_AxisOption "Denoising" TFloat (apply_field "denoising_strength") format_value_add_label None;
    mk_AxisOption "Cond. Image Mask Weight" TFloat (apply_field "inpainting_mask_weight") format_value_add_label None ].

(** ** [process_axis] *)

Import Patterns.

(** [m.group(n)] handed to a conversion: a group that took no part in the
    match is [None]. *)
Definition group_int (m : Re.caps) (n : nat) : outcome Z :=
  match Re.group m n with
  | Some s => PyNum.py_int s
  | None => Raise TypeError
  end.

Definition group_float (m : Re.caps) (n : nat) : outcome float :=
  match Re.group m n with
  | Some s => PyNum.py_float s
  | None => Raise TypeError
  end.

(** One field of an [int] axis: the body of the first [for val in valslist]. *)
Definition expand_int (val : string) : outcome (list value) :=
  let m := Re.fullmatch re_range val in
  let mc := Re.fullmatch re_range_count val in
  match m, mc with
  | Some m, _ =>
      start <-? group_int m 1 ;
      end_ <-? group_int m 2 ;
      step <-? (match Re.group m 3 with
                | Some _ => group_int m 3
                | None => Ok 1
                end) ;
      r <-? PyNum.py_range start (end_ + 1) step ;
      Ok (map VInt r)
  | None, Some mc =>
      start <-? group_int mc 1 ;
      end_ <-? group_int mc 2 ;
      num <-? (match Re.group mc 3 with
               | Some _ => group_int mc 3
               | None => Ok 1
               end) ;
      xs <-? PyNum.np_linspace (PyNum.float_of_Z start) (PyNum.float_of_Z end_) num ;
      ys <-? omap PyNum.int_of_float xs ;
      Ok (map VInt ys)
  | None, None => Ok [VStr val]
  end.

(** One field of a [float] axis: the body of the second loop. *)
Definition expand_float (val : string) : outcome (list value) :=
  let m := Re.fullmatch re_range_float val in
  let mc := Re.fullmatch re_range_count_float val in
  match m, mc with
  | Some m, _ =>
      start <-? group_float m 1 ;
      end_ <-? group_float m 2 ;
      step <-? (match Re.group m 3 with
                | Some _ => group_float m 3
                | None => Ok (PyNum.float_of_Z 1)
                end) ;
      r <-? PyNum.np_arange start (end_ + step)%float step ;
      Ok (map VFloat r)
  | None, Some mc =>
      start <-? group_float mc 1 ;
      end_ <-? group_float mc 2 ;
      num <-? (match Re.group mc 3 with
               | Some _ => group_int mc 3
               | None => Ok 1
               end) ;
      xs <-? PyNum.np_linspace start end_ num ;
      Ok (map VFloat xs)
  | None, None => Ok [VStr val]
  end.

(** [valslist_ext += ...] over the fields, in order. *)
Fixpoint expand_fields (f : string -> outcome (list value))
  (valslist : list string) : outcome (list value) :=
  match valslist with
  | [] => Ok []
  | val :: rest =>
      xs <-? f val ;
      ys <-? expand_fields f rest ;
      Ok (xs ++ ys)
  end.

(** [opt.type(x)] *)
Definition convert (t : axis_type) (x : value) : outcome value :=
  match t, x with
  | TInt, VInt z => Ok (VInt z)
  | TInt, VStr s => z <-? PyNum.py_int s ; Ok (VInt z)
  | TInt, VFloat f => z <-? PyNum.int_of_float f ; Ok (VInt z)
  | TInt, VBool b => Ok (VInt (if b then 1 else 0))
  | TFloat, VFloat f => Ok (VFloat f)
  | TFloat, VStr s => f <-? PyNum.py_float s ; Ok (VFloat f)
  | TFloat, VInt z => Ok (VFloat (PyNum.float_of_Z z))
  | TFloat, VBool b => Ok (VFloat (PyNum.float_of_Z (if b then 1 else 0)))
  | TStr, VStr s => Ok (VStr s)
  | TStrPermutations, _ => Ok x
  | _, _ => Raise TypeError
  end.

(** The values of an axis up to and including the conversion to the
    option's type: everything in [process_axis] before the validator. *)
Definition typed_values (opt : AxisOption) (vals : string)
  : outcome (list value) :=
  fields <-? Csv.fields_of vals ;
  let valslist := map PyStr.strip fields in
  expanded <-? (match opt_type opt with
                | TInt => expand_fields expand_int valslist
                | TFloat => expand_fields expand_float valslist
                | TStrPermutations =>
                    Ok (map VTuple (Itertools.permutations valslist))
                | TStr => Ok (map VStr valslist)
                end) ;
  omap (convert (opt_type opt)) expanded.

Definition process_axis (p : Request) (opt : AxisOption) (vals : string)
  : outcome (list value) :=
  if String.eqb (opt_label opt) "Nothing" then Ok [VInt 0]
  else
    valslist <-? typed_values opt vals ;
    (* Confirm options are valid before starting *)
    match opt_confirm opt with
    | Some confirm => _ <-? confirm p valslist ; Ok valslist
    | None => Ok valslist
    end.

(** ** [fix_axis_seeds] *)

(** [val is None or val == '' or val == -1] *)
Definition unfixed (val : value) : bool :=
  match val with
  | VNone => true
  | VStr s => PyStr.is_empty s
  | VInt z => z =? -1
  | VFloat f => (f =? -1)%float
  | _ => false
  end.

Definition is_seed_axis (axis_opt : AxisOption) : bool :=
  String.eqb (opt_label axis_opt) "Seed" ||
  String.eqb (opt_label axis_opt) "Var. seed".

(** The comprehension: one draw for every unfixed value, left to right. *)
Fixpoint fix_values (axis_list : list value) : M (list value) :=
  match axis_list with
  | [] => ret []
  | val :: rest =>
      v <- (if unfixed val
            then (r <- randrange 4294967294 ;; ret (VInt r))
            else ret val) ;;
      vs <- fix_values rest ;;
      ret (v :: vs)
  end.

Definition fix_axis_seeds (axis_opt : AxisOption) (axis_list : list value)
  : M (list value) :=
  if is_seed_axis axis_opt then fix_values axis_list else ret axis_list.

(** [if not no_fixed_seeds: ... = fix_axis_seeds(...)] for one axis. *)
Definition fix_unless_kept (no_fixed_seeds : bool) (axis_opt : AxisOption)
  (axis_list : list value) : M (list value) :=
  if no_fixed_seeds then ret axis_list else fix_axis_seeds axis_opt axis_list.

(** ** [draw_crp_pages] *)

(** The local variables the three loops share. *)
Record Locals : Type := mk_Locals {
  cache_images : list image;
  processed_result : option Processed;
  cell_mode : string;
  cell_size : Z * Z
}.

(** [copy(processed)] followed by the four [clear()] calls. The copy is
    shallow: the four lists of the copy are the lists of [processed]
    itself, so clearing them empties [processed.infotexts] as well. *)
Definition template_of (processed : Processed) : Processed :=
  mk_Processed [] (prompt processed) (seed processed) [] [] [].

(** The [try] ... [except] of one cell: the image that goes into the
    cache, and the locals after it. [processed.images[0]] on an empty list
    raises, and so does [processed.infotexts[0]]; either way the bare
    [except] puts a blank image of the current mode and size in place,
    and what the [try] block had done before stays done. *)
Definition try_take (include_lone_images : bool) (processed : Processed)
  (l : Locals) : Locals * image :=
  match images processed with
  | [] => (l, Blank (cell_mode l) (cell_size l))
  | processed_image :: _ =>
      let first :=
        match processed_result l with None => true | Some _ => false end in
      let result :=
        match processed_result l with
        | None => template_of processed
        | Some t => t
        end in
      let mode := if first then image_mode processed_image else cell_mode l in
      let size := if first then image_size processed_image else cell_size l in
      if include_lone_images then
        let result1 :=
          mk_Processed (images result ++ [processed_image]) (prompt result)
            (seed result) (infotexts result)
            (all_prompts result ++ [prompt processed])
            (all_seeds result ++ [seed processed]) in
        match (if first then [] else infotexts processed) with
        | [] =>
            (mk_Locals (cache_images l) (Some result1) mode size,
             Blank mode size)
        | info :: _ =>
            (mk_Locals (cache_images l)
               (Some (mk_Processed (images result1) (prompt result1)
                        (seed result1) (infotexts result1 ++ [info])
                        (all_prompts result1) (all_seeds result1)))
               mode size,
             processed_image)
        end
      else (mk_Locals (cache_images l) (Some result) mode size, processed_image)
  end.

Definition cell_fn : Type := value -> value -> value -> M Processed.

Section Pages.

Variable cell : cell_fn.
Variables col_field_values row_field_values page_field_values : list value.
Variables col_texts row_texts page_texts : list label.
Variables draw_legend include_lone_images : bool.

Definition ncols : nat := List.length col_field_values.
Definition nrows : nat := List.length row_field_values.
Definition npages : nat := List.length page_field_values.

(** [state.job = f"{ic + (ir * ipg) * len(cols) + 1} out of {total}"] *)
Definition report_job (ipg ir ic : nat) : M unit :=
  modify_shared
    (set_job (Z.of_nat (ic + (ir * ipg) * ncols + 1),
              Z.of_nat (ncols * nrows * npages))).

(** The body of the innermost loop up to [cache_images.append]. The call
    of [cell] stands before the [try]: what it raises is not caught. *)
Definition cell_step (ipg ir ic : nat) (pg r c : value) (l : Locals)
  : M Locals :=
  report_job ipg ir ic ;;;
  processed <- cell c r pg ;;
  let (l', processed_image) := try_take include_lone_images processed l in
  ret (mk_Locals (cache_images l' ++ [processed_image])
         (processed_result l') (cell_mode l') (cell_size l')).

(** [for ic, c in enumerate(col_field_values)], left by [break] when the
    job is found interrupted after a cell. *)
Fixpoint loop_cols (ipg ir : nat) (pg r : value) (ic : nat)
  (cols : list value) (l : Locals) : M Locals :=
  match cols with
  | [] => ret l
  | c :: cols' =>
      l1 <- cell_step ipg ir ic pg r c l ;;
      s <- get_shared ;;
      if interrupted s then ret l1
      else loop_cols ipg ir pg r (S ic) cols' l1
  end.

(** [for i in range(len(cache_images), cols * rows): append a blank] *)
Definition pad (l : Locals) : Locals :=
  mk_Locals
    (cache_images l ++
     repeat (Blank (cell_mode l) (cell_size l))
            (ncols * nrows - List.length (cache_images l)))
    (processed_result l) (cell_mode l) (cell_size l).

(** [for ir, r in enumerate(row_field_values)] *)
Fixpoint loop_rows (ipg : nat) (pg : value) (ir : nat)
  (rows : list value) (l : Locals) : M Locals :=
  match rows with
  | [] => ret l
  | r :: rows' =>
      l1 <- loop_cols ipg ir pg r 0 col_field_values l ;;
      s <- get_shared ;;
      if interrupted s then ret (pad l1)
      else loop_rows ipg pg (S ir) rows' l1
  end.

(** [list.insert(i, x)] *)
Definition py_insert {A} (i : nat) (x : A) (l : list A) : list A :=
  firstn i l ++ x :: skipn i l.

(** [images.image_grid] and, [if draw_legend], the row and column labels
    and the page label; [page_texts[ipg]] raises when the list is too
    short. *)
Definition page_grid (ipg : nat) (l : Locals) : outcome image :=
  let grid := Grid (cache_images l) nrows in
  if draw_legend then
    let grid := Legend grid (fst (cell_size l)) (snd (cell_size l))
                  col_texts row_texts in
    if (1 <? npages)%nat then
      match nth_error page_texts ipg with
      | Some page_text => Ok (PageLegend grid page_text)
      | None => Raise IndexError
      end
    else Ok grid
  else Ok grid.

(** From [images.image_grid] to the four [insert] calls: the page's grid
    goes into the result at the page's index. With no result object yet,
    [processed_result.images] raises. *)
Definition compose_page (ipg : nat) (l : Locals) : M Locals :=
  grid1 <- lift (page_grid ipg l) ;;
  match processed_result l with
  | None => raise AttributeError
  | Some t =>
      ret (mk_Locals []
             (Some (mk_Processed
                      (py_insert ipg grid1 (images t))
                      (prompt t) (seed t)
                      (py_insert ipg EmptyString (infotexts t))
                      (py_insert ipg EmptyString (all_prompts t))
                      (py_insert ipg (VInt (-1)) (all_seeds t))))
             (cell_mode l) (cell_size l))
  end.

(** [for ipg, pg in enumerate(page_field_values)]; the number returned
    beside the locals is [ipg + 1] of the last page entered. *)
Fixpoint loop_pages (ipg : nat) (pages : list value) (l : Locals)
  : M (Locals * nat) :=
  match pages with
  | [] => ret (l, ipg)
  | pg :: pages' =>
      l1 <- loop_rows ipg pg 0 row_field_values l ;;
      l2 <- compose_page ipg l1 ;;
      s <- get_shared ;;
      if interrupted s then ret (l2, S ipg)
      else loop_pages (S ipg) pages' l2
  end.

Definition initial_locals : Locals := mk_Locals [] None "P" (1, 1).

Definition int_attr (p : Request) (name : string) : Z :=
  match getattr p name with
  | VInt z => z
  | _ => 0
  end.

Definition draw_crp_pages (p : Request) : M (Processed * nat) :=
  modify_shared
    (set_job_count
       (Z.of_nat (ncols * nrows * npages) * int_attr p "n_iter")) ;;;
  res <- loop_pages 0 page_field_values initial_locals ;;
  match processed_result (fst res) with
  | None =>
      (* "Unexpected error: draw_crp_pages failed to return even a
         single processed image" *)
      ret (empty_Processed, O)
  | Some processed_result => ret (processed_result, snd res)
  end.

End Pages.

(** ** [SharedSettingsStackHelper] *)

Record SharedSettingsStackHelper : Type := mk_helper {
  self_CLIP_stop_at_last_layers : value;
  self_hypernetwork : string;
  self_model : value   (* a reference to the shared model object, not a copy *)
}.

Definition enter : M SharedSettingsStackHelper :=
  s <- get_shared ;;
  ret (mk_helper (CLIP_stop_at_last_layers s) (sd_hypernetwork s) VSdModel).

Definition exit (self : SharedSettingsStackHelper) : M unit :=
  reload_model_weights (self_model self) None ;;;
  load_hypernetwork (Some (self_hypernetwork self)) ;;;
  apply_strength None ;;;
  modify_shared (set_CLIP (self_CLIP_stop_at_last_layers self)).

(** [with SharedSettingsStackHelper(): body]. [__exit__] runs however the
    body ends, and returns nothing, so an exception of the body goes on
    to the caller after it. *)
Definition with_SharedSettingsStackHelper {A} (body : M A) : M A :=
  fun w =>
    match enter w with
    | (Raise e, w1) => (Raise e, w1)
    | (Ok self, w1) =>
        let (res, w2) := body w1 in
        match exit self w2 with
        | (Ok _, w3) => (res, w3)
        | (Raise e, w3) => (Raise e, w3)
        end
    end.

(** ** [Script.run] *)

(** Modelled from the spec: [modules.processing.fix_seed(p)] "fixes the
    request's random seed": an unfixed seed or variation seed of the
    request is replaced by a drawn one. *)
Definition fix_seed (p : Request) : M Request :=
  let fixed (v : value) : M value :=
    if unfixed v then (r <- randrange 4294967294 ;; ret (VInt r)) else ret v in
  s <- fixed (getattr p "seed") ;;
  ss <- fixed (getattr p "subseed") ;;
  ret (setattr (setattr p "seed" s) "subseed" ss).

(** [axis_options[i]] *)
Definition option_at (i : nat) : outcome AxisOption :=
  match nth_error axis_options i with
  | Some o => Ok o
  | None => Raise IndexError
  end.

(** [sum(values)] over the integers of a Steps axis. *)
Definition sum_values (xs : list value) : Z :=
  fold_left (fun acc x => match x with VInt z => acc + z | _ => acc end) xs 0.

Definition is_steps (o : AxisOption) : bool := String.eqb (opt_label o) "Steps".

Definition zlen {A} (l : list A) : Z := Z.of_nat (List.length l).

Definition total_steps (p : Request) (col_options row_options page_options : AxisOption)
  (cols rows pages : list value) : Z :=
  let t :=
    if is_steps col_options then sum_values cols * zlen rows * zlen pages
    else if is_steps row_options then sum_values rows * zlen cols * zlen pages
    else if is_steps page_options then sum_values pages * zlen rows * zlen cols
    else int_attr p "steps" * zlen rows * zlen cols * zlen pages in
  match getattr p "__class__", getattr p "enable_hr" with
  | VStr "StableDiffusionProcessingTxt2Img", VBool true => t * 2
  | _, _ => t
  end.

(** The closure [cell] of [run]: a copy of the request, the three axis
    values applied in the order column, row, page, then the render. *)
Definition cell (p : Request) (col_options row_options page_options : AxisOption)
  (col_field_values row_field_values page_field_values : list value)
  : cell_fn :=
  fun col_value row_value page_value =>
    let pc := p in
    pc <- opt_apply col_options pc col_value col_field_values ;;
    pc <- opt_apply row_options pc row_value row_field_values ;;
    pc <- opt_apply page_options pc page_value page_field_values ;;
    render pc.

(** [for ipage_count in range(0, page_count): images.save_image(...)] *)
Fixpoint save_pages (imgs : list image) (i n : nat) : M unit :=
  match n with
  | O => ret tt
  | S n' =>
      match nth_error imgs i with
      | None => raise IndexError
      | Some im =>
          (fun w => (Ok tt, mk_World (shared w) (host w) (rendered w)
                                     (saved w ++ [im]))) ;;;
          save_pages imgs (S i) n'
      end
  end.

Definition labels_of (p : Request) (o : AxisOption) (xs : list value)
  : list label :=
  map (opt_format_value o p (opt_label o)) xs.

(** [run] from [fix_axis_seeds] to the end (lines 397 to 449): the seeds
    of the axes, the step count, and the sweep inside the settings helper. *)
Definition run_sweep (p : Request)
  (col_options row_options page_options : AxisOption)
  (col_field_values row_field_values page_field_values : list value)
  (draw_legend include_lone_images no_fixed_seeds : bool) : M Processed :=
  col_field_values <- fix_unless_kept no_fixed_seeds col_options col_field_values ;;
  row_field_values <- fix_unless_kept no_fixed_seeds row_options row_field_values ;;
  page_field_values <- fix_unless_kept no_fixed_seeds page_options page_field_values ;;
  modify_shared
    (set_total_tqdm
       (total_steps p col_options row_options page_options
          col_field_values row_field_values page_field_values
        * int_attr p "n_iter")) ;;;
  with_SharedSettingsStackHelper
    (res <- draw_crp_pages
              (cell p col_options row_options page_options
                 col_field_values row_field_values page_field_values)
              col_field_values row_field_values page_field_values
              (labels_of p col_options col_field_values)
              (labels_of p row_options row_field_values)
              (labels_of p page_options page_field_values)
              draw_legend include_lone_images p ;;
     s <- get_shared ;;
     (if grid_save s then save_pages (images (fst res)) 0 (snd res)
      else ret tt) ;;;
     ret (fst res)).

(** [run] up to the expansion of the three axes (lines 319 to 395), then
    [run_sweep]. *)
Definition run (p : Request)
  (col_module : nat) (col_values : string)
  (row_module : nat) (row_values : string)
  (page_module : nat) (page_values : string)
  (draw_legend include_lone_images no_fixed_seeds : bool) : M Processed :=
  p <- (if no_fixed_seeds then ret p else fix_seed p) ;;
  s <- get_shared ;;
  let p := if return_grid s then p else setattr p "batch_size" (VInt 1) in
  col_options <- lift (option_at col_module) ;;
  col_field_values <- lift (process_axis p col_options col_values) ;;
  row_options <- lift (option_at row_module) ;;
  row_field_values <- lift (process_axis p row_options row_values) ;;
  page_options <- lift (option_at page_module) ;;
  page_field_values <- lift (process_axis p page_options page_values) ;;
  run_sweep p col_options row_options page_options
    col_field_values row_field_values page_field_values
    draw_legend include_lone_images no_fixed_seeds.

End Sweep.

(** ** Vocabulary of the statements *)

Module Spec.
Import PyStr.

Fixpoint all_of (p : ascii -> bool) (s : string) : bool :=
  match s with
  | EmptyString => true
  | String c s' => p c && all_of p s'
  end.

(** A non-empty run of decimal digits. *)
Definition is_digits (s : string) : bool :=
  negb (is_empty s) && all_of is_digit s.

Fixpoint decimal_from (acc : Z) (s : string) : Z :=
  match s with
  | EmptyString => acc
  | String c s' => decimal_from (10 * acc + digit_val c) s'
  end.

(** The number a run of digits writes. *)
Definition decimal (s : string) : Z := decimal_from 0 s.

(** The input stops the repetition of [p] here: it is over, or its next
    character is not in the class. *)
Definition stops (p : ascii -> bool) (s : string) : bool :=
  match s with
  | EmptyString => true
  | String a _ => negb (p a)
  end.

(** A character that is neither white space nor special to the csv
    reader. *)
Definition plain (c : ascii) : bool :=
  negb (is_space c) && negb (Ascii.eqb c ",") &&
  negb (Ascii.eqb c Csv.quotechar).

(** A float numeral without sign or exponent: digits, or digits, a point
    and more digits. *)
Definition float_numeral (x : string) : Prop :=
  is_digits x = true \/
  exists d f, x = (d ++ "." ++ f)%string /\
              is_digits d = true /\ all_of is_digit f = true.

(** The shape of [range(start, end + 1, step)] for a positive step: the
    terms [start + i * step] that do not exceed [end_]. *)
Definition progression_upto (start step end_ : Z) (xs : list Z) : Prop :=
  xs = map (fun i => start + Z.of_nat i * step) (seq 0 (List.length xs)) /\
  Forall (fun x => x <= end_) xs /\
  end_ < start + Z.of_nat (List.length xs) * step.

(** What cannot follow START: after it, the patterns go on only through
    white space and a dash. *)
Definition no_dash_ahead (s : string) : bool :=
  match s with
  | EmptyString => true
  | String a _ => negb (is_space a) && negb (Ascii.eqb "-" a)
  end.

(** [stable proj m]: running [m] leaves the part [proj] of the world as
    it was, whether [m] returns or raises. *)
Definition stable {Host X A} (proj : World Host -> X) (m : M Host A) : Prop :=
  forall w, proj (snd (m w)) = proj w.

(** The configured checkpoint. *)
Definition configured {Host} (w : World Host) : string :=
  sd_model_checkpoint (shared w).

(** The settings and the configuration in force. *)
Definition settings_and_config {Host} (w : World Host)
  : string * string * (string * option string * value) :=
  (sd_model_checkpoint (shared w), sd_hypernetwork (shared w),
   render_config (shared w)).

(** [bound n r]: every match of [r] captures group [n]. *)
Fixpoint bound (n : nat) (r : Re.regex) : bool :=
  match r with
  | Re.Seq r1 r2 => bound n r1 || bound n r2
  | Re.Grp m r1 => Nat.eqb m n || bound n r1
  | _ => false
  end.

(** The cells a composed page holds: the images given to
    [images.image_grid], under the legends. *)
Fixpoint cells_of (im : image) : nat :=
  match im with
  | Grid cells _ => List.length cells
  | Legend im' _ _ _ _ => cells_of im'
  | PageLegend im' _ => cells_of im'
  | _ => O
  end.

(** The cells of the first [page_count] images of a result: its pages. *)
Definition total_cells (res : Processed * nat) : nat :=
  fold_right (fun im n => (cells_of im + n)%nat) O
    (firstn (snd res) (images (fst res))).

(** The checkpoint and the hypernetwork in force are the configured ones,
    as the host keeps them between jobs. *)
Definition settings_in_force {Host} (api : host_api Host) (s : Shared) : Prop :=
  sd_model s = sd_model_checkpoint s /\
  loaded_hypernetwork s = hypernetworks api (sd_hypernetwork s).

(** The first [n] raw draws of the host's generator and the host after
    them. *)
Fixpoint draws {Host} (api : host_api Host) (n : nat) (h : Host)
  : list Z * Host :=
  match n with
  | O => ([], h)
  | S n' =>
      let (r, h1) := rng_next api h in
      let (rs, h2) := draws api n' h1 in
      (r :: rs, h2)
  end.

(** The unfixed values of a list replaced, in order, by the given draws
    brought into [0, 4294967294). *)
Fixpoint fixed_with (ds : list Z) (xs : list value) : list value :=
  match xs with
  | [] => []
  | x :: xs' =>
      if unfixed x then
        match ds with
        | d :: ds' => VInt (d mod 4294967294) :: fixed_with ds' xs'
        | [] => x :: fixed_with [] xs'
        end
      else x :: fixed_with ds xs'
  end.

Definition count_unfixed (xs : list value) : nat :=
  List.length (filter unfixed xs).

(** The values that ask for a random seed: [None], the empty string, and
    a number equal to -1 (Python's [==] compares an int and a float by
    value). *)
Definition sentinel (x : value) : bool :=
  match x with
  | VNone => true
  | VStr EmptyString => true
  | VInt (-1) => true
  | VFloat f => (f =? -1)%float
  | _ => false
  end.

(** The characters an expression can match. *)
Fixpoint alphabet (r : Re.regex) (a : ascii) : bool :=
  match r with
  | Re.Eps => false
  | Re.Chr p => p a
  | Re.Seq r1 r2 => alphabet r1 a || alphabet r2 a
  | Re.Opt r1 => alphabet r1 a
  | Re.Star p => p a
  | Re.Grp _ r1 => alphabet r1 a
  end.

(** A letter of the ASCII alphabet. *)
Definition is_letter (c : ascii) : bool :=
  let n := code (lower_char c) in ((97 <=? n) && (n <=? 122))%nat.

(** A character with no meaning to the csv reader: not the delimiter, not
    the quote character, not a line end. *)
Definition field_char (c : ascii) : bool :=
  negb (Ascii.eqb c ",") && negb (Ascii.eqb c Csv.quotechar) &&
  negb (Csv.is_newline c).

(** The states in which the csv reader is between the fields of a record
    or inside an unquoted field. *)
Definition unquoted (s : Csv.state) : bool :=
  match s with
  | Csv.START_RECORD | Csv.START_FIELD | Csv.IN_FIELD => true
  | _ => false
  end.

(** A field written between double quotes. *)
Definition quoted (f : string) : string :=
  String Csv.quotechar (f ++ String Csv.quotechar "").

Definition no_quote (c : ascii) : bool := negb (Ascii.eqb c Csv.quotechar).

(** A text as gaps and tokens in turn, [g1 t1 g2 t2 ... last]. *)
Fixpoint interleave (gaps toks : list string) (last : string) : string :=
  match gaps, toks with
  | g :: gaps', t :: toks' => (g ++ t ++ interleave gaps' toks' last)%string
  | _, _ => last
  end.

(** Each token is not empty and is first found in [pr] at its place after
    the gap before it, the places counted from [off]. *)
Fixpoint slots_found (pr : string) (off : Z) (gaps toks : list string)
  : Prop :=
  match gaps, toks with
  | g :: gaps', t :: toks' =>
      t <> EmptyString /\ PyStr.find pr t = off + PyStr.len g /\
      slots_found pr (off + PyStr.len g + PyStr.len t) gaps' toks'
  | _, _ => True
  end.

(** The sign of a numeral as it is written: none, "+" or "-". *)
Definition sign_text (s : string) : bool :=
  String.eqb s "" || String.eqb s "+" || String.eqb s "-".

(** The integer a sign and a run of digits write. *)
Definition signed_decimal (s d : string) : Z :=
  if String.eqb s "-" then - decimal d else decimal d.

(** A token with the place it is found at. *)
Definition placed (pr : string) (t : string) : Z * string :=
  (PyStr.find pr t, t).

(** The order of the places. *)
Definition earlier (a b : Z * string) : Prop := fst a < fst b.

End Spec.

(** ** A host to run the script against

    A small host for the examples: its state counts the renders made, and
    the behaviour of its renderer is chosen by a tag. *)

Module Demo.

Inductive behaviour : Type :=
| Renders                      (* every render returns one image *)
| NoImages                     (* every render returns no image *)
| Fails                        (* every render raises *)
| InterruptedAfter (n : nat).  (* the user interrupts during render n *)

Definition picture (n : nat) : image := Picture "RGB" (512, 512) n.

Definition rendered_ok (n : nat) : Processed :=
  mk_Processed [picture n] "a cat" (VInt 7) ["a cat, Seed: 7"] ["a cat"]
    [VInt 7].

Definition rendered_nothing : Processed :=
  mk_Processed [] "a cat" (VInt 7) [] [] [].

Definition api (b : behaviour) : host_api nat :=
  mk_host
    (fun name => if String.eqb name "euler a" then Some "Euler a" else None)
    (fun name => if String.eqb name "modelB" then Some "modelB.ckpt" else None)
    (fun name => if String.eqb name "anime" then Some "anime" else None)
    (fun name => if String.eqb name "anime" then Some "hypernetworks/anime.pt"
                 else None)
    (fun pc sh h =>
       match b with
       | Renders => (Ok (rendered_ok h), interrupted sh, S h)
       | NoImages => (Ok rendered_nothing, interrupted sh, S h)
       | Fails => (Raise (HostError "out of memory"), interrupted sh, S h)
       | InterruptedAfter n =>
           (Ok (rendered_ok h), interrupted sh || (n <=? S h)%nat, S h)
       end)
    (fun h => (1103515245 * Z.of_nat h + 12345, S h)).

Definition shared0 : Shared :=
  mk_Shared (VInt 1) "None" (VFloat 1) "modelA.ckpt" true false
    "modelA.ckpt" None (VFloat 1) false 0 (0, 0) 0.

Definition world0 : World nat := mk_World shared0 O [] [].

Definition p0 : Request :=
  [ ("prompt", VStr "a cat"); ("negative_prompt", VStr "");
    ("seed", VInt (-1)); ("subseed", VInt (-1)); ("steps", VInt 20);
    ("n_iter", VInt 1); ("batch_size", VInt 4);
    ("__class__", VStr "StableDiffusionProcessingTxt2Img");
    ("enable_hr", VBool false) ].

(** The positions of some options in [axis_options]. *)
Definition Nothing : nat := 0.
Definition Seed : nat := 1.
Definition Steps : nat := 4.
Definition CFG_Scale : nat := 5.
Definition Prompt_SR : nat := 6.
Definition Sampler : nat := 8.
Definition Checkpoint_name : nat := 9.
Definition Clip_skip : nat := 17.

(** The option at a position of the table. *)
Definition option (b : behaviour) (i : nat) : AxisOption nat :=
  nth i (axis_options (api b))
    (mk_AxisOption "" TStr (@do_nothing nat) format_nothing None).

(** The closure [cell] of a run over the given options and values. *)
Definition cell_of (b : behaviour) (col row page : nat)
  (cols rows pages : list value) : cell_fn nat :=
  cell (api b) p0 (option b col) (option b row) (option b page)
    cols rows pages.

(** [process_axis] on the option at a position of the table. *)
Definition expand (i : nat) (vals : string) : outcome (list value) :=
  o <-? option_at (api Renders) i ; process_axis p0 o vals.

End Demo.

(** * Properties *)

(** ** Strings *)

Module StrFacts.
Import PyStr Spec.
Local Open Scope string_scope.

Lemma append_nil_r (s : string) : s ++ "" = s.
Proof. induction s; simpl; congruence. Qed.

Lemma append_assoc (a b c : string) : (a ++ b) ++ c = a ++ (b ++ c).
Proof. induction a; simpl; congruence. Qed.

Lemma length_append (a b : string) :
  String.length (a ++ b) = (String.length a + String.length b)%nat.
Proof. induction a; simpl; congruence. Qed.

Lemma take_append (a b : string) : take (String.length a) (a ++ b) = a.
Proof. induction a; simpl; congruence. Qed.

Lemma all_of_append p (a b : string) :
  all_of p (a ++ b) = all_of p a && all_of p b.
Proof.
  induction a as [|c a IH]; simpl; [reflexivity|].
  rewrite IH. now rewrite andb_assoc.
Qed.

Lemma all_of_weaken (p q : ascii -> bool) (s : string) :
  (forall c, p c = true -> q c = true) ->
  all_of p s = true -> all_of q s = true.
Proof.
  intros Hpq. induction s as [|c s IH]; simpl; [reflexivity|].
  intros H. apply andb_prop in H as [Hc Hs].
  now rewrite (Hpq _ Hc), (IH Hs).
Qed.

(** Facts on single characters, by enumeration of the 256 codes. *)
Ltac by_cases_on c :=
  destruct c as [[] [] [] [] [] [] [] []]; try reflexivity; discriminate.

Lemma digit_not_space c : is_digit c = true -> is_space c = false.
Proof. by_cases_on c. Qed.

Lemma digit_not_sign c : is_digit c = true -> is_sign c = false.
Proof. by_cases_on c. Qed.

Lemma digit_plain c : is_digit c = true -> plain c = true.
Proof. by_cases_on c. Qed.

Lemma digit_not_newline c : is_digit c = true -> Csv.is_newline c = false.
Proof. by_cases_on c. Qed.

Lemma digit_not_underscore c : is_digit c = true -> Ascii.eqb c "_" = false.
Proof. by_cases_on c. Qed.

Lemma digit_not_dash c : is_digit c = true -> Ascii.eqb "-" c = false.
Proof. by_cases_on c. Qed.

Lemma digit_lower c : is_digit c = true -> lower_char c = c.
Proof. by_cases_on c. Qed.

Lemma plain_not_newline c : plain c = true -> Csv.is_newline c = false.
Proof. by_cases_on c. Qed.

Lemma plain_not_comma c : plain c = true -> Ascii.eqb c "," = false.
Proof. by_cases_on c. Qed.

Lemma plain_not_quote c : plain c = true -> Ascii.eqb c Csv.quotechar = false.
Proof. by_cases_on c. Qed.

Lemma plain_not_space c : plain c = true -> is_space c = false.
Proof. by_cases_on c. Qed.

Lemma is_digits_cons (s : string) :
  is_digits s = true ->
  exists c s', s = String c s' /\ is_digit c = true /\ all_of is_digit s' = true.
Proof.
  unfold is_digits. destruct s as [|c s']; simpl; [discriminate|].
  intros H. apply andb_prop in H as [Hc Hs]. eauto.
Qed.

Lemma is_digits_all (s : string) :
  is_digits s = true -> all_of is_digit s = true.
Proof. unfold is_digits. intros H. now apply andb_prop in H. Qed.

Lemma digits_plain (s : string) :
  all_of is_digit s = true -> all_of plain s = true.
Proof. apply all_of_weaken, digit_plain. Qed.

(** A text without white space is its own [strip]. *)
Lemma rstrip_plain (s : string) : all_of plain s = true -> rstrip s = s.
Proof.
  induction s as [|c s IH]; simpl; [reflexivity|].
  intros H. apply andb_prop in H as [Hc Hs].
  rewrite (IH Hs), (plain_not_space _ Hc). reflexivity.
Qed.

Lemma strip_plain (s : string) : all_of plain s = true -> strip s = s.
Proof.
  intros H. unfold strip.
  destruct s as [|c s']; [reflexivity|].
  pose proof H as H'. simpl in H'. apply andb_prop in H' as [Hc _].
  simpl lstrip. rewrite (plain_not_space _ Hc).
  now apply rstrip_plain.
Qed.

End StrFacts.

(** ** The csv reader on a field without special characters *)

Module CsvFacts.
Import PyStr Spec StrFacts Csv.
Local Open Scope string_scope.

Lemma feed_in_field (s f : string) (fs : list string) :
  all_of plain s = true -> s <> "" ->
  feed s (mk_reader IN_FIELD f fs)
  = Ok (mk_reader START_RECORD "" (fs ++ [(f ++ s)%string])%list).
Proof.
  revert f. induction s as [|c s IH]; intros f Hs Hne; [congruence|].
  simpl in Hs. apply andb_prop in Hs as [Hc Hs].
  assert (Hnl : Ascii.eqb c nl = false).
  { pose proof (plain_not_newline _ Hc) as H. unfold is_newline in H.
    now apply orb_false_elim in H. }
  cbn [feed]. unfold process_char at 1. cbn [st].
  rewrite (plain_not_newline _ Hc), (plain_not_comma _ Hc), Hnl.
  cbn [obind orb].
  destruct s as [|c' s'].
  - reflexivity.
  - cbn [is_empty obind].
    unfold add_char. cbn [field fields].
    rewrite IH; [|assumption|discriminate].
    now rewrite append_assoc.
Qed.

(** A non-empty text of plain characters is read as one field. *)
Lemma fields_of_plain (s : string) :
  all_of plain s = true -> s <> "" -> fields_of s = Ok [s].
Proof.
  intros Hs Hne. destruct s as [|c s]; [congruence|].
  simpl in Hs. apply andb_prop in Hs as [Hc Hs].
  assert (Hnl : Ascii.eqb c nl = false).
  { pose proof (plain_not_newline _ Hc) as H. unfold is_newline in H.
    now apply orb_false_elim in H. }
  unfold fields_of. cbn [feed]. unfold process_char at 1. cbn [st].
  rewrite (plain_not_newline _ Hc). unfold start_field.
  rewrite (plain_not_newline _ Hc), (plain_not_quote _ Hc),
    (plain_not_comma _ Hc), Hnl.
  cbn [obind orb].
  destruct s as [|c' s'].
  - reflexivity.
  - cbn [is_empty obind]. unfold add_char. cbn [field fields].
    rewrite feed_in_field; [reflexivity|assumption|discriminate].
Qed.

End CsvFacts.

(** ** The matcher on the range patterns *)

Module ReFacts.
Import PyStr Re Patterns Spec StrFacts.
Local Open Scope string_scope.
Local Open Scope re_scope.

Lemma exec_seq r1 r2 s c k :
  exec (r1 ;; r2) s c k = exec r1 s c (fun s1 c1 => exec r2 s1 c1 k).
Proof. reflexivity. Qed.

Lemma exec_grp n r s c k :
  exec (Grp n r) s c k
  = exec r s c (fun s1 c1 => k s1 ((n, consumed s s1) :: c1)).
Proof. reflexivity. Qed.

Lemma exec_opt r s c k :
  exec (Opt r) s c k
  = match exec r s c k with Some m => Some m | None => k s c end.
Proof. reflexivity. Qed.

Lemma exec_lit a s c k : exec (lit a) (String a s) c k = k s c.
Proof. simpl. now rewrite Ascii.eqb_refl. Qed.

Lemma consumed_append (x rest : string) : consumed (x ++ rest) rest = x.
Proof.
  unfold consumed. rewrite length_append.
  replace (String.length x + String.length rest - String.length rest)%nat
    with (String.length x) by lia.
  apply take_append.
Qed.

Lemma star_stops p k s c : stops p s = true -> star p k s c = k s c.
Proof.
  destruct s as [|a s]; simpl; [reflexivity|].
  intros H. apply negb_true_iff in H. now rewrite H.
Qed.

(** The greedy run takes all of [ds] when the continuation accepts what
    follows. *)
Lemma star_all p k ds rest c m :
  all_of p ds = true -> stops p rest = true -> k rest c = Some m ->
  star p k (ds ++ rest) c = Some m.
Proof.
  intros Hds Hrest Hk. induction ds as [|a ds IH]; simpl.
  - now rewrite star_stops.
  - simpl in Hds. apply andb_prop in Hds as [Ha Hds].
    now rewrite Ha, (IH Hds).
Qed.

(** The run fails when the continuation refuses every point at which it
    could stop. *)
Lemma star_refused p k ds rest c :
  all_of p ds = true -> stops p rest = true ->
  (forall ds', all_of p ds' = true -> k (ds' ++ rest) c = None) ->
  star p k (ds ++ rest) c = None.
Proof.
  intros Hds Hrest Hk. induction ds as [|a ds IH]; simpl.
  - rewrite star_stops by assumption. exact (Hk "" eq_refl).
  - pose proof Hds as Hds'. simpl in Hds'. apply andb_prop in Hds' as [Ha Hds'].
    rewrite Ha, (IH Hds'). exact (Hk (String a ds) Hds).
Qed.

Lemma exec_ws_stops s c k : stops is_space s = true -> exec ws s c k = k s c.
Proof. apply star_stops. Qed.

Lemma stops_digits_space ds rest :
  is_digits ds = true -> stops is_space (ds ++ rest) = true.
Proof.
  intros H. apply is_digits_cons in H as (a & ds' & -> & Ha & _).
  simpl. now rewrite (digit_not_space _ Ha).
Qed.

Lemma exec_digits ds rest c k m :
  is_digits ds = true -> stops is_digit rest = true -> k rest c = Some m ->
  exec digits (ds ++ rest) c k = Some m.
Proof.
  intros H Hrest Hk. apply is_digits_cons in H as (a & ds' & -> & Ha & Hds).
  unfold digits, plus. rewrite exec_seq. simpl. rewrite Ha.
  now apply star_all.
Qed.

(** An unsigned integer numeral in front of the input is matched whole. *)
Lemma exec_int_lit ds rest c k m :
  is_digits ds = true -> stops is_digit rest = true -> k rest c = Some m ->
  exec int_lit (ds ++ rest) c k = Some m.
Proof.
  intros H Hrest Hk. unfold int_lit.
  rewrite exec_seq, exec_opt.
  assert (Hskip : exec (Chr is_sign) (ds ++ rest) c
                    (fun s1 c1 => exec (ws ;; digits) s1 c1 k) = None).
  { apply is_digits_cons in H as (a & ds' & -> & Ha & _).
    simpl. now rewrite (digit_not_sign _ Ha). }
  rewrite Hskip, exec_seq, exec_ws_stops by now apply stops_digits_space.
  now apply exec_digits.
Qed.

Section Range.

Variable suffix : regex.

(** The part of a range pattern up to the optional suffix, on START-END
    followed by [tail]: both numerals are captured and the match goes on
    at [tail]. *)
Lemma range_of_int_prefix a b tail m :
  is_digits a = true -> is_digits b = true -> stops is_digit tail = true ->
  exec (Opt suffix ;; ws) tail [(2%nat, b); (1%nat, a)] at_end = Some m ->
  fullmatch (range_of int_lit suffix) (a ++ "-" ++ b ++ tail) = Some m.
Proof.
  intros Ha Hb Htail Hrest. unfold fullmatch, range_of.
  rewrite exec_seq, exec_ws_stops by now apply stops_digits_space.
  rewrite exec_seq, exec_grp.
  apply exec_int_lit; [assumption|reflexivity|].
  rewrite consumed_append.
  rewrite exec_seq, exec_ws_stops by reflexivity.
  rewrite exec_seq. change ("-" ++ b ++ tail) with (String "-" (b ++ tail)).
  rewrite exec_lit.
  rewrite exec_seq, exec_ws_stops by now apply stops_digits_space.
  rewrite exec_seq, exec_grp.
  apply exec_int_lit; [assumption|assumption|].
  now rewrite consumed_append.
Qed.

Hypothesis suffix_needs_input : forall c k, exec suffix "" c k = None.

(** The bare form START-END. *)
Lemma range_of_int_bare a b :
  is_digits a = true -> is_digits b = true ->
  fullmatch (range_of int_lit suffix) (a ++ "-" ++ b)
  = Some [(2%nat, b); (1%nat, a)].
Proof.
  intros Ha Hb.
  rewrite <- (append_nil_r b) at 1.
  apply range_of_int_prefix; try assumption; [reflexivity|].
  rewrite exec_seq, exec_opt, suffix_needs_input. reflexivity.
Qed.

End Range.

Lemma re_range_bare a b :
  is_digits a = true -> is_digits b = true ->
  fullmatch re_range (a ++ "-" ++ b) = Some [(2%nat, b); (1%nat, a)].
Proof. intros. now apply range_of_int_bare. Qed.

Lemma re_range_count_bare a b :
  is_digits a = true -> is_digits b = true ->
  fullmatch re_range_count (a ++ "-" ++ b) = Some [(2%nat, b); (1%nat, a)].
Proof. intros. now apply range_of_int_bare. Qed.

(** START-END(+STEP): the signed step is the third group. *)
Lemma re_range_step a b st :
  is_digits a = true -> is_digits b = true -> is_digits st = true ->
  fullmatch re_range (a ++ "-" ++ b ++ "(+" ++ st ++ ")")
  = Some [(3%nat, "+" ++ st); (2%nat, b); (1%nat, a)].
Proof.
  intros Ha Hb Hst. unfold re_range.
  apply range_of_int_prefix; try assumption; [reflexivity|].
  rewrite exec_seq, exec_opt.
  assert (Hsuffix :
    exec step_suffix
      ("(+" ++ st ++ ")") [(2%nat, b); (1%nat, a)]
      (fun s1 c1 => exec ws s1 c1 at_end)
    = Some [(3%nat, "+" ++ st); (2%nat, b); (1%nat, a)]).
  { unfold step_suffix. rewrite exec_seq, exec_ws_stops by reflexivity.
    rewrite exec_seq. change ("(+" ++ st ++ ")") with (String "(" ("+" ++ st ++ ")")).
    rewrite exec_lit, exec_seq, exec_grp, exec_seq.
    change ("+" ++ st ++ ")") with (String "+" (st ++ ")")).
    simpl (exec (Chr is_sign) _ _ _).
    apply exec_digits; [assumption|reflexivity|].
    change (String "+" (st ++ ")")) with (("+" ++ st) ++ ")").
    rewrite consumed_append. reflexivity. }
  now rewrite Hsuffix.
Qed.

End ReFacts.

(** ** What a match must have passed through *)

Module ReMeta.
Import PyStr Re Patterns Spec StrFacts ReFacts.
Local Open Scope string_scope.
Local Open Scope re_scope.

Lemma star_reaches p k s c m :
  star p k s c = Some m -> exists s1, k s1 c = Some m.
Proof.
  induction s as [|a s IH]; simpl; [eauto|].
  destruct (p a); [|eauto].
  destruct (star p k s c) eqn:E; [|eauto].
  intros H. injection H as ->. now apply IH.
Qed.

(** A successful match ended in a successful call of the continuation, on
    captures that keep every group bound before and bind the groups the
    expression always binds. *)
Lemma exec_reaches r : forall s c k m,
  exec r s c k = Some m ->
  exists s1 c1, k s1 c1 = Some m /\
    forall n, group c n <> None \/ bound n r = true -> group c1 n <> None.
Proof.
  induction r as [|p|r1 IH1 r2 IH2|r1 IH1|p|n0 r1 IH1]; intros s c k m H.
  - exists s, c. split; [exact H|]. intros n [Hn|Hn]; [exact Hn|discriminate].
  - simpl in H. destruct s as [|a s]; [discriminate|].
    destruct (p a); [|discriminate].
    exists s, c. split; [exact H|]. intros n [Hn|Hn]; [exact Hn|discriminate].
  - rewrite exec_seq in H.
    apply IH1 in H as (s1 & c1 & H & P1).
    apply IH2 in H as (s2 & c2 & H & P2).
    exists s2, c2. split; [exact H|].
    intros n [Hn|Hn].
    + apply P2. left. apply P1. now left.
    + simpl in Hn. apply orb_prop in Hn as [Hn|Hn].
      * apply P2. left. apply P1. now right.
      * apply P2. now right.
  - rewrite exec_opt in H. destruct (exec r1 s c k) eqn:E.
    + injection H as ->. apply IH1 in E as (s1 & c1 & E & P1).
      exists s1, c1. split; [exact E|].
      intros n [Hn|Hn]; [|discriminate]. apply P1. now left.
    + exists s, c. split; [exact H|].
      intros n [Hn|Hn]; [exact Hn|discriminate].
  - simpl in H. apply star_reaches in H as (s1 & H).
    exists s1, c. split; [exact H|].
    intros n [Hn|Hn]; [exact Hn|discriminate].
  - rewrite exec_grp in H. apply IH1 in H as (s1 & c1 & H & P1).
    exists s1, ((n0, consumed s s1) :: c1). split; [exact H|].
    intros n Hn. simpl. destruct (Nat.eqb n0 n) eqn:En; [discriminate|].
    apply P1. destruct Hn as [Hn|Hn]; [now left|].
    simpl in Hn. rewrite En in Hn. now right.
Qed.

Lemma star_follows p k k' s c m :
  (forall s1 c1, k s1 c1 = Some m -> k' s1 c1 <> None) ->
  star p k s c = Some m -> star p k' s c <> None.
Proof.
  intros Hk. induction s as [|a s IH]; simpl; [apply Hk|].
  destruct (p a); [|apply Hk].
  destruct (star p k s c) eqn:E.
  - intros H. injection H as ->. specialize (IH eq_refl).
    destruct (star p k' s c); [discriminate|congruence].
  - intros H. destruct (star p k' s c); [discriminate|]. now apply Hk.
Qed.

(** If a second continuation accepts wherever the first one produced the
    match, the expression matches with the second one as well. *)
Lemma exec_follows r : forall s c k k' m,
  (forall s1 c1, k s1 c1 = Some m -> k' s1 c1 <> None) ->
  exec r s c k = Some m -> exec r s c k' <> None.
Proof.
  induction r as [|p|r1 IH1 r2 IH2|r1 IH1|p|n0 r1 IH1]; intros s c k k' m Hk H.
  - now apply Hk in H.
  - simpl in *. destruct s as [|a s]; [discriminate|].
    destruct (p a); [|discriminate]. now apply Hk.
  - rewrite exec_seq in *. revert H. apply IH1.
    intros s1 c1. now apply IH2.
  - rewrite exec_opt in *. destruct (exec r1 s c k) eqn:E.
    + injection H as ->. apply (IH1 _ _ _ k' _ Hk) in E.
      destruct (exec r1 s c k'); [discriminate|congruence].
    + destruct (exec r1 s c k'); [discriminate|]. now apply Hk.
  - simpl in *. revert H. now apply star_follows.
  - rewrite exec_grp in *. revert H. apply IH1.
    intros s1 c1. apply Hk.
Qed.

Lemma at_end_returns s c m : at_end s c = Some m -> m = c.
Proof. unfold at_end. destruct (is_empty s); congruence. Qed.

Lemma seq_follows r r1 r2 s c k m :
  (forall s1 c1, exec r1 s1 c1 k = Some m -> exec r2 s1 c1 k <> None) ->
  exec (r ;; r1) s c k = Some m -> exec (r ;; r2) s c k <> None.
Proof. intros H. rewrite !exec_seq. now apply exec_follows. Qed.

(** Two range patterns that differ in the suffix only: a match of the
    second that left group 3 unset did without its suffix, so the first
    pattern matches the same text. *)
Lemma range_without_suffix num suffix1 suffix2 val mc :
  bound 3 suffix2 = true ->
  fullmatch (range_of num suffix2) val = Some mc ->
  group mc 3 = None ->
  fullmatch (range_of num suffix1) val <> None.
Proof.
  intros Hb H H3. unfold fullmatch, range_of in *.
  revert H. do 5 (apply seq_follows; intros ? ?).
  apply seq_follows. intros s6 c6.
  rewrite !exec_seq, !exec_opt. intros H.
  destruct (exec suffix2 s6 c6 (fun s7 c7 => exec ws s7 c7 at_end)) eqn:E.
  - exfalso. injection H as ->.
    apply exec_reaches in E as (s7 & c7 & E & P).
    apply exec_reaches in E as (s8 & c8 & E & P').
    apply at_end_returns in E. subst c8.
    apply (P' 3%nat); [|exact H3]. left. apply P. now right.
  - destruct (exec suffix1 s6 c6 (fun s7 c7 => exec ws s7 c7 at_end));
      [discriminate|congruence].
Qed.

End ReMeta.

(** ** The float patterns on the bare form *)

Module ReFloatFacts.
Import PyStr Re Patterns Spec StrFacts ReFacts.
Local Open Scope string_scope.
Local Open Scope re_scope.

Lemma float_numeral_split x :
  float_numeral x ->
  exists d rest, x = d ++ rest /\ is_digits d = true /\
    (rest = "" \/ exists f, rest = String "." f /\ all_of is_digit f = true).
Proof.
  intros [H|(d & f & -> & Hd & Hf)].
  - exists x, "". rewrite append_nil_r. repeat split; auto.
  - exists d, (String "." f). repeat split; eauto.
Qed.

Lemma float_numeral_stops_space x rest :
  float_numeral x -> stops is_space (x ++ rest) = true.
Proof.
  intros H. apply float_numeral_split in H as (d & r & -> & Hd & _).
  rewrite append_assoc. now apply stops_digits_space.
Qed.

(** A float numeral in front of the input is matched whole, provided the
    optional fraction cannot take more of what follows. *)
Lemma exec_float_numeral x rest c k m :
  float_numeral x -> stops is_digit rest = true ->
  exec (Chr dot ;; Star is_digit) rest c k = None ->
  k rest c = Some m ->
  exec float_lit (x ++ rest) c k = Some m.
Proof.
  intros Hx Hrest Hfrac Hk.
  apply float_numeral_split in Hx as (d & r & -> & Hd & Hr).
  unfold float_lit. rewrite exec_seq, exec_opt.
  assert (Hskip : forall k', exec (Chr is_sign) ((d ++ r) ++ rest) c k' = None).
  { intros k'. pose proof Hd as Hd'.
    apply is_digits_cons in Hd' as (a & ds' & -> & Ha & _).
    simpl. now rewrite (digit_not_sign _ Ha). }
  rewrite Hskip, exec_seq, exec_ws_stops
    by (rewrite append_assoc; now apply stops_digits_space).
  rewrite exec_seq, append_assoc.
  destruct Hr as [->|(f & -> & Hf)].
  - apply exec_digits; [assumption|assumption|].
    cbn [append]. now rewrite exec_opt, Hfrac.
  - apply exec_digits; [assumption|reflexivity|].
    rewrite exec_opt, exec_seq. cbn [append exec].
    change (dot ".") with true. cbv iota.
    now rewrite (star_all is_digit k f rest c Hf Hrest Hk).
Qed.

Lemma dash_refused r s c k :
  no_dash_ahead s = true -> exec (ws ;; lit "-" ;; r) s c k = None.
Proof.
  intros H. destruct s as [|a s]; [reflexivity|].
  simpl in H. apply andb_prop in H as [Hs Hd].
  apply negb_true_iff in Hs, Hd.
  rewrite exec_seq, exec_ws_stops by (simpl; now rewrite Hs).
  rewrite exec_seq. simpl. now rewrite Hd.
Qed.

Lemma no_dash_after_digits ds rest :
  all_of is_digit ds = true -> no_dash_ahead rest = true ->
  no_dash_ahead (ds ++ rest) = true.
Proof.
  destruct ds as [|a ds]; cbn [append no_dash_ahead all_of]; [auto|].
  intros H _. apply andb_prop in H as [Ha _].
  now rewrite (digit_not_space _ Ha), (digit_not_dash _ Ha).
Qed.

Section Range.

Variable suffix : regex.
Hypothesis suffix_needs_input : forall c k, exec suffix "" c k = None.

(** The bare form START-END with float numerals. *)
Lemma range_of_float_bare x y :
  float_numeral x -> float_numeral y ->
  fullmatch (range_of float_lit suffix) (x ++ "-" ++ y)
  = Some [(2%nat, y); (1%nat, x)].
Proof.
  intros Hx Hy. rewrite <- (append_nil_r y) at 1.
  unfold fullmatch, range_of.
  rewrite exec_seq, exec_ws_stops by now apply float_numeral_stops_space.
  rewrite exec_seq, exec_grp.
  apply exec_float_numeral; [assumption|reflexivity| |].
  - (* the fraction of START cannot start at the dash *)
    rewrite exec_seq. cbn [append exec]. change (dot "-") with true. cbv iota.
    rewrite append_nil_r.
    pose proof Hy as Hy'.
    apply float_numeral_split in Hy' as (d & r & -> & Hd & Hr).
    apply star_refused; [now apply is_digits_all| |].
    + destruct Hr as [->|(f & -> & _)]; reflexivity.
    + intros ds' Hds'. apply dash_refused.
      apply no_dash_after_digits; [assumption|].
      destruct Hr as [->|(f & -> & _)]; reflexivity.
  - rewrite consumed_append.
    rewrite exec_seq, exec_ws_stops by reflexivity.
    rewrite exec_seq. change ("-" ++ y ++ "") with (String "-" (y ++ "")).
    rewrite exec_lit.
    rewrite exec_seq, exec_ws_stops by now apply float_numeral_stops_space.
    rewrite exec_seq, exec_grp.
    apply exec_float_numeral; [assumption|reflexivity|reflexivity|].
    rewrite consumed_append.
    rewrite exec_seq, exec_opt, suffix_needs_input. reflexivity.
Qed.

End Range.

Lemma re_range_float_bare x y :
  float_numeral x -> float_numeral y ->
  fullmatch re_range_float (x ++ "-" ++ y) = Some [(2%nat, y); (1%nat, x)].
Proof. intros. now apply range_of_float_bare. Qed.

Lemma re_range_count_float_bare x y :
  float_numeral x -> float_numeral y ->
  fullmatch re_range_count_float (x ++ "-" ++ y)
  = Some [(2%nat, y); (1%nat, x)].
Proof. intros. now apply range_of_float_bare. Qed.

End ReFloatFacts.

(** ** Conversions and [range] *)

Module PyFacts.
Import PyStr PyNum Spec StrFacts.
Local Open Scope string_scope.

(** A run of digits is read up to the first character that is neither a
    digit nor an underscore. *)
Lemma take_digits_run d rest acc n :
  all_of is_digit d = true ->
  stops (fun c => is_digit c || Ascii.eqb c "_") rest = true ->
  take_digits acc n (d ++ rest)
  = (decimal_from acc d, (n + String.length d)%nat, rest).
Proof.
  revert acc n. induction d as [|c d IH]; intros acc n Hd Hrest.
  - cbn [append decimal_from String.length]. rewrite Nat.add_0_r.
    destruct rest as [|a rest]; [reflexivity|].
    cbn [stops] in Hrest. apply negb_true_iff, orb_false_elim in Hrest as [H1 H2].
    cbn [take_digits]. now rewrite H1, H2.
  - cbn [all_of] in Hd. apply andb_prop in Hd as [Hc Hd].
    cbn [append take_digits decimal_from String.length]. rewrite Hc.
    rewrite IH by assumption. f_equal. f_equal. lia.
Qed.

Lemma take_digits_all d acc n :
  all_of is_digit d = true ->
  take_digits acc n d = (decimal_from acc d, (n + String.length d)%nat, "").
Proof.
  intros H. rewrite <- (append_nil_r d) at 1. now apply take_digits_run.
Qed.

Lemma split_sign_digit c s :
  is_digit c = true -> split_sign (String c s) = (false, String c s).
Proof.
  intros H. pose proof (digit_not_sign _ H) as Hs. unfold is_sign in Hs.
  apply orb_false_elim in Hs as [Hp Hm].
  cbn [split_sign]. now rewrite Hm, Hp.
Qed.

(** [int] reads a run of digits as the number it writes. *)
Lemma py_int_digits d : is_digits d = true -> py_int d = Ok (decimal d).
Proof.
  intros H. unfold py_int.
  rewrite strip_plain by now apply digits_plain, is_digits_all.
  pose proof H as H'. apply is_digits_cons in H' as (c & d' & -> & Hc & Hd).
  rewrite split_sign_digit by assumption.
  rewrite take_digits_all by now apply is_digits_all.
  reflexivity.
Qed.

Lemma py_int_plus d :
  is_digits d = true -> py_int ("+" ++ d) = Ok (decimal d).
Proof.
  intros H. unfold py_int.
  rewrite strip_plain
    by (cbn [append all_of]; now rewrite (digits_plain _ (is_digits_all _ H))).
  cbn [append split_sign]. change (Ascii.eqb "+" "-") with false.
  change (Ascii.eqb "+" "+") with true. cbv iota.
  rewrite take_digits_all by now apply is_digits_all.
  apply is_digits_cons in H as (c & d' & -> & _ & _). reflexivity.
Qed.

Lemma decimal_from_nonneg d acc :
  all_of is_digit d = true -> 0 <= acc -> 0 <= decimal_from acc d.
Proof.
  revert acc. induction d as [|c d IH]; intros acc Hd Hacc; [exact Hacc|].
  cbn [all_of] in Hd. apply andb_prop in Hd as [Hc Hd].
  cbn [decimal_from]. apply IH; [assumption|].
  assert (0 <= digit_val c).
  { unfold digit_val, is_digit in *.
    apply andb_prop in Hc as [Hlo _]. apply Nat.leb_le in Hlo. lia. }
  lia.
Qed.

Lemma range_len_bounds start end_ step :
  0 < step ->
  let n := range_len start (end_ + 1) step in
  0 <= n /\ (forall i, 0 <= i < n -> start + i * step <= end_) /\
  end_ < start + n * step.
Proof.
  intros Hstep. unfold range_len.
  destruct (0 <? step)%Z eqn:E; [|apply Z.ltb_ge in E; lia].
  destruct (start <? end_ + 1)%Z eqn:E1.
  - apply Z.ltb_lt in E1.
    replace (end_ + 1 - start - 1) with (end_ - start) by lia.
    pose proof (Z.div_pos (end_ - start) step ltac:(lia) Hstep) as Hq.
    pose proof (Z.mul_div_le (end_ - start) step Hstep) as Hle.
    pose proof (Z.mul_succ_div_gt (end_ - start) step Hstep) as Hgt.
    repeat split; [lia| |nia].
    intros i Hi. nia.
  - apply Z.ltb_ge in E1. repeat split; [lia| |lia]. intros i Hi. lia.
Qed.

Lemma py_range_upto start end_ step :
  0 < step ->
  exists xs, py_range start (end_ + 1) step = Ok xs /\
             progression_upto start step end_ xs.
Proof.
  intros Hstep. unfold py_range.
  destruct (step =? 0)%Z eqn:E; [apply Z.eqb_eq in E; lia|].
  eexists. split; [reflexivity|].
  pose proof (range_len_bounds start end_ Hstep) as (Hn & Hin & Hnext).
  set (n := range_len start (end_ + 1) step) in *.
  unfold progression_upto. rewrite length_map, length_seq.
  split; [reflexivity|]. split.
  - apply Forall_forall. intros x Hx.
    apply in_map_iff in Hx as (i & <- & Hi). apply in_seq in Hi.
    apply Hin. lia.
  - rewrite Z2Nat.id by assumption. exact Hnext.
Qed.

(** With step 1 the progression is every integer from [start] to [end_]. *)
Lemma progression_step_1 start end_ xs :
  progression_upto start 1 end_ xs ->
  forall x, In x xs <-> start <= x <= end_.
Proof.
  intros (Hxs & Hall & Hnext) x. split.
  - intros Hx. split; [|now apply (proj1 (Forall_forall _ _) Hall)].
    rewrite Hxs in Hx. apply in_map_iff in Hx as (i & <- & _). lia.
  - intros [Hlo Hhi]. rewrite Hxs. apply in_map_iff.
    exists (Z.to_nat (x - start)). split; [lia|].
    apply in_seq. lia.
Qed.

Lemma omap_convert_ints zs :
  omap (convert TInt) (map VInt zs) = Ok (map VInt zs).
Proof.
  induction zs as [|z zs IH]; [reflexivity|].
  cbn [map omap convert obind]. now rewrite IH.
Qed.

Lemma omap_convert_floats fs :
  omap (convert TFloat) (map VFloat fs) = Ok (map VFloat fs).
Proof.
  induction fs as [|f fs IH]; [reflexivity|].
  cbn [map omap convert obind]. now rewrite IH.
Qed.

End PyFacts.

(** ** [float] on plain numerals *)

Module FloatFacts.
Import PyStr PyNum Spec StrFacts PyFacts ReFloatFacts.
Local Open Scope string_scope.

Lemma digit_not_i c : is_digit c = true -> Ascii.eqb c "i" = false.
Proof. by_cases_on c. Qed.

Lemma digit_not_n c : is_digit c = true -> Ascii.eqb c "n" = false.
Proof. by_cases_on c. Qed.

Lemma float_numeral_plain x : float_numeral x -> all_of plain x = true.
Proof.
  intros [H|(d & f & -> & Hd & Hf)].
  - now apply digits_plain, is_digits_all.
  - rewrite all_of_append. cbn [append all_of].
    rewrite (digits_plain _ (is_digits_all _ Hd)), (digits_plain _ Hf).
    reflexivity.
Qed.

Lemma float_numeral_nonempty x : float_numeral x -> x <> "".
Proof.
  intros H. apply float_numeral_split in H as (d & r & -> & Hd & _).
  apply is_digits_cons in Hd as (c & d' & -> & _). discriminate.
Qed.

(** [float] accepts every plain numeral. *)
Lemma py_float_numeral x : float_numeral x -> exists v, py_float x = Ok v.
Proof.
  intros Hx. unfold py_float.
  rewrite strip_plain by now apply float_numeral_plain.
  apply float_numeral_split in Hx as (d & r & -> & Hd & Hr).
  pose proof Hd as Hd'. apply is_digits_cons in Hd' as (c & d' & Ed & Hc & Hd').
  assert (Hsign : split_sign (d ++ r) = (false, d ++ r)).
  { rewrite Ed. cbn [append]. now apply split_sign_digit. }
  rewrite Hsign.
  assert (Hword : forall w, String.eqb (lower (d ++ r)) (String "i" w) = false
                         /\ String.eqb (lower (d ++ r)) (String "n" w) = false).
  { intros w. rewrite Ed. cbn [append lower String.eqb].
    now rewrite (digit_lower _ Hc), (digit_not_i _ Hc), (digit_not_n _ Hc). }
  rewrite (proj1 (Hword _)), (proj1 (Hword _)), (proj2 (Hword _)).
  cbn [orb].
  assert (Hlen : exists n, String.length d = S n).
  { rewrite Ed. cbn [String.length]. eauto. }
  destruct Hlen as (n & Hlen).
  destruct Hr as [->|(f & -> & Hf)].
  - rewrite take_digits_run; [|now apply is_digits_all|reflexivity].
    rewrite Hlen. cbn. eauto.
  - rewrite take_digits_run; [|now apply is_digits_all|reflexivity].
    rewrite take_digits_all by assumption.
    rewrite Hlen. cbn. eauto.
Qed.

End FloatFacts.

(** ** Axis expansion *)

Section AxisFacts.

Import PyStr PyNum Re Patterns Spec StrFacts CsvFacts ReFacts ReMeta
  ReFloatFacts PyFacts FloatFacts.
Local Open Scope string_scope.

Variable Host : Type.
Variable api : host_api Host.
Variable p : Request.

Ltac each_option Hin :=
  unfold axis_options in Hin; cbn [In] in Hin;
  repeat (destruct Hin as [<-|Hin];
          [cbn in *; try discriminate; try (split; reflexivity)|]);
  try contradiction.

Lemma int_option_facts (opt : AxisOption Host) :
  In opt (axis_options api) -> opt_type opt = TInt ->
  String.eqb (opt_label opt) "Nothing" = false /\ opt_confirm opt = None.
Proof. intros Hin Ht. each_option Hin. Qed.

Lemma float_option_facts (opt : AxisOption Host) :
  In opt (axis_options api) -> opt_type opt = TFloat ->
  String.eqb (opt_label opt) "Nothing" = false /\ opt_confirm opt = None.
Proof. intros Hin Ht. each_option Hin. Qed.

(** A text that is one plain field goes to the expansion of its type as
    it stands. *)
Lemma process_axis_int_field (opt : AxisOption Host) s :
  In opt (axis_options api) -> opt_type opt = TInt ->
  all_of plain s = true -> s <> "" ->
  process_axis p opt s
  = (xs <-? expand_int s ; omap (convert TInt) xs).
Proof.
  intros Hin Ht Hs Hne.
  destruct (int_option_facts Hin Ht) as [Hl Hc].
  unfold process_axis, typed_values.
  rewrite Hl, Hc, Ht, fields_of_plain by assumption.
  cbn [obind map expand_fields]. rewrite strip_plain by assumption.
  destruct (expand_int s) as [xs|e]; cbn [obind]; [|reflexivity].
  rewrite app_nil_r. now destruct (omap (convert TInt) xs).
Qed.

Lemma process_axis_float_field (opt : AxisOption Host) s :
  In opt (axis_options api) -> opt_type opt = TFloat ->
  all_of plain s = true -> s <> "" ->
  process_axis p opt s
  = (xs <-? expand_float s ; omap (convert TFloat) xs).
Proof.
  intros Hin Ht Hs Hne.
  destruct (float_option_facts Hin Ht) as [Hl Hc].
  unfold process_axis, typed_values.
  rewrite Hl, Hc, Ht, fields_of_plain by assumption.
  cbn [obind map expand_fields]. rewrite strip_plain by assumption.
  destruct (expand_float s) as [xs|e]; cbn [obind]; [|reflexivity].
  rewrite app_nil_r. now destruct (omap (convert TFloat) xs).
Qed.

Lemma expand_int_bare a b :
  is_digits a = true -> is_digits b = true ->
  expand_int (a ++ "-" ++ b)
  = (r <-? py_range (decimal a) (decimal b + 1) 1 ; Ok (map VInt r)).
Proof.
  intros Ha Hb. unfold expand_int, group_int.
  rewrite re_range_bare by assumption. cbn [group Nat.eqb].
  rewrite !py_int_digits by assumption. reflexivity.
Qed.

Lemma expand_int_step a b st :
  is_digits a = true -> is_digits b = true -> is_digits st = true ->
  expand_int (a ++ "-" ++ b ++ "(+" ++ st ++ ")")
  = (r <-? py_range (decimal a) (decimal b + 1) (decimal st) ;
     Ok (map VInt r)).
Proof.
  intros Ha Hb Hst. unfold expand_int, group_int.
  rewrite re_range_step by assumption. cbn [group Nat.eqb].
  rewrite !py_int_digits, py_int_plus by assumption. reflexivity.
Qed.

Lemma range_text_plain a b tail :
  is_digits a = true -> is_digits b = true -> all_of plain tail = true ->
  all_of plain (a ++ "-" ++ b ++ tail) = true /\ a ++ "-" ++ b ++ tail <> "".
Proof.
  intros Ha Hb Ht. split.
  - rewrite all_of_append. cbn [append all_of]. rewrite all_of_append.
    rewrite (digits_plain _ (is_digits_all _ Ha)),
      (digits_plain _ (is_digits_all _ Hb)), Ht. reflexivity.
  - apply is_digits_cons in Ha as (c & a' & -> & _). discriminate.
Qed.

Lemma expand_float_bare x y :
  float_numeral x -> float_numeral y ->
  exists start end_,
    py_float x = Ok start /\ py_float y = Ok end_ /\
    expand_float (x ++ "-" ++ y)
    = (r <-? np_arange start (end_ + 1)%float 1%float ; Ok (map VFloat r)).
Proof.
  intros Hx Hy.
  destruct (py_float_numeral Hx) as (start & Hstart).
  destruct (py_float_numeral Hy) as (end_ & Hend).
  exists start, end_. split; [assumption|]. split; [assumption|].
  unfold expand_float, group_float.
  rewrite re_range_float_bare by assumption. cbn [group Nat.eqb].
  rewrite Hstart, Hend. reflexivity.
Qed.

Lemma process_axis_int_range (opt : AxisOption Host) s start end_ step :
  In opt (axis_options api) -> opt_type opt = TInt ->
  all_of plain s = true -> s <> "" -> 0 < step ->
  expand_int s = (r <-? py_range start (end_ + 1) step ; Ok (map VInt r)) ->
  exists xs, process_axis p opt s = Ok (map VInt xs) /\
             progression_upto start step end_ xs.
Proof.
  intros Hin Ht Hs Hne Hstep He.
  destruct (py_range_upto start end_ Hstep) as (xs & Hr & Hxs).
  exists xs. split; [|assumption].
  rewrite process_axis_int_field, He, Hr by assumption.
  cbn [obind]. apply omap_convert_ints.
Qed.

(** C2 (amended). For an int-typed axis the field "1-5" expands to
    1, 2, 3, 4, 5 and the field "1-5(+2)" to 1, 3, 5. In general a field
    START-END(+STEP), the step written with its sign and positive, expands
    to the terms START + i * STEP that do not exceed END, in order, and a
    field START-END to the same with step 1. *)
Theorem step_range_expansion (opt : AxisOption Host) (a b st : string) :
  In opt (axis_options api) -> opt_type opt = TInt ->
  is_digits a = true -> is_digits b = true ->
  is_digits st = true -> 0 < decimal st ->
  process_axis p opt "1-5" = Ok (map VInt [1; 2; 3; 4; 5]) /\
  process_axis p opt "1-5(+2)" = Ok (map VInt [1; 3; 5]) /\
  (exists xs,
      process_axis p opt (a ++ "-" ++ b) = Ok (map VInt xs) /\
      progression_upto (decimal a) 1 (decimal b) xs) /\
  (exists xs,
      process_axis p opt (a ++ "-" ++ b ++ "(+" ++ st ++ ")")
      = Ok (map VInt xs) /\
      progression_upto (decimal a) (decimal st) (decimal b) xs).
Proof.
  intros Hin Ht Ha Hb Hst Hpos. split; [|split; [|split]].
  - rewrite process_axis_int_field by first [assumption | reflexivity | discriminate].
    reflexivity.
  - rewrite process_axis_int_field by first [assumption | reflexivity | discriminate].
    reflexivity.
  - destruct (range_text_plain a b "" Ha Hb eq_refl) as [Hp Hn].
    rewrite append_nil_r in Hp, Hn.
    apply process_axis_int_range; try assumption; [lia|].
    now apply expand_int_bare.
  - assert (Htail : all_of plain ("(+" ++ st ++ ")") = true).
    { cbn [append all_of]. rewrite all_of_append.
      now rewrite (digits_plain _ (is_digits_all _ Hst)). }
    destruct (range_text_plain a b _ Ha Hb Htail) as [Hp Hn].
    apply process_axis_int_range; try assumption.
    now apply expand_int_step.
Qed.

(** C3 (amended). For a float-typed axis the field "0-1(+0.5)", the step
    written with its sign, expands to 0.0, 0.5, 1.0: the end point is
    included because the bound handed to [numpy.arange] is END + STEP
    (with END itself as the bound the expansion stops at 0.5). *)
Theorem float_step_range_signed (opt : AxisOption Host)
  (val : string) (m : caps) (start end_ step : float) :
  In opt (axis_options api) -> opt_type opt = TFloat ->
  fullmatch re_range_float val = Some m ->
  group_float m 1 = Ok start -> group_float m 2 = Ok end_ ->
  group m 3 <> None -> group_float m 3 = Ok step ->
  process_axis p opt "0-1(+0.5)"
  = Ok [VFloat 0%float; VFloat 0.5%float; VFloat 1%float] /\
  np_arange 0%float 1%float 0.5%float = Ok [0%float; 0.5%float] /\
  expand_float val
  = (r <-? np_arange start (end_ + step)%float step ; Ok (map VFloat r)).
Proof.
  intros Hin Ht Hm H1 H2 H3 H3'. split; [|split].
  - rewrite process_axis_float_field by first [assumption | reflexivity | discriminate].
    vm_compute. reflexivity.
  - vm_compute. reflexivity.
  - unfold expand_float. rewrite Hm, H1, H2.
    destruct (group m 3); [|congruence]. now rewrite H3'.
Qed.

(** A field START-END of unsigned numerals matches the step grammar and
    the count grammar alike, for int numerals and for float numerals; it
    is expanded by the step grammar with step 1: for an int axis to every
    integer from START to END, for a float axis to
    [numpy.arange(START, END + 1, 1)], as "1-3" to 1.0, 2.0, 3.0. And the
    count grammar is reached only by a field with a bracketed count:
    whenever it is applied, its third group is present. *)
Lemma bare_unsigned_range
  (opt_i opt_f : AxisOption Host) (a b x y : string) :
  In opt_i (axis_options api) -> opt_type opt_i = TInt ->
  In opt_f (axis_options api) -> opt_type opt_f = TFloat ->
  is_digits a = true -> is_digits b = true ->
  float_numeral x -> float_numeral y ->
  (fullmatch re_range (a ++ "-" ++ b) <> None /\
   fullmatch re_range_count (a ++ "-" ++ b) <> None /\
   fullmatch re_range_float (x ++ "-" ++ y) <> None /\
   fullmatch re_range_count_float (x ++ "-" ++ y) <> None) /\
  (exists xs,
      process_axis p opt_i (a ++ "-" ++ b) = Ok (map VInt xs) /\
      progression_upto (decimal a) 1 (decimal b) xs /\
      (forall z, In z xs <-> decimal a <= z <= decimal b) /\
      (decimal a < decimal b -> (2 <= List.length xs)%nat)) /\
  (exists start end_,
      py_float x = Ok start /\ py_float y = Ok end_ /\
      process_axis p opt_f (x ++ "-" ++ y)
      = (r <-? np_arange start (end_ + 1)%float 1%float ;
         Ok (map VFloat r))) /\
  process_axis p opt_f "1-3"
  = Ok [VFloat 1%float; VFloat 2%float; VFloat 3%float] /\
  (forall val mc,
      fullmatch re_range val = None ->
      fullmatch re_range_count val = Some mc -> group mc 3 <> None) /\
  (forall val mc,
      fullmatch re_range_float val = None ->
      fullmatch re_range_count_float val = Some mc -> group mc 3 <> None).
Proof.
  intros Hi Hti Hf Htf Ha Hb Hx Hy.
  split; [|split; [|split; [|split; [|split]]]].
  - rewrite re_range_bare, re_range_count_bare, re_range_float_bare,
      re_range_count_float_bare by assumption.
    repeat split; discriminate.
  - destruct (range_text_plain a b "" Ha Hb eq_refl) as [Hp Hn].
    rewrite append_nil_r in Hp, Hn.
    destruct (@process_axis_int_range opt_i _ (decimal a) (decimal b) 1
                Hi Hti Hp Hn Z.lt_0_1 (@expand_int_bare a b Ha Hb))
      as (xs & Hxs & Hprog).
    exists xs. split; [assumption|]. split; [assumption|]. split.
    + now apply progression_step_1.
    + intros Hlt. destruct Hprog as (_ & _ & Hnext). lia.
  - destruct (expand_float_bare Hx Hy) as (start & end_ & Hs & He & Hexp).
    exists start, end_. split; [assumption|]. split; [assumption|].
    rewrite process_axis_float_field; try assumption.
    + rewrite Hexp.
      destruct (np_arange start (end_ + 1)%float 1%float) as [r|e];
        cbn [obind]; [apply omap_convert_floats|reflexivity].
    + rewrite all_of_append. cbn [append all_of].
      now rewrite (float_numeral_plain Hx), (float_numeral_plain Hy).
    + intros E. apply (float_numeral_nonempty Hx).
      destruct x; [reflexivity|discriminate].
  - rewrite process_axis_float_field by first [assumption | reflexivity | discriminate].
    vm_compute. reflexivity.
  - intros val mc Hnone Hmc H3.
    revert Hnone.
    exact (@range_without_suffix int_lit step_suffix count_suffix
             val mc eq_refl Hmc H3).
  - intros val mc Hnone Hmc H3.
    revert Hnone.
    exact (@range_without_suffix float_lit step_suffix_float
             count_suffix_float val mc eq_refl Hmc H3).
Qed.

End AxisFacts.

(** ** Seeds *)

Section SeedFacts.

Import Spec.

Variable Host : Type.
Variable api : host_api Host.

Lemma fix_values_draws (xs : list value) :
  forall s h r sv,
    fix_values api xs (mk_World s h r sv)
    = (Ok (fixed_with (fst (draws api (count_unfixed xs) h)) xs),
       mk_World s (snd (draws api (count_unfixed xs) h)) r sv).
Proof.
  induction xs as [|x xs IH]; intros s h r sv; [reflexivity|].
  cbn [fix_values]. unfold bind at 1. unfold count_unfixed. cbn [filter fixed_with].
  destruct (unfixed x) eqn:Ex.
  - cbn [List.length draws]. unfold bind at 1, randrange at 1.
    cbn [host shared rendered saved].
    destruct (rng_next api h) as [d h1]. unfold ret at 1.
    unfold bind at 1. fold (count_unfixed xs). rewrite IH.
    destruct (draws api (count_unfixed xs) h1) as [ds h2].
    reflexivity.
  - unfold ret at 1. unfold bind at 1. fold (count_unfixed xs). rewrite IH.
    reflexivity.
Qed.

Lemma fixed_with_length ds xs :
  List.length (fixed_with ds xs) = List.length xs.
Proof.
  revert ds. induction xs as [|x xs IH]; intros ds; [reflexivity|].
  cbn [fixed_with]. destruct (unfixed x); [destruct ds|]; cbn [List.length];
    now rewrite IH.
Qed.

Lemma fixed_with_kept ds xs i x :
  nth_error xs i = Some x -> unfixed x = false ->
  nth_error (fixed_with ds xs) i = Some x.
Proof.
  revert ds i. induction xs as [|y xs IH]; intros ds i Hi Hx.
  - destruct i; discriminate.
  - destruct i as [|i]; cbn [nth_error] in Hi.
    + injection Hi as ->. cbn [fixed_with]. now rewrite Hx.
    + cbn [fixed_with]. destruct (unfixed y); [destruct ds|];
        cbn [nth_error]; now apply IH.
Qed.

Lemma fixed_with_drawn ds xs i x d :
  nth_error xs i = Some x -> unfixed x = true ->
  nth_error ds (count_unfixed (firstn i xs)) = Some d ->
  nth_error (fixed_with ds xs) i = Some (VInt (d mod 4294967294)).
Proof.
  revert ds i. induction xs as [|y xs IH]; intros ds i Hi Hx Hd.
  - destruct i; discriminate.
  - destruct i as [|i]; cbn [nth_error] in Hi.
    + injection Hi as ->. cbn [fixed_with]. rewrite Hx.
      cbn in Hd. destruct ds as [|d0 ds]; [discriminate|].
      cbn in Hd. now injection Hd as ->.
    + cbn [fixed_with]. unfold count_unfixed in Hd. cbn [firstn filter] in Hd.
      destruct (unfixed y).
      * cbn [List.length] in Hd. destruct ds as [|d0 ds]; [discriminate|].
        cbn [nth_error] in Hd |- *. now apply IH.
      * cbn [nth_error]. now apply IH.
Qed.

Lemma unfixed_sentinel (x : value) : unfixed x = sentinel x.
Proof.
  destruct x as [|b|[|q|[q|q|]]|f|[|c s]|t|]; reflexivity.
Qed.

Lemma count_unfixed_sentinel (xs : list value) :
  count_unfixed xs = List.length (filter sentinel xs).
Proof.
  unfold count_unfixed.
  now rewrite (filter_ext unfixed sentinel unfixed_sentinel).
Qed.

Lemma draws_length : forall n (h0 : Host),
  List.length (fst (draws api n h0)) = n.
Proof.
  induction n as [|n IH]; intros h0; [reflexivity|].
  cbn [draws]. destruct (rng_next api h0) as [d h1].
  specialize (IH h1). destruct (draws api n h1). cbn in *. now rewrite IH.
Qed.

Lemma seed_label (axis_opt : AxisOption Host) :
  is_seed_axis axis_opt = true <->
  opt_label axis_opt = "Seed" \/ opt_label axis_opt = "Var. seed".
Proof.
  unfold is_seed_axis. rewrite orb_true_iff, !String.eqb_eq. reflexivity.
Qed.

(** A sentinel within the list has a draw of its own. *)
Lemma sentinel_has_draw (xs : list value) : forall i x,
  nth_error xs i = Some x -> sentinel x = true ->
  (List.length (filter sentinel (firstn i xs))
   < List.length (filter sentinel xs))%nat.
Proof.
  induction xs as [|y ys IH]; intros i x Hi Hx.
  - destruct i; discriminate.
  - destruct i as [|i]; cbn [nth_error] in Hi.
    + injection Hi as ->. cbn [firstn filter List.length]. rewrite Hx.
      cbn [List.length]. lia.
    + cbn [firstn filter]. specialize (IH i x Hi Hx).
      destruct (sentinel y); cbn [List.length]; lia.
Qed.

(** C9. Unless the caller keeps unfixed seeds, [fix_axis_seeds] replaces
    every value of an axis labelled "Seed" or "Var. seed" that is [None],
    the empty string or -1 by a drawn integer of [0, 2^32 - 2), one draw
    of its own for each such value, taken in order; the other values of
    the axis, and all values of an axis with any other label, are handed
    on unchanged. When the caller keeps unfixed seeds nothing is
    replaced. *)
Theorem fix_axis_seeds_spec (axis_opt : AxisOption Host)
  (axis_list : list value) (s : Shared) (h : Host)
  (r : list Request) (sv : list image) :
  let w := mk_World s h r sv in
  let k := List.length (filter sentinel axis_list) in
  let ds := fst (draws api k h) in
  let h' := snd (draws api k h) in
  fix_unless_kept api true axis_opt axis_list w = (Ok axis_list, w) /\
  (opt_label axis_opt <> "Seed" -> opt_label axis_opt <> "Var. seed" ->
   fix_unless_kept api false axis_opt axis_list w = (Ok axis_list, w)) /\
  (opt_label axis_opt = "Seed" \/ opt_label axis_opt = "Var. seed" ->
   exists fixed,
     fix_unless_kept api false axis_opt axis_list w
     = (Ok fixed, mk_World s h' r sv) /\
     List.length fixed = List.length axis_list /\
     List.length ds = k /\
     forall i x, nth_error axis_list i = Some x ->
       (x = VNone \/ x = VStr "" \/ x = VInt (-1) \/
        (exists f, x = VFloat f /\ (f =? -1)%float = true) ->
        exists d,
          nth_error ds (List.length (filter sentinel (firstn i axis_list)))
          = Some d /\
          nth_error fixed i = Some (VInt (d mod 4294967294)) /\
          0 <= d mod 4294967294 < 2 ^ 32 - 2) /\
       (x <> VNone -> x <> VStr "" -> x <> VInt (-1) ->
        (forall f, x = VFloat f -> (f =? -1)%float = false) ->
        nth_error fixed i = Some x)).
Proof.
  intros w k ds h'. split; [reflexivity|]. split.
  - intros H1 H2. unfold fix_unless_kept, fix_axis_seeds.
    destruct (is_seed_axis axis_opt) eqn:E; [|reflexivity].
    apply seed_label in E as [E|E]; contradiction.
  - intros Hl. apply seed_label in Hl.
    exists (fixed_with ds axis_list).
    split; [|split; [apply fixed_with_length|split; [apply draws_length|]]].
    + unfold fix_unless_kept, fix_axis_seeds. rewrite Hl.
      subst ds h' k. rewrite <- count_unfixed_sentinel.
      apply fix_values_draws.
    + intros i x Hi. split.
      * intros Hx.
        assert (Hs : sentinel x = true).
        { destruct Hx as [->|[->|[->|(f & -> & Hf)]]];
            [reflexivity..|exact Hf]. }
        pose proof (sentinel_has_draw axis_list i Hi Hs) as Hlt.
        destruct (nth_error ds
                    (List.length (filter sentinel (firstn i axis_list))))
          as [d|] eqn:Ed.
        -- exists d. split; [reflexivity|]. split.
           ++ apply fixed_with_drawn with (x := x);
                [assumption|now rewrite unfixed_sentinel|].
              now rewrite count_unfixed_sentinel.
           ++ change (2 ^ 32 - 2) with 4294967294.
              apply Z.mod_pos_bound. lia.
        -- exfalso. apply nth_error_None in Ed. subst ds.
           rewrite draws_length in Ed. subst k. lia.
      * intros H1 H2 H3 H4. apply fixed_with_kept; [assumption|].
        rewrite unfixed_sentinel.
        destruct x as [|b|[|q|[q|q|]]|f|[|c t]|t|]; try reflexivity.
        -- now contradiction H1.
        -- now contradiction H3.
        -- now apply H4.
        -- now contradiction H2.
Qed.

End SeedFacts.

(** ** The combination driver *)

Section DriverFacts.

Import Spec.

Variable Host : Type.
Variable cell : cell_fn Host.
Variables cols rows pages : list value.
Variables col_texts row_texts page_texts : list label.
Variables draw_legend include_lone_images : bool.

Let N : nat := (List.length rows * List.length cols)%nat.

(** A page image is full when it holds rows x cols cells. *)
Let full (im : image) : Prop := cells_of im = N.

(** What holds of the result object while page [ipg] is filled: the
    pages composed so far are its first [ipg] images, each of them full. *)
Let pages_so_far (ipg : nat) (l : Locals) : Prop :=
  match processed_result l with
  | Some t =>
      (ipg <= List.length (images t))%nat /\
      Forall full (firstn ipg (images t))
  | None => ipg = O
  end.

Lemma bind_unfold {A B} (m : M Host A) (f : A -> M Host B) w :
  bind m f w
  = match m w with
    | (Ok a, w') => f a w'
    | (Raise e, w') => (Raise e, w')
    end.
Proof. reflexivity. Qed.

Lemma try_take_cache processed l :
  cache_images (fst (try_take include_lone_images processed l))
  = cache_images l.
Proof.
  unfold try_take. destruct (images processed); [reflexivity|].
  destruct include_lone_images; [|reflexivity].
  destruct (processed_result l); [destruct (infotexts processed)|];
    reflexivity.
Qed.

Lemma firstn_app_le {A} (n : nat) (xs ys : list A) :
  (n <= List.length xs)%nat -> firstn n (xs ++ ys) = firstn n xs.
Proof.
  intros H. rewrite firstn_app.
  replace (n - List.length xs)%nat with O by lia.
  cbn [firstn]. apply app_nil_r.
Qed.

Lemma try_take_pages ipg processed l :
  pages_so_far ipg l ->
  pages_so_far ipg (fst (try_take include_lone_images processed l)).
Proof.
  unfold pages_so_far, try_take. intros H.
  destruct (images processed) as [|im ims]; [exact H|].
  destruct (processed_result l) as [t|].
  - destruct H as [Hle Hall].
    destruct include_lone_images; [|cbn; auto].
    destruct (infotexts processed); cbn [fst processed_result images];
      rewrite length_app, firstn_app_le by assumption;
      (split; [lia|assumption]).
  - subst ipg.
    destruct include_lone_images; cbn; (split; [lia|constructor]).
Qed.

Lemma cell_step_inv ipg ir ic pg r c l w l1 w1 :
  cell_step cell cols rows pages include_lone_images ipg ir ic pg r c l w
  = (Ok l1, w1) ->
  pages_so_far ipg l ->
  pages_so_far ipg l1 /\
  List.length (cache_images l1) = S (List.length (cache_images l)).
Proof.
  unfold cell_step. rewrite !bind_unfold.
  unfold report_job, modify_shared. cbv beta iota. rewrite bind_unfold.
  destruct (cell c r pg _) as [[processed|e] w2]; [|discriminate].
  pose proof (try_take_cache processed l) as Hc.
  pose proof (@try_take_pages ipg processed l) as Hp.
  destruct (try_take include_lone_images processed l) as [l' im].
  unfold ret. intros H. injection H as <- <-. intros Hinv.
  cbn [fst] in *. split.
  - specialize (Hp Hinv). unfold pages_so_far in *. exact Hp.
  - cbn [cache_images]. rewrite length_app, Hc. cbn. lia.
Qed.

Lemma loop_cols_inv ipg ir pg r : forall cols' ic l w l1 w1,
  loop_cols cell cols rows pages include_lone_images ipg ir pg r ic cols' l w
  = (Ok l1, w1) ->
  pages_so_far ipg l ->
  pages_so_far ipg l1 /\
  (List.length (cache_images l1)
   <= List.length (cache_images l) + List.length cols')%nat /\
  (interrupted (shared w1) = false ->
   List.length (cache_images l1)
   = (List.length (cache_images l) + List.length cols')%nat).
Proof.
  induction cols' as [|c cols' IH]; intros ic l w l1 w1 H Hinv.
  - cbn in H. injection H as <- <-. cbn [List.length].
    repeat split; [assumption|lia|lia].
  - cbn [loop_cols] in H. rewrite bind_unfold in H.
    destruct (cell_step cell cols rows pages include_lone_images
                ipg ir ic pg r c l w) as [[l2|e] w2] eqn:E; [|discriminate].
    apply cell_step_inv in E as [Hinv2 Hlen]; [|assumption].
    rewrite bind_unfold in H. unfold get_shared at 1 in H.
    destruct (interrupted (shared w2)) eqn:Ei.
    + injection H as <- <-. cbn [List.length].
      repeat split; [assumption|lia|congruence].
    + apply IH in H as (H1 & H2 & H3); [|assumption].
      cbn [List.length]. repeat split; [assumption|lia|].
      intros Hn. specialize (H3 Hn). lia.
Qed.

Lemma loop_rows_inv ipg pg : forall rows' ir l w l1 w1,
  loop_rows cell cols rows pages include_lone_images ipg pg ir rows' l w
  = (Ok l1, w1) ->
  pages_so_far ipg l ->
  (List.length (cache_images l) + List.length rows' * List.length cols = N)%nat ->
  pages_so_far ipg l1 /\ List.length (cache_images l1) = N.
Proof.
  induction rows' as [|r rows' IH]; intros ir l w l1 w1 H Hinv Hlen.
  - cbn in H. injection H as <- <-. cbn in Hlen. split; [assumption|lia].
  - cbn [loop_rows] in H. rewrite bind_unfold in H.
    destruct (loop_cols cell cols rows pages include_lone_images
                ipg ir pg r 0 cols l w) as [[l2|e] w2] eqn:E; [|discriminate].
    apply loop_cols_inv in E as (Hinv2 & Hle & Heq); [|assumption].
    rewrite bind_unfold in H. unfold get_shared at 1 in H.
    cbn [List.length] in Hlen. rewrite Nat.mul_succ_l in Hlen.
    destruct (interrupted (shared w2)) eqn:Ei.
    + injection H as <- <-. split; [exact Hinv2|].
      unfold pad. cbn [cache_images]. rewrite length_app, repeat_length.
      unfold ncols, nrows. subst N.
      rewrite (Nat.mul_comm (List.length cols) (List.length rows)). lia.
    + specialize (Heq eq_refl).
      apply IH in H; [assumption|assumption|]. lia.
Qed.

Lemma firstn_insert {A} (n : nat) (x : A) (xs : list A) :
  (n <= List.length xs)%nat ->
  firstn (S n) (py_insert n x xs) = firstn n xs ++ [x].
Proof.
  intros H. unfold py_insert.
  rewrite firstn_app, length_firstn, Nat.min_l by assumption.
  assert (E : (S n - n = 1)%nat) by (clear; lia). rewrite E.
  rewrite firstn_firstn, Nat.min_r by (clear; lia). reflexivity.
Qed.

Lemma page_grid_full ipg l (grid : image) :
  page_grid rows pages col_texts row_texts page_texts draw_legend ipg l
  = Ok grid ->
  cells_of grid = List.length (cache_images l).
Proof.
  unfold page_grid.
  destruct draw_legend; [destruct (1 <? npages pages)%nat|];
    [destruct (nth_error page_texts ipg); [|discriminate]| |];
    intros H; injection H as <-; reflexivity.
Qed.

Lemma compose_page_inv ipg l (w : World Host) l1 (w1 : World Host) :
  compose_page rows pages col_texts row_texts page_texts draw_legend ipg l w
  = (Ok l1, w1) ->
  pages_so_far ipg l -> List.length (cache_images l) = N ->
  pages_so_far (S ipg) l1 /\ cache_images l1 = [] /\
  processed_result l1 <> None /\ w1 = w.
Proof.
  unfold compose_page, pages_so_far. rewrite bind_unfold. unfold lift.
  intros H Hinv Hlen.
  destruct (page_grid rows pages col_texts row_texts page_texts draw_legend
              ipg l) as [grid|e] eqn:Eg; [|discriminate].
  apply page_grid_full in Eg.
  destruct (processed_result l) as [t|]; [|discriminate].
  unfold ret in H. injection H as <- <-. destruct Hinv as [Hle Hall].
  cbn [processed_result images cache_images].
  repeat split; try discriminate.
  - unfold py_insert. rewrite length_app, length_firstn. cbn [List.length].
    rewrite length_skipn. lia.
  - rewrite firstn_insert by assumption. apply Forall_app. split; [assumption|].
    constructor; [|constructor]. unfold full. now rewrite Eg.
Qed.

Lemma loop_pages_inv : forall pages' ipg l w l1 n w1,
  loop_pages cell cols rows pages col_texts row_texts page_texts
    draw_legend include_lone_images ipg pages' l w
  = (Ok (l1, n), w1) ->
  pages_so_far ipg l -> cache_images l = [] ->
  pages_so_far n l1 /\ (n <= ipg + List.length pages')%nat /\
  (interrupted (shared w1) = false -> n = (ipg + List.length pages')%nat).
Proof.
  induction pages' as [|pg pages' IH]; intros ipg l w l1 n w1 H Hinv Hc.
  - cbn in H. injection H as <- <- <-. cbn. repeat split; [assumption|lia|lia].
  - cbn [loop_pages] in H. rewrite bind_unfold in H.
    destruct (loop_rows cell cols rows pages include_lone_images
                ipg pg 0 rows l w) as [[l2|e] w2] eqn:E; [|discriminate].
    apply loop_rows_inv in E as (Hinv2 & Hlen);
      [|assumption|rewrite Hc; subst N; cbn; lia].
    rewrite bind_unfold in H.
    destruct (compose_page rows pages col_texts row_texts page_texts
                draw_legend ipg l2 w2) as [[l3|e] w3] eqn:E3; [|discriminate].
    apply compose_page_inv in E3 as (Hinv3 & Hc3 & _ & ->); try assumption.
    rewrite bind_unfold in H. unfold get_shared at 1 in H.
    cbn [List.length].
    destruct (interrupted (shared w2)) eqn:Ei.
    + injection H as <- <- <-. repeat split; [assumption|lia|congruence].
    + apply IH in H as (H1 & H2 & H3); try assumption.
      repeat split; [assumption|lia|]. intros Hn. specialize (H3 Hn). lia.
Qed.

Lemma sum_of_full (ims : list image) :
  Forall full ims ->
  fold_right (fun im n => (cells_of im + n)%nat) O ims
  = (List.length ims * N)%nat.
Proof.
  induction 1 as [|im ims Him _ IH]; [reflexivity|].
  cbn [fold_right List.length]. rewrite IH, Him. lia.
Qed.

(** The page loop enters every page it is given until it leaves: over a
    list that is not empty the count it returns is past the index it
    started at. *)
Lemma loop_pages_entered : forall pages' ipg l w l1 n w1,
  loop_pages cell cols rows pages col_texts row_texts page_texts
    draw_legend include_lone_images ipg pages' l w
  = (Ok (l1, n), w1) ->
  pages' <> [] -> (ipg < n)%nat.
Proof.
  induction pages' as [|pg pages' IH]; intros ipg l w l1 n w1 H Hne;
    [congruence|].
  cbn [loop_pages] in H. rewrite bind_unfold in H.
  destruct (loop_rows cell cols rows pages include_lone_images
              ipg pg 0 rows l w) as [[l2|e] w2]; [|discriminate].
  rewrite bind_unfold in H.
  destruct (compose_page rows pages col_texts row_texts page_texts
              draw_legend ipg l2 w2) as [[l3|e] w3]; [|discriminate].
  rewrite bind_unfold in H. unfold get_shared at 1 in H.
  destruct (interrupted (shared w3)).
  - injection H as <- <- <-. lia.
  - destruct pages' as [|pg' pages''].
    + cbn in H. injection H as <- <- <-. lia.
    + apply IH in H; [lia|discriminate].
Qed.

(** An interrupt seen at the end of a page ends the page loop: when the
    loop over the pages [first] returns with the interrupt flag set, the
    loop over [first] and any further pages returns the same locals and
    count in the same world. *)
Lemma loop_pages_interrupted : forall first rest ipg l w r w1,
  loop_pages cell cols rows pages col_texts row_texts page_texts
    draw_legend include_lone_images ipg first l w
  = (Ok r, w1) ->
  first <> [] -> interrupted (shared w1) = true ->
  loop_pages cell cols rows pages col_texts row_texts page_texts
    draw_legend include_lone_images ipg (first ++ rest) l w
  = (Ok r, w1).
Proof.
  induction first as [|pg first IH]; intros rest ipg l w r w1 H Hne Hi;
    [congruence|].
  cbn [app loop_pages] in H |- *. rewrite bind_unfold in H |- *.
  destruct (loop_rows cell cols rows pages include_lone_images
              ipg pg 0 rows l w) as [[l2|e] w2]; [|discriminate].
  rewrite bind_unfold in H |- *.
  destruct (compose_page rows pages col_texts row_texts page_texts
              draw_legend ipg l2 w2) as [[l3|e] w3]; [|discriminate].
  rewrite bind_unfold in H |- *. unfold get_shared at 1 in H.
  unfold get_shared at 1.
  destruct (interrupted (shared w3)) eqn:E3; [exact H|].
  destruct first as [|pg' first'].
  - cbn in H. injection H as <- <-. congruence.
  - apply IH; [exact H|discriminate|exact Hi].
Qed.

(** C5 (amended). Every page the sweep composes holds rows x cols cells,
    renders and blank placeholders together, so the cells of a sweep that
    returns number page_count x rows x cols, page_count being the number
    of pages composed. No more pages are composed than the page axis has,
    and all of them when no interrupt is seen at the end. An interrupt
    seen at the end of a page ends the sweep there: when the page loop
    over the pages up to that one leaves with the interrupt flag set, the
    sweep over the whole page axis ends in that very world, no later page
    rendered, with the result object and the page count of that loop. *)
Theorem cells_per_composed_page (p : Request)
  (w w' : World Host) (res : Processed * nat) :
  draw_crp_pages cell cols rows pages col_texts row_texts page_texts
    draw_legend include_lone_images p w = (Ok res, w') ->
  total_cells res
  = (snd res * (List.length rows * List.length cols))%nat /\
  (snd res <= List.length pages)%nat /\
  (interrupted (shared w') = false -> snd res = List.length pages) /\
  (forall (first rest : list value) (r : Locals * nat) (w1 : World Host),
      pages = first ++ rest -> first <> [] ->
      loop_pages cell cols rows pages col_texts row_texts page_texts
        draw_legend include_lone_images 0 first initial_locals
        (snd (modify_shared
                (set_job_count
                   (Z.of_nat (ncols cols * nrows rows * npages pages)
                    * int_attr p "n_iter")) w))
      = (Ok r, w1) ->
      interrupted (shared w1) = true ->
      w' = w1 /\ processed_result (fst r) = Some (fst res) /\
      snd res = snd r /\ (snd res <= List.length first)%nat).
Proof.
  unfold draw_crp_pages. rewrite !bind_unfold.
  unfold modify_shared at 1. cbv beta iota. rewrite bind_unfold. intros H.
  destruct (loop_pages cell cols rows pages col_texts row_texts page_texts
              draw_legend include_lone_images 0 pages initial_locals _)
    as [[[l n]|e] w1] eqn:E; [|discriminate].
  pose proof E as E0.
  apply loop_pages_inv in E as (Hinv & Hle & Hall); [|reflexivity|reflexivity].
  cbn [fst snd] in H. unfold pages_so_far in Hinv.
  assert (Hfirst :
    forall (first rest : list value) (r : Locals * nat) (w2 : World Host),
      pages = first ++ rest -> first <> [] ->
      loop_pages cell cols rows pages col_texts row_texts page_texts
        draw_legend include_lone_images 0 first initial_locals
        (snd (modify_shared
                (set_job_count
                   (Z.of_nat (ncols cols * nrows rows * npages pages)
                    * int_attr p "n_iter")) w))
      = (Ok r, w2) ->
      interrupted (shared w2) = true ->
      w1 = w2 /\ r = (l, n) /\ (0 < n <= List.length first)%nat).
  { intros first rest r w2 Hp Hne Hl Hi.
    pose proof Hl as Hall'.
    apply loop_pages_interrupted with (rest := rest) in Hall';
      [|assumption..].
    rewrite <- Hp in Hall'. unfold modify_shared in Hall'. cbn [snd] in Hall'.
    rewrite E0 in Hall'. injection Hall' as <- <-.
    split; [reflexivity|]. split; [reflexivity|].
    unfold modify_shared in Hl. cbn [snd] in Hl.
    pose proof Hl as Hlt. apply loop_pages_entered in Hlt; [|assumption].
    apply loop_pages_inv in Hl as (_ & Hle' & _); [|reflexivity|reflexivity].
    lia. }
  destruct (processed_result l) as [t|] eqn:El.
  - unfold ret in H. injection H as <- <-. cbn [fst snd] in *.
    destruct Hinv as [Hn Hfull]. unfold total_cells. cbn [fst snd].
    rewrite sum_of_full, length_firstn, Nat.min_l by assumption.
    split; [reflexivity|]. split; [exact Hle|]. split; [exact Hall|].
    intros first rest r w2 Hp Hne Hl Hi.
    destruct (Hfirst first rest r w2 Hp Hne Hl Hi) as (-> & -> & Hn').
    cbn [fst snd]. repeat split; [assumption|lia].
  - unfold ret in H. injection H as <- <-. subst n. cbn [fst snd] in *.
    split; [reflexivity|]. split; [exact Hle|]. split; [exact Hall|].
    intros first rest r w2 Hp Hne Hl Hi.
    destruct (Hfirst first rest r w2 Hp Hne Hl Hi) as (_ & _ & Hn'). lia.
Qed.

End DriverFacts.

(** ** One cell *)

Section CellFacts.

Import Spec.

Variable Host : Type.
Variables col_texts row_texts page_texts : list label.
Variables draw_legend include_lone_images : bool.

Lemma surjective_pairing_raise {A W} (x : outcome A * W) e :
  fst x = Raise e -> x = (Raise e, snd x).
Proof. destruct x. cbn. now intros ->. Qed.

Lemma cell_step_raises (failing : cell_fn Host) cols rows pages
  ipg ir ic pg r c l w e w2 :
  failing c r pg (snd (report_job cols rows pages ipg ir ic w)) = (Raise e, w2) ->
  cell_step failing cols rows pages include_lone_images ipg ir ic pg r c l w
  = (Raise e, w2).
Proof.
  intros Hfail. unfold cell_step. rewrite bind_unfold.
  unfold report_job, modify_shared in *. cbv beta iota. cbn [snd] in Hfail.
  now rewrite bind_unfold, Hfail.
Qed.

Lemma loop_cols_raises (failing : cell_fn Host) cols rows pages
  ipg ir ic pg r c colsI cols' l w e w2 :
  colsI = c :: cols' ->
  failing c r pg (snd (report_job cols rows pages ipg ir ic w)) = (Raise e, w2) ->
  loop_cols failing cols rows pages include_lone_images ipg ir pg r ic colsI l w
  = (Raise e, w2).
Proof.
  intros -> Hfail. cbn [loop_cols]. rewrite bind_unfold.
  erewrite cell_step_raises; [reflexivity|eassumption].
Qed.

Lemma loop_rows_raises (failing : cell_fn Host) cols rows pages
  ipg ir pg r c cols' rowsI rows' l w e w2 :
  cols = c :: cols' -> rowsI = r :: rows' ->
  failing c r pg (snd (report_job cols rows pages ipg ir 0 w)) = (Raise e, w2) ->
  loop_rows failing cols rows pages include_lone_images ipg pg ir rowsI l w
  = (Raise e, w2).
Proof.
  intros Hc -> Hfail. cbn [loop_rows]. rewrite bind_unfold.
  erewrite loop_cols_raises; [reflexivity|eassumption|eassumption].
Qed.

(** A callback that raises on the first cell ends the whole sweep, with
    the world the callback left. *)
Lemma first_cell_raises (failing : cell_fn Host) (p : Request)
  cols rows pages c cols' r rows' pg pages' (w : World Host) e w2 :
  cols = c :: cols' -> rows = r :: rows' -> pages = pg :: pages' ->
  failing c r pg
    (snd (report_job cols rows pages 0 0 0
            (snd (modify_shared
                    (set_job_count
                       (Z.of_nat (ncols cols * nrows rows * npages pages)
                        * int_attr p "n_iter")) w))))
  = (Raise e, w2) ->
  draw_crp_pages failing cols rows pages col_texts row_texts
    page_texts draw_legend include_lone_images p w = (Raise e, w2).
Proof.
  intros Hc Hr Hp Hfail.
  unfold draw_crp_pages. rewrite bind_unfold.
  unfold modify_shared at 1. cbv beta iota. rewrite bind_unfold.
  assert (Hpages : forall l w0,
    failing c r pg (snd (report_job cols rows pages 0 0 0 w0)) = (Raise e, w2) ->
    loop_pages failing cols rows pages col_texts row_texts page_texts
      draw_legend include_lone_images 0 pages l w0 = (Raise e, w2)).
  { intros l w0 H. rewrite Hp at 2. cbn [loop_pages]. rewrite bind_unfold.
    erewrite loop_rows_raises; [reflexivity|eassumption..]. }
  now rewrite Hpages.
Qed.

(** When the render callback returns a result with no
    images, a blank image of the current template's mode and size is put
    into the cache for that cell, nothing else of the sweep's locals
    changes, and the column loop goes on with the remaining cells (or
    leaves at an interrupt). An exception raised by the callback itself is
    outside the [try]: it ends the cell and the column loop, and a
    callback that raises on the first cell makes the sweep raise the same
    exception. *)
Theorem empty_render_gets_placeholder
  (cell : cell_fn Host) (cols rows pages : list value)
  (ipg ir ic : nat) (pg r c : value)
  (cols' : list value) (l : Locals) (w w1 : World Host)
  (processed : Processed) :
  cell c r pg (snd (report_job cols rows pages ipg ir ic w))
  = (Ok processed, w1) ->
  images processed = [] ->
  let l' := mk_Locals
              (cache_images l ++ [Blank (cell_mode l) (cell_size l)])
              (processed_result l) (cell_mode l) (cell_size l) in
  cell_step cell cols rows pages include_lone_images ipg ir ic pg r c l w
  = (Ok l', w1) /\
  loop_cols cell cols rows pages include_lone_images ipg ir pg r ic
    (c :: cols') l w
  = (if interrupted (shared w1) then (Ok l', w1)
     else loop_cols cell cols rows pages include_lone_images ipg ir pg r
            (S ic) cols' l' w1) /\
  (forall (failing : cell_fn Host) (e : exn) (w2 : World Host),
      failing c r pg (snd (report_job cols rows pages ipg ir ic w))
      = (Raise e, w2) ->
      cell_step failing cols rows pages include_lone_images ipg ir ic pg r c l w
      = (Raise e, w2) /\
      loop_cols failing cols rows pages include_lone_images ipg ir pg r ic
        (c :: cols') l w = (Raise e, w2)) /\
  (forall (failing : cell_fn Host) (p : Request) c0 cs r0 rs pg0 pgs
          (w0 : World Host) (e : exn),
      (forall w', fst (failing c0 r0 pg0 w') = Raise e) ->
      fst (draw_crp_pages failing (c0 :: cs) (r0 :: rs) (pg0 :: pgs)
             col_texts row_texts page_texts draw_legend
             include_lone_images p w0)
      = Raise e).
Proof.
  intros Hcell Himg l'.
  assert (Hstep :
    cell_step cell cols rows pages include_lone_images ipg ir ic pg r c l w
    = (Ok l', w1)).
  { unfold cell_step. rewrite bind_unfold.
    unfold report_job, modify_shared in *. cbv beta iota. cbn [snd] in Hcell.
    rewrite bind_unfold, Hcell. unfold try_take. rewrite Himg. reflexivity. }
  split; [exact Hstep|]. split; [|split].
  - cbn [loop_cols]. rewrite bind_unfold, Hstep, bind_unfold.
    unfold get_shared at 1. destruct (interrupted (shared w1)); reflexivity.
  - intros failing e w2 Hfail.
    split; [now apply cell_step_raises|].
    now apply loop_cols_raises with c cols'.
  - intros failing p c0 cs r0 rs pg0 pgs w0 e Hfail.
    erewrite first_cell_raises; [reflexivity|reflexivity..|].
    apply surjective_pairing_raise, Hfail.
Qed.

End CellFacts.

(** ** [run]: expansion before the sweep *)

Section RunFacts.

Import Spec.

Variable Host : Type.
Variable api : host_api Host.

Lemma fix_seed_world p (w : World Host) :
  exists p' w', fix_seed api p w = (Ok p', w') /\
    shared w' = shared w /\ rendered w' = rendered w /\ saved w' = saved w.
Proof.
  destruct w as [s h r sv]. unfold fix_seed.
  rewrite !bind_unfold.
  destruct (unfixed (getattr p "seed")).
  - rewrite bind_unfold. unfold randrange at 1. cbn [host shared rendered saved].
    destruct (rng_next api h) as [d h1]. unfold ret at 1. rewrite bind_unfold.
    destruct (unfixed (getattr p "subseed")).
    + rewrite bind_unfold. unfold randrange at 1. cbn [host shared rendered saved].
      destruct (rng_next api h1) as [d' h2]. unfold ret. cbn. eauto 10.
    + unfold ret. cbn. eauto 10.
  - unfold ret at 1. rewrite bind_unfold.
    destruct (unfixed (getattr p "subseed")).
    + rewrite bind_unfold. unfold randrange at 1. cbn [host shared rendered saved].
      destruct (rng_next api h) as [d' h2]. unfold ret. cbn. eauto 10.
    + unfold ret. cbn. eauto 10.
Qed.

Lemma fix_unless_kept_world b (opt : AxisOption Host) xs (w : World Host) :
  exists ys w', fix_unless_kept api b opt xs w = (Ok ys, w') /\
    shared w' = shared w /\ rendered w' = rendered w /\ saved w' = saved w.
Proof.
  destruct w as [s h r sv]. unfold fix_unless_kept, fix_axis_seeds.
  destruct b; [unfold ret; eauto 10|].
  destruct (is_seed_axis opt); [|unfold ret; eauto 10].
  rewrite fix_values_draws. cbn. eauto 10.
Qed.

(** [run] is the expansion of the column, row and page axes, in this
    order and each stopping the run when it raises, followed by
    [run_sweep]; nothing before [run_sweep] touches the host's shared
    state or renders. *)
Lemma run_unfold p cm cv rm rv pm pv dl il nf (w : World Host) :
  exists p1 w1,
    shared w1 = shared w /\ rendered w1 = rendered w /\
    run api p cm cv rm rv pm pv dl il nf w
    = match option_at api cm with
      | Raise e => (Raise e, w1)
      | Ok co =>
      match process_axis p1 co cv with
      | Raise e => (Raise e, w1)
      | Ok cvs =>
      match option_at api rm with
      | Raise e => (Raise e, w1)
      | Ok ro =>
      match process_axis p1 ro rv with
      | Raise e => (Raise e, w1)
      | Ok rvs =>
      match option_at api pm with
      | Raise e => (Raise e, w1)
      | Ok po =>
      match process_axis p1 po pv with
      | Raise e => (Raise e, w1)
      | Ok pvs => run_sweep api p1 co ro po cvs rvs pvs dl il nf w1
      end end end end end end.
Proof.
  assert (Hfix : exists p0 w1,
             (if nf then ret p else fix_seed api p) w = (Ok p0, w1) /\
             shared w1 = shared w /\ rendered w1 = rendered w).
  { destruct nf.
    - exists p, w. auto.
    - destruct (fix_seed_world p w) as (p0 & w1 & H & Hs & Hr & _). eauto. }
  destruct Hfix as (p0 & w1 & Hfix & Hs & Hr).
  exists (if return_grid (shared w1) then p0
          else setattr p0 "batch_size" (VInt 1)), w1.
  split; [assumption|]. split; [assumption|].
  unfold run. rewrite bind_unfold, Hfix, bind_unfold.
  unfold get_shared at 1. cbv zeta.
  set (p1 := if return_grid (shared w1) then p0
             else setattr p0 "batch_size" (VInt 1)).
  rewrite bind_unfold. unfold lift at 1.
  destruct (option_at api cm) as [co|e]; [|reflexivity].
  rewrite bind_unfold. unfold lift at 1.
  destruct (process_axis p1 co cv) as [cvs|e]; [|reflexivity].
  rewrite bind_unfold. unfold lift at 1.
  destruct (option_at api rm) as [ro|e]; [|reflexivity].
  rewrite bind_unfold. unfold lift at 1.
  destruct (process_axis p1 ro rv) as [rvs|e]; [|reflexivity].
  rewrite bind_unfold. unfold lift at 1.
  destruct (option_at api pm) as [po|e]; [|reflexivity].
  rewrite bind_unfold. unfold lift at 1.
  destruct (process_axis p1 po pv) as [pvs|e]; reflexivity.
Qed.

Lemma option_at_In i (opt : AxisOption Host) :
  option_at api i = Ok opt -> In opt (axis_options api).
Proof.
  unfold option_at. destruct (nth_error (axis_options api) i) eqn:E;
    [|discriminate].
  intros H. injection H as <-. now apply nth_error_In in E.
Qed.

Lemma confirm_samplers_any q q' xs :
  confirm_samplers api q xs = confirm_samplers api q' xs.
Proof.
  induction xs as [|[] xs IH]; cbn; try reflexivity.
  destruct (samplers_map api (PyStr.lower s)); [exact IH|reflexivity].
Qed.

Lemma confirm_checkpoints_any q q' xs :
  confirm_checkpoints api q xs = confirm_checkpoints api q' xs.
Proof.
  induction xs as [|[] xs IH]; cbn; try reflexivity.
  destruct (get_closet_checkpoint_match api s); [exact IH|reflexivity].
Qed.

Lemma confirm_hypernetworks_any q q' xs :
  confirm_hypernetworks api q xs = confirm_hypernetworks api q' xs.
Proof.
  induction xs as [|[] xs IH]; cbn; try reflexivity.
  destruct (names_no_hypernetwork s); [exact IH|].
  destruct (no_name (find_closest_hypernetwork_name api s));
    [reflexivity|exact IH].
Qed.

Lemma confirm_samplers_rejects q xs x :
  In x xs -> is_ok (confirm_samplers api q [x]) = false ->
  is_ok (confirm_samplers api q xs) = false.
Proof.
  intros Hin Hx. induction xs as [|y xs IH]; [contradiction|].
  destruct Hin as [->|Hin].
  - destruct x; cbn in *; try reflexivity.
    destruct (samplers_map api (PyStr.lower s)); [discriminate|reflexivity].
  - destruct y; cbn; try reflexivity.
    destruct (samplers_map api (PyStr.lower s)); [now apply IH|reflexivity].
Qed.

Lemma confirm_checkpoints_rejects q xs x :
  In x xs -> is_ok (confirm_checkpoints api q [x]) = false ->
  is_ok (confirm_checkpoints api q xs) = false.
Proof.
  intros Hin Hx. induction xs as [|y xs IH]; [contradiction|].
  destruct Hin as [->|Hin].
  - destruct x; cbn in *; try reflexivity.
    destruct (get_closet_checkpoint_match api s); [discriminate|reflexivity].
  - destruct y; cbn; try reflexivity.
    destruct (get_closet_checkpoint_match api s); [now apply IH|reflexivity].
Qed.

Lemma confirm_hypernetworks_rejects q xs x :
  In x xs -> is_ok (confirm_hypernetworks api q [x]) = false ->
  is_ok (confirm_hypernetworks api q xs) = false.
Proof.
  intros Hin Hx. induction xs as [|y xs IH]; [contradiction|].
  destruct Hin as [->|Hin].
  - destruct x; cbn in *; try reflexivity.
    destruct (names_no_hypernetwork s); [discriminate|].
    destruct (no_name (find_closest_hypernetwork_name api s));
      [reflexivity|discriminate].
  - destruct y; cbn; try reflexivity.
    destruct (names_no_hypernetwork s); [now apply IH|].
    destruct (no_name (find_closest_hypernetwork_name api s));
      [reflexivity|now apply IH].
Qed.

(** The options with a validator: what the validator is, and that the
    option is not the "Nothing" one. *)
Lemma validated_option (opt : AxisOption Host) cf :
  In opt (axis_options api) -> opt_confirm opt = Some cf ->
  String.eqb (opt_label opt) "Nothing" = false /\
  (cf = confirm_samplers api \/ cf = confirm_checkpoints api \/
   cf = confirm_hypernetworks api).
Proof.
  intros Hin Hc. unfold axis_options in Hin. cbn [In] in Hin.
  repeat (destruct Hin as [<-|Hin];
          [cbn in Hc |- *;
           first [discriminate
                 |injection Hc as Hc; subst cf; split; [reflexivity|auto]]|]).
  contradiction.
Qed.

Lemma process_axis_any (opt : AxisOption Host) q q' vals :
  In opt (axis_options api) ->
  process_axis q opt vals = process_axis q' opt vals.
Proof.
  intros Hin. unfold process_axis.
  destruct (String.eqb (opt_label opt) "Nothing"); [reflexivity|].
  destruct (typed_values opt vals) as [xs|e]; [|reflexivity].
  cbn [obind]. destruct (opt_confirm opt) as [cf|] eqn:Ec; [|reflexivity].
  destruct (validated_option Hin Ec) as [_ [->|[->| ->]]].
  - now rewrite (confirm_samplers_any q q').
  - now rewrite (confirm_checkpoints_any q q').
  - now rewrite (confirm_hypernetworks_any q q').
Qed.

(** C6. An axis whose option has a validator hands it the whole expanded
    sequence, once, at the end of [process_axis]; when one of the values is
    not valid the validator raises, [process_axis] raises, and [run], in
    whichever of the three positions the axis stands, raises before the
    sweep starts: no render call is made. *)
Theorem confirm_before_render (p : Request) (i : nat) (vals : string)
  (opt : AxisOption Host) (cf : confirm_fn) (xs : list value) (x : value)
  (j1 j2 : nat) (v1 v2 : string) (dl il nf : bool) (w : World Host) :
  option_at api i = Ok opt -> opt_confirm opt = Some cf ->
  typed_values opt vals = Ok xs ->
  In x xs -> (forall q, is_ok (cf q [x]) = false) ->
  (forall q, process_axis q opt vals = (_ <-? cf q xs ; Ok xs)) /\
  (forall q, is_ok (process_axis q opt vals) = false) /\
  (let as_col := run api p i vals j1 v1 j2 v2 dl il nf w in
   is_ok (fst as_col) = false /\ rendered (snd as_col) = rendered w) /\
  (let as_row := run api p j1 v1 i vals j2 v2 dl il nf w in
   is_ok (fst as_row) = false /\ rendered (snd as_row) = rendered w) /\
  (let as_page := run api p j1 v1 j2 v2 i vals dl il nf w in
   is_ok (fst as_page) = false /\ rendered (snd as_page) = rendered w).
Proof.
  intros Hopt Hcf Hxs Hin Hbad.
  pose proof (option_at_In _ Hopt) as Htab.
  destruct (validated_option Htab Hcf) as [Hlabel Hwhich].
  assert (Hproc : forall q, process_axis q opt vals = (_ <-? cf q xs ; Ok xs)).
  { intros q. unfold process_axis. now rewrite Hlabel, Hxs, Hcf. }
  assert (Hraise : forall q, is_ok (process_axis q opt vals) = false).
  { intros q. rewrite Hproc.
    assert (Hr : is_ok (cf q xs) = false).
    { destruct Hwhich as [->|[->| ->]].
      - now apply confirm_samplers_rejects with x.
      - now apply confirm_checkpoints_rejects with x.
      - now apply confirm_hypernetworks_rejects with x. }
    destruct (cf q xs); [discriminate|reflexivity]. }
  split; [exact Hproc|]. split; [exact Hraise|].
  split; [|split]; cbv zeta.
  - destruct (run_unfold p i vals j1 v1 j2 v2 dl il nf w)
      as (p1 & w1 & _ & Hr & ->).
    rewrite Hopt. specialize (Hraise p1).
    destruct (process_axis p1 opt vals); [discriminate|]. now split.
  - destruct (run_unfold p j1 v1 i vals j2 v2 dl il nf w)
      as (p1 & w1 & _ & Hr & ->).
    destruct (option_at api j1); [|now split].
    destruct (process_axis p1 a v1); [|now split].
    rewrite Hopt. specialize (Hraise p1).
    destruct (process_axis p1 opt vals); [discriminate|]. now split.
  - destruct (run_unfold p j1 v1 j2 v2 i vals dl il nf w)
      as (p1 & w1 & _ & Hr & ->).
    destruct (option_at api j1); [|now split].
    destruct (process_axis p1 a v1); [|now split].
    destruct (option_at api j2); [|now split].
    destruct (process_axis p1 a1 v2); [|now split].
    rewrite Hopt. specialize (Hraise p1).
    destruct (process_axis p1 opt vals); [discriminate|]. now split.
Qed.

End RunFacts.

(** ** The settings helper *)

Section SettingsFacts.

Import Spec.

Variable Host : Type.
Variable api : host_api Host.

Create HintDb stable discriminated.

Lemma stable_ret {X A} (proj : World Host -> X) (a : A) :
  stable proj (ret (Host := Host) a).
Proof. intros w. reflexivity. Qed.

Lemma stable_raise {X A} (proj : World Host -> X) (e : exn) :
  stable proj (raise (Host := Host) (A := A) e).
Proof. intros w. reflexivity. Qed.

Lemma stable_lift {X A} (proj : World Host -> X) (o : outcome A) :
  stable proj (lift (Host := Host) o).
Proof. intros w. reflexivity. Qed.

Lemma stable_get_shared {X} (proj : World Host -> X) :
  stable proj (get_shared (Host := Host)).
Proof. intros w. reflexivity. Qed.

Lemma stable_bind {X A B} (proj : World Host -> X)
  (m : M Host A) (f : A -> M Host B) :
  stable proj m -> (forall a, stable proj (f a)) -> stable proj (bind m f).
Proof.
  intros Hm Hf w. rewrite bind_unfold. specialize (Hm w).
  destruct (m w) as [[a|e] w']; cbn [snd] in *; [|exact Hm].
  now rewrite (Hf a w').
Qed.

(** A change of the shared state that leaves the configured checkpoint
    alone. *)
Lemma configured_modify (f : Shared -> Shared) :
  (forall s, sd_model_checkpoint (f s) = sd_model_checkpoint s) ->
  stable configured (modify_shared (Host := Host) f).
Proof. intros Hf w. unfold configured. cbn. apply Hf. Qed.

Lemma configured_render pc : stable configured (render api pc).
Proof.
  intros w. unfold render.
  destruct (process_images api pc (shared w) (host w)) as [[res intr] h].
  reflexivity.
Qed.

Hint Resolve stable_ret stable_raise stable_lift stable_get_shared
  configured_render : stable.

Ltac stable_cases :=
  repeat match goal with
         | |- stable _ (match ?x with _ => _ end) => destruct x
         | |- stable _ (if ?x then _ else _) => destruct x
         | |- stable _ (bind _ _) => apply stable_bind; [|intros ?]
         | |- stable _ (modify_shared _) =>
             apply configured_modify; intros ?; reflexivity
         | |- stable _ _ => solve [auto with stable]
         end.

Lemma configured_apply (opt : AxisOption Host) pc x xs :
  In opt (axis_options api) -> stable configured (opt_apply opt pc x xs).
Proof.
  intros Hin. unfold axis_options in Hin. cbn [In] in Hin.
  repeat (destruct Hin as [<-|Hin];
          [cbn [opt_apply];
           unfold apply_field, apply_prompt, apply_order, apply_sampler,
             apply_checkpoint, apply_hypernetwork,
             apply_hypernetwork_strength, apply_clip_skip, do_nothing,
             reload_model_weights, load_hypernetwork, apply_strength;
           stable_cases|]).
  contradiction.
Qed.

Lemma configured_cell p (co ro po : AxisOption Host) cvs rvs pvs c r pg :
  In co (axis_options api) -> In ro (axis_options api) ->
  In po (axis_options api) ->
  stable configured (cell api p co ro po cvs rvs pvs c r pg).
Proof.
  intros Hc Hr Hp. unfold cell.
  repeat (apply stable_bind; [now apply configured_apply|intros ?]).
  apply configured_render.
Qed.

Section Loops.

Variable the_cell : cell_fn Host.
Hypothesis cell_stable : forall c r pg, stable configured (the_cell c r pg).
Variables cols rows pages : list value.
Variables col_texts row_texts page_texts : list label.
Variables draw_legend include_lone_images : bool.

Lemma configured_cell_step ipg ir ic pg r c l :
  stable configured
    (cell_step the_cell cols rows pages include_lone_images
       ipg ir ic pg r c l).
Proof.
  unfold cell_step, report_job.
  apply stable_bind; [apply configured_modify; intros; reflexivity|intros _].
  apply stable_bind; [apply cell_stable|intros processed].
  destruct (try_take include_lone_images processed l). apply stable_ret.
Qed.

Lemma configured_loop_cols ipg ir pg r : forall cols' ic l,
  stable configured
    (loop_cols the_cell cols rows pages include_lone_images
       ipg ir pg r ic cols' l).
Proof.
  induction cols' as [|c cols' IH]; intros ic l; cbn [loop_cols].
  - apply stable_ret.
  - apply stable_bind; [apply configured_cell_step|intros l1].
    apply stable_bind; [apply stable_get_shared|intros s].
    destruct (interrupted s); [apply stable_ret|apply IH].
Qed.

Lemma configured_loop_rows ipg pg : forall rows' ir l,
  stable configured
    (loop_rows the_cell cols rows pages include_lone_images
       ipg pg ir rows' l).
Proof.
  induction rows' as [|r rows' IH]; intros ir l; cbn [loop_rows].
  - apply stable_ret.
  - apply stable_bind; [apply configured_loop_cols|intros l1].
    apply stable_bind; [apply stable_get_shared|intros s].
    destruct (interrupted s); [apply stable_ret|apply IH].
Qed.

Lemma configured_loop_pages : forall pages' ipg l,
  stable configured
    (loop_pages the_cell cols rows pages col_texts row_texts page_texts
       draw_legend include_lone_images ipg pages' l).
Proof.
  induction pages' as [|pg pages' IH]; intros ipg l; cbn [loop_pages].
  - apply stable_ret.
  - apply stable_bind; [apply configured_loop_rows|intros l1].
    apply stable_bind.
    + unfold compose_page.
      apply stable_bind; [apply stable_lift|intros grid].
      destruct (processed_result l1); [apply stable_ret|apply stable_raise].
    + intros l2. apply stable_bind; [apply stable_get_shared|intros s].
      destruct (interrupted s); [apply stable_ret|apply IH].
Qed.

Lemma configured_draw_crp_pages p :
  stable configured
    (draw_crp_pages the_cell cols rows pages col_texts row_texts
       page_texts draw_legend include_lone_images p).
Proof.
  unfold draw_crp_pages.
  apply stable_bind; [apply configured_modify; intros; reflexivity|intros _].
  apply stable_bind; [apply configured_loop_pages|intros res].
  destruct (processed_result (fst res)); apply stable_ret.
Qed.

End Loops.

Lemma configured_save_pages imgs : forall n i,
  stable configured (save_pages (Host := Host) imgs i n).
Proof.
  induction n as [|n IH]; intros i; cbn [save_pages]; [apply stable_ret|].
  destruct (nth_error imgs i); [|apply stable_raise].
  apply stable_bind; [|intros _; apply IH].
  intros w. reflexivity.
Qed.

(** Whatever the body did to the checkpoint, the hypernetwork and the
    CLIP setting, and however it ended, the helper leaves the
    configuration it found, provided the body left the configured
    checkpoint alone. *)
Lemma helper_restores {A} (body : M Host A) (w : World Host) :
  stable configured body ->
  settings_in_force api (shared w) ->
  render_config
    (shared (snd (with_SharedSettingsStackHelper api body w)))
  = render_config (shared w).
Proof.
  intros Hbody [Hmodel Hhyper].
  unfold with_SharedSettingsStackHelper, enter.
  rewrite bind_unfold. unfold get_shared at 1, ret at 1.
  specialize (Hbody w). destruct (body w) as [res w2]. cbn [snd] in Hbody.
  unfold configured in Hbody.
  unfold exit, reload_model_weights, load_hypernetwork, apply_strength,
    modify_shared, bind. cbn.
  unfold render_config. cbn. now rewrite Hbody, <- Hmodel, <- Hhyper.
Qed.

Lemma run_sweep_restores p (co ro po : AxisOption Host) cvs rvs pvs dl il nf
  (w : World Host) :
  In co (axis_options api) -> In ro (axis_options api) ->
  In po (axis_options api) ->
  settings_in_force api (shared w) ->
  render_config
    (shared (snd (run_sweep api p co ro po cvs rvs pvs dl il nf w)))
  = render_config (shared w).
Proof.
  intros Hc Hr Hp Hs. unfold run_sweep.
  rewrite bind_unfold.
  destruct (fix_unless_kept_world api nf co cvs w)
    as (cvs' & w1 & -> & Hs1 & _).
  rewrite bind_unfold.
  destruct (fix_unless_kept_world api nf ro rvs w1)
    as (rvs' & w2 & -> & Hs2 & _).
  rewrite bind_unfold.
  destruct (fix_unless_kept_world api nf po pvs w2)
    as (pvs' & w3 & -> & Hs3 & _).
  rewrite bind_unfold. unfold modify_shared at 1. cbv beta iota.
  rewrite helper_restores.
  - cbn [shared]. rewrite Hs3, Hs2, Hs1. reflexivity.
  - apply stable_bind.
    + apply configured_draw_crp_pages. intros c r pg.
      now apply configured_cell.
    + intros res. apply stable_bind; [apply stable_get_shared|intros s].
      apply stable_bind; [|intros _; apply stable_ret].
      destruct (grid_save s); [apply configured_save_pages|apply stable_ret].
  - cbn [shared]. rewrite Hs3, Hs2, Hs1. exact Hs.
Qed.

(** C1 (amended). When the checkpoint and the hypernetwork in force at
    the start of [run] are the ones configured in the host's settings,
    then however [run] ends, by returning, after an interrupt, or by
    raising from the expansion, from an axis function or from a render,
    the checkpoint in force, the hypernetwork in force and the CLIP
    layer-skip count are afterwards what they were before the call, also
    when cells of the sweep changed them on the way. The helper restores
    the CLIP count from the copy it took on entry, the checkpoint and the
    hypernetwork by loading the configured ones. *)
Theorem run_restores_render_config (p : Request)
  (col_module : nat) (col_values : string)
  (row_module : nat) (row_values : string)
  (page_module : nat) (page_values : string)
  (draw_legend include_lone_images no_fixed_seeds : bool)
  (w : World Host) :
  settings_in_force api (shared w) ->
  render_config
    (shared (snd (run api p col_module col_values row_module row_values
                    page_module page_values draw_legend
                    include_lone_images no_fixed_seeds w)))
  = render_config (shared w).
Proof.
  intros Hs.
  destruct (run_unfold api p col_module col_values row_module row_values
              page_module page_values draw_legend include_lone_images
              no_fixed_seeds w) as (p1 & w1 & Hs1 & _ & ->).
  assert (Hsame : render_config (shared w1) = render_config (shared w))
    by now rewrite Hs1.
  destruct (option_at api col_module) as [co|e] eqn:Eco; [|exact Hsame].
  destruct (process_axis p1 co col_values); [|exact Hsame].
  destruct (option_at api row_module) as [ro|e] eqn:Ero; [|exact Hsame].
  destruct (process_axis p1 ro row_values); [|exact Hsame].
  destruct (option_at api page_module) as [po|e] eqn:Epo; [|exact Hsame].
  destruct (process_axis p1 po page_values); [|exact Hsame].
  pose proof (option_at_In api _ Eco) as Hco.
  pose proof (option_at_In api _ Ero) as Hro.
  pose proof (option_at_In api _ Epo) as Hpo.
  rewrite run_sweep_restores by first [assumption | rewrite Hs1; exact Hs].
  exact Hsame.
Qed.

End SettingsFacts.

(** ** Prompt search and replace *)

Section PromptFacts.

Import Spec.

Variable Host : Type.
Variable api : host_api Host.

Lemma omap_convert_strs ss :
  omap (convert TStr) (map VStr ss) = Ok (map VStr ss).
Proof.
  induction ss as [|s ss IH]; [reflexivity|].
  cbn [map omap convert obind]. now rewrite IH.
Qed.

Lemma apply_prompt_absent (p : Request) pr np tok xs v (w : World Host) :
  getattr p "prompt" = VStr pr -> getattr p "negative_prompt" = VStr np ->
  PyStr.contains tok pr || PyStr.contains tok np = false ->
  apply_prompt p v (VStr tok :: xs) w
  = (Raise (RuntimeError
              ("Prompt S/R did not find " ++ tok ++
               " in prompt or negative prompt.")%string), w).
Proof.
  intros Hp Hn Hf. apply orb_false_elim in Hf as [H1 H2].
  unfold apply_prompt. now rewrite Hp, Hn, H1, H2.
Qed.

(** C7 (amended). Prompt S/R replaces the first value of the axis by the
    cell's value in the prompt and in the negative prompt: "cat" by "dog"
    in "a cat" gives "a dog". The option has no validator, so the
    expansion of the axis accepts any token. A token found in neither
    prompt makes [apply_prompt] raise a [RuntimeError] when the first cell
    is prepared: inside the sweep, before that cell is rendered, so that
    with the token on the column axis the sweep raises without any render
    call. *)
Theorem prompt_search_replace (p : Request) (pr np tok x : string)
  (xs : list value) (ro po : AxisOption Host) (rvs pvs : list value)
  (c r pg : value) (rows' pages' : list value)
  (col_texts row_texts page_texts : list label)
  (draw_legend include_lone_images : bool) (w : World Host) :
  getattr p "prompt" = VStr pr ->
  getattr p "negative_prompt" = VStr np ->
  let sr := mk_AxisOption "Prompt S/R" TStr (@apply_prompt Host)
              format_value None in
  let cols := VStr tok :: xs in
  apply_prompt [("prompt", VStr "a cat"); ("negative_prompt", VStr "no cat")]
    (VStr "dog") [VStr "cat"; VStr "dog"] w
  = (Ok [("prompt", VStr "a dog"); ("negative_prompt", VStr "no dog")], w) /\
  option_at api 6 = Ok sr /\
  (forall q vals,
      process_axis q sr vals
      = (fields <-? Csv.fields_of vals ;
         Ok (map VStr (map PyStr.strip fields)))) /\
  (if PyStr.contains tok pr || PyStr.contains tok np
   then
     apply_prompt p (VStr x) cols w
     = (Ok (setattr
              (setattr p "prompt" (VStr (PyStr.replace pr tok x)))
              "negative_prompt" (VStr (PyStr.replace np tok x))), w)
   else
     exists msg,
       (forall v, apply_prompt p v cols w = (Raise (RuntimeError msg), w)) /\
       (forall w0, cell api p sr ro po cols rvs pvs c r pg w0
                   = (Raise (RuntimeError msg), w0)) /\
       (let res := draw_crp_pages
                     (cell api p sr ro po cols (r :: rows') (pg :: pages'))
                     cols (r :: rows') (pg :: pages')
                     col_texts row_texts page_texts
                     draw_legend include_lone_images p w in
        fst res = Raise (RuntimeError msg) /\
        rendered (snd res) = rendered w)).
Proof.
  intros Hp Hn sr cols.
  split; [reflexivity|]. split; [reflexivity|]. split.
  - intros q vals. unfold process_axis, typed_values. cbn.
    destruct (Csv.fields_of vals) as [fields|e]; [|reflexivity].
    cbn [obind]. now rewrite omap_convert_strs.
  - destruct (PyStr.contains tok pr || PyStr.contains tok np) eqn:Ef.
    + unfold apply_prompt, cols. rewrite Hp, Hn.
      destruct (PyStr.contains tok pr), (PyStr.contains tok np);
        try discriminate; reflexivity.
    + eexists. split; [|split].
      * intros v. now apply apply_prompt_absent with pr np.
      * intros w0. unfold cell, sr, cols. rewrite bind_unfold.
        cbn [opt_apply].
        erewrite apply_prompt_absent by eassumption. reflexivity.
      * cbv zeta.
        erewrite first_cell_raises; [|reflexivity..|]; cycle 1.
        -- unfold cell, sr, cols. rewrite bind_unfold. cbn [opt_apply].
           erewrite apply_prompt_absent by eassumption. reflexivity.
        -- split; reflexivity.
Qed.

End PromptFacts.

(** ** The statements on the demo host *)

Ltac in_table :=
  cbv beta iota delta
    [Demo.option Demo.Nothing Demo.Seed Demo.Steps Demo.CFG_Scale
     Demo.Prompt_SR Demo.Sampler Demo.Checkpoint_name Demo.Clip_skip
     axis_options nth In];
  repeat (first [left; reflexivity | right]).

(** C1, the claim as stated fails: the helper keeps no copy of the
    checkpoint in force; on exit it reloads the checkpoint configured in
    the host's settings. A run that starts with another checkpoint loaded
    ("modelX.ckpt", the settings naming "modelA.ckpt") returns, its three
    axes "Nothing", with the configured checkpoint in force. *)
Lemma loaded_checkpoint_not_restored :
  let w := mk_World (set_sd_model "modelX.ckpt" Demo.shared0) O [] [] in
  let out := run (Demo.api Demo.Renders) Demo.p0 Demo.Nothing ""
               Demo.Nothing "" Demo.Nothing "" true false true w in
  is_ok (fst out) = true /\
  render_config (shared w) = ("modelX.ckpt", None, VInt 1) /\
  render_config (shared (snd out)) = ("modelA.ckpt", None, VInt 1) /\
  render_config (shared (snd out)) <> render_config (shared w).
Proof.
  intros w out.
  split; [vm_compute; reflexivity|]. split; [reflexivity|].
  split; [vm_compute; reflexivity|vm_compute; discriminate].
Qed.

(** C1 (amended), an instance: a sweep over steps, the checkpoint
    "modelB" and two CLIP settings, interrupted by the user during its
    first render. The cells load another checkpoint and set the CLIP
    count; after the run the configuration is the one before it. *)
Lemma run_restores_render_config_witness :
  Spec.settings_in_force (Demo.api (Demo.InterruptedAfter 3))
    (shared Demo.world0) /\
  render_config
    (shared (snd (run (Demo.api (Demo.InterruptedAfter 3)) Demo.p0
                    Demo.Steps "1-2" Demo.Checkpoint_name "modelB"
                    Demo.Clip_skip "2,3" true false false Demo.world0)))
  = render_config (shared Demo.world0).
Proof.
  assert (H : Spec.settings_in_force (Demo.api (Demo.InterruptedAfter 3))
                (shared Demo.world0)) by (split; reflexivity).
  split; [exact H|].
  exact (@run_restores_render_config nat (Demo.api (Demo.InterruptedAfter 3))
           Demo.p0 Demo.Steps "1-2" Demo.Checkpoint_name "modelB"
           Demo.Clip_skip "2,3" true false false Demo.world0 H).
Defined.

(** C2, the claim as stated fails: "1-5(2)" is no range for the step
    grammar, which wants the step signed, nor for the count grammar; the
    field goes to [int] as it stands, and [int] raises. *)
Lemma unsigned_step_rejected :
  Re.fullmatch Patterns.re_range "1-5(2)" = None /\
  Demo.expand Demo.Steps "1-5(2)"
  = Raise (ValueError "invalid literal for int() with base 10") /\
  Demo.expand Demo.Steps "1-5(2)" <> Ok [VInt 1; VInt 3; VInt 5].
Proof.
  split; [vm_compute; reflexivity|].
  split; [vm_compute; reflexivity|vm_compute; discriminate].
Qed.

(** C2 (amended), an instance: "2-11(+3)" on the Steps axis. *)
Lemma step_range_expansion_witness :
  (In (Demo.option Demo.Renders Demo.Steps) (axis_options (Demo.api Demo.Renders)) /\
   opt_type (Demo.option Demo.Renders Demo.Steps) = TInt /\
   Spec.is_digits "2" = true /\ Spec.is_digits "11" = true /\
   Spec.is_digits "3" = true /\ 0 < Spec.decimal "3") /\
  exists xs,
    process_axis Demo.p0 (Demo.option Demo.Renders Demo.Steps) "2-11(+3)"
    = Ok (map VInt xs) /\
    Spec.progression_upto 2 3 11 xs.
Proof.
  assert (H : In (Demo.option Demo.Renders Demo.Steps)
                 (axis_options (Demo.api Demo.Renders)) /\
              opt_type (Demo.option Demo.Renders Demo.Steps) = TInt /\
              Spec.is_digits "2" = true /\ Spec.is_digits "11" = true /\
              Spec.is_digits "3" = true /\ 0 < Spec.decimal "3").
  { split; [in_table|]. repeat split; reflexivity. }
  split; [exact H|].
  destruct H as (H1 & H2 & H3 & H4 & H5 & H6).
  exact (proj2 (proj2 (proj2
           (@step_range_expansion nat (Demo.api Demo.Renders) Demo.p0
              (Demo.option Demo.Renders Demo.Steps) "2" "11" "3"
              H1 H2 H3 H4 H5 H6)))).
Defined.

(** C3, the claim as stated fails: "0-1(0.5)", the step unsigned, matches
    neither float grammar, and [float] raises on the field. *)
Lemma float_unsigned_step_rejected :
  Re.fullmatch Patterns.re_range_float "0-1(0.5)" = None /\
  Demo.expand Demo.CFG_Scale "0-1(0.5)"
  = Raise (ValueError "could not convert string to float") /\
  Demo.expand Demo.CFG_Scale "0-1(0.5)"
  <> Ok [VFloat 0%float; VFloat 0.5%float; VFloat 1%float].
Proof.
  split; [vm_compute; reflexivity|].
  split; [vm_compute; reflexivity|vm_compute; discriminate].
Qed.

(** C3 (amended), an instance: the CFG Scale axis on "0-1(+0.5)". *)
Lemma float_step_range_signed_witness :
  (In (Demo.option Demo.Renders Demo.CFG_Scale)
      (axis_options (Demo.api Demo.Renders)) /\
   opt_type (Demo.option Demo.Renders Demo.CFG_Scale) = TFloat /\
   Re.fullmatch Patterns.re_range_float "0-1(+0.5)"
   = Some [(3%nat, "+0.5"); (2%nat, "1"); (1%nat, "0")] /\
   group_float [(3%nat, "+0.5"); (2%nat, "1"); (1%nat, "0")] 1 = Ok 0%float /\
   group_float [(3%nat, "+0.5"); (2%nat, "1"); (1%nat, "0")] 2 = Ok 1%float /\
   Re.group [(3%nat, "+0.5"); (2%nat, "1"); (1%nat, "0")] 3 <> None /\
   group_float [(3%nat, "+0.5"); (2%nat, "1"); (1%nat, "0")] 3 = Ok 0.5%float) /\
  process_axis Demo.p0 (Demo.option Demo.Renders Demo.CFG_Scale) "0-1(+0.5)"
  = Ok [VFloat 0%float; VFloat 0.5%float; VFloat 1%float].
Proof.
  assert (H : In (Demo.option Demo.Renders Demo.CFG_Scale)
                 (axis_options (Demo.api Demo.Renders)) /\
              opt_type (Demo.option Demo.Renders Demo.CFG_Scale) = TFloat /\
              Re.fullmatch Patterns.re_range_float "0-1(+0.5)"
              = Some [(3%nat, "+0.5"); (2%nat, "1"); (1%nat, "0")] /\
              group_float [(3%nat, "+0.5"); (2%nat, "1"); (1%nat, "0")] 1
              = Ok 0%float /\
              group_float [(3%nat, "+0.5"); (2%nat, "1"); (1%nat, "0")] 2
              = Ok 1%float /\
              Re.group [(3%nat, "+0.5"); (2%nat, "1"); (1%nat, "0")] 3 <> None /\
              group_float [(3%nat, "+0.5"); (2%nat, "1"); (1%nat, "0")] 3
              = Ok 0.5%float).
  { split; [in_table|].
    repeat split; try (vm_compute; reflexivity). discriminate. }
  split; [exact H|].
  destruct H as (H1 & H2 & H3 & H4 & H5 & H6 & H7).
  exact (proj1 (@float_step_range_signed nat (Demo.api Demo.Renders) Demo.p0
                  (Demo.option Demo.Renders Demo.CFG_Scale)
                  "0-1(+0.5)" [(3%nat, "+0.5"); (2%nat, "1"); (1%nat, "0")]
                  0%float 1%float 0.5%float
                  H1 H2 H3 H4 H5 H6 H7)).
Defined.

(** C4. A render that raises is not replaced by a placeholder, and the
    sweep does not go on: the call of [cell] stands before the [try]. On
    a host whose renders raise "out of memory" the sweep over two step
    counts raises that exception to its caller after the first render;
    the second cell is never rendered. And on a host whose renders return
    no image, the placeholders of the first page (two of four cells) are
    followed by [AttributeError] when the page is composed. *)
Lemma render_exception_propagates :
  let out := run (Demo.api Demo.Fails) Demo.p0 Demo.Steps "1,2"
               Demo.Nothing "" Demo.Nothing "" true false true
               Demo.world0 in
  let out2 := run (Demo.api Demo.NoImages) Demo.p0 Demo.Steps "1,2"
                Demo.Nothing "" Demo.Clip_skip "1,2" true false true
                Demo.world0 in
  fst out = Raise (HostError "out of memory") /\
  List.length (rendered (snd out)) = 1%nat /\
  is_ok (fst out) <> true /\
  fst out2 = Raise AttributeError /\
  List.length (rendered (snd out2)) = 2%nat.
Proof.
  intros out out2.
  split; [vm_compute; reflexivity|]. split; [vm_compute; reflexivity|].
  split; [vm_compute; discriminate|].
  split; vm_compute; reflexivity.
Qed.
(** An instance: the first cell of a sweep over two step
    counts on a host whose renders return no image. *)
Lemma empty_render_gets_placeholder_witness :
  let cell := Demo.cell_of Demo.NoImages Demo.Steps Demo.Nothing Demo.Nothing
                [VInt 1; VInt 2] [VInt 0] [VInt 0] in
  let w := snd (report_job [VInt 1; VInt 2] [VInt 0] [VInt 0] 0 0 0
                  Demo.world0) in
  (cell (VInt 1) (VInt 0) (VInt 0) w
   = (Ok Demo.rendered_nothing, snd (cell (VInt 1) (VInt 0) (VInt 0) w)) /\
   images Demo.rendered_nothing = []) /\
  cell_step cell [VInt 1; VInt 2] [VInt 0] [VInt 0] false 0 0 0
    (VInt 0) (VInt 0) (VInt 1) initial_locals Demo.world0
  = (Ok (mk_Locals [Blank "P" (1, 1)] None "P" (1, 1)),
     snd (cell (VInt 1) (VInt 0) (VInt 0) w)).
Proof.
  intros cell w.
  assert (H : cell (VInt 1) (VInt 0) (VInt 0) w
              = (Ok Demo.rendered_nothing,
                 snd (cell (VInt 1) (VInt 0) (VInt 0) w)) /\
              images Demo.rendered_nothing = [])
    by (split; reflexivity).
  split; [exact H|].
  destruct H as [H1 H2].
  exact (proj1 (@empty_render_gets_placeholder nat [] [] [] false false cell
                  [VInt 1; VInt 2] [VInt 0] [VInt 0] 0%nat 0%nat 0%nat
                  (VInt 0) (VInt 0) (VInt 1) [VInt 2] initial_locals
                  Demo.world0 _ _ H1 H2)).
Defined.

(** C5, the claim as stated fails: a sweep of two pages of one cell each,
    interrupted during its first render, composes the first page only and
    returns one cell, not pages x rows x cols = 2. *)
Lemma interrupt_drops_pages :
  let cols := [VInt 1] in
  let rows := [VInt 0] in
  let pages := [VInt 1; VInt 2] in
  let out := draw_crp_pages
               (Demo.cell_of (Demo.InterruptedAfter 1) Demo.Steps
                  Demo.Nothing Demo.Clip_skip cols rows pages)
               cols rows pages [] [] [] false false Demo.p0 Demo.world0 in
  exists res,
    fst out = Ok res /\ snd res = 1%nat /\
    Spec.total_cells res = 1%nat /\
    Spec.total_cells res
    <> (List.length pages * List.length rows * List.length cols)%nat.
Proof.
  intros cols rows pages out.
  destruct (fst out) as [res|e] eqn:E; [|vm_compute in E; discriminate E].
  exists res. split; [reflexivity|].
  vm_compute in E. injection E as <-.
  split; [reflexivity|]. split; [reflexivity|]. vm_compute. discriminate.
Qed.

(** C5 (amended), an instance: the same sweep, interrupted during its
    first render: the page loop over the first page leaves with the
    interrupt flag set, and the sweep ends there, one page composed and
    one render made. *)
Lemma cells_per_composed_page_witness :
  let cols := [VInt 1] in
  let rows := [VInt 0] in
  let pages := [VInt 1; VInt 2] in
  let cell := Demo.cell_of (Demo.InterruptedAfter 1) Demo.Steps
                Demo.Nothing Demo.Clip_skip cols rows pages in
  let out := draw_crp_pages cell cols rows pages [] [] [] false false
               Demo.p0 Demo.world0 in
  exists res w',
    out = (Ok res, w') /\
    Spec.total_cells res
    = (snd res * (List.length rows * List.length cols))%nat /\
    (snd res <= 1)%nat /\
    List.length (rendered w') = 1%nat.
Proof.
  intros cols rows pages cell out.
  destruct out as [[res|e] w'] eqn:E; [|vm_compute in E; discriminate E].
  exists res, w'. split; [reflexivity|].
  pose proof (@cells_per_composed_page nat cell cols rows pages [] [] []
                false false Demo.p0 Demo.world0 w' res E) as (T1 & _ & _ & T4).
  split; [exact T1|].
  destruct (loop_pages cell cols rows pages [] [] [] false false 0
              [VInt 1] initial_locals
              (snd (modify_shared
                      (set_job_count
                         (Z.of_nat (ncols cols * nrows rows * npages pages)
                          * int_attr Demo.p0 "n_iter")) Demo.world0)))
    as [[r|e] w1] eqn:El; [|vm_compute in El; discriminate El].
  pose proof El as El'. vm_compute in El'. injection El' as Hr Hw.
  assert (Hi : interrupted (shared w1) = true) by (now rewrite <- Hw).
  destruct (T4 [VInt 1] [VInt 2] r w1 eq_refl ltac:(discriminate) El Hi)
    as (-> & _ & _ & Hle).
  split; [exact Hle|]. now rewrite <- Hw.
Defined.

(** C6, an instance: the sampler axis on "Euler a, foo", where the host
    knows no sampler "foo". *)
Lemma confirm_before_render_witness :
  let api := Demo.api Demo.Renders in
  let xs := [VStr "Euler a"; VStr "foo"] in
  (option_at api Demo.Sampler = Ok (Demo.option Demo.Renders Demo.Sampler) /\
   opt_confirm (Demo.option Demo.Renders Demo.Sampler)
   = Some (confirm_samplers api) /\
   typed_values (Demo.option Demo.Renders Demo.Sampler) "Euler a, foo"
   = Ok xs /\
   In (VStr "foo") xs /\
   (forall q, is_ok (confirm_samplers api q [VStr "foo"]) = false)) /\
  let as_col := run api Demo.p0 Demo.Sampler "Euler a, foo"
                  Demo.Steps "1,2" Demo.Nothing "" true false true
                  Demo.world0 in
  is_ok (fst as_col) = false /\ rendered (snd as_col) = rendered Demo.world0.
Proof.
  intros api xs.
  assert (H : option_at api Demo.Sampler
              = Ok (Demo.option Demo.Renders Demo.Sampler) /\
              opt_confirm (Demo.option Demo.Renders Demo.Sampler)
              = Some (confirm_samplers api) /\
              typed_values (Demo.option Demo.Renders Demo.Sampler)
                "Euler a, foo" = Ok xs /\
              In (VStr "foo") xs /\
              (forall q, is_ok (confirm_samplers api q [VStr "foo"]) = false)).
  { split; [reflexivity|]. split; [reflexivity|].
    split; [vm_compute; reflexivity|]. split; [right; left; reflexivity|].
    intros q. reflexivity. }
  split; [exact H|].
  destruct H as (H1 & H2 & H3 & H4 & H5).
  exact (proj1 (proj2 (proj2
           (@confirm_before_render nat api Demo.p0 Demo.Sampler
              "Euler a, foo" _ _ xs (VStr "foo") Demo.Steps Demo.Nothing
              "1,2" "" true false true Demo.world0 H1 H2 H3 H4 H5)))).
Defined.

(** C7, the claim as stated fails: the expansion of a Prompt S/R axis
    accepts a token that is in neither prompt; nothing is checked before
    the sweep starts. *)
Lemma prompt_token_not_validated :
  getattr Demo.p0 "prompt" = VStr "a cat" /\
  getattr Demo.p0 "negative_prompt" = VStr "" /\
  PyStr.contains "bird" "a cat" = false /\
  PyStr.contains "bird" "" = false /\
  Demo.expand Demo.Prompt_SR "bird, dog" = Ok [VStr "bird"; VStr "dog"] /\
  is_ok (Demo.expand Demo.Prompt_SR "bird, dog") <> false.
Proof.
  repeat split; try (vm_compute; reflexivity). vm_compute. discriminate.
Qed.

(** C7 (amended), an instance: the token "bird" on the column axis of a
    sweep with the prompt "a cat": the first cell raises before its
    render. *)
Lemma prompt_search_replace_witness :
  let sr := Demo.option Demo.Renders Demo.Prompt_SR in
  let no := Demo.option Demo.Renders Demo.Nothing in
  let cols := [VStr "bird"; VStr "dog"] in
  let res := draw_crp_pages
               (cell (Demo.api Demo.Renders) Demo.p0 sr no no
                  cols [VInt 0] [VInt 0])
               cols [VInt 0] [VInt 0] [] [] [] true false
               Demo.p0 Demo.world0 in
  (getattr Demo.p0 "prompt" = VStr "a cat" /\
   getattr Demo.p0 "negative_prompt" = VStr "") /\
  exists msg,
    fst res = Raise (RuntimeError msg) /\
    rendered (snd res) = rendered Demo.world0.
Proof.
  intros sr no cols res.
  assert (H : getattr Demo.p0 "prompt" = VStr "a cat" /\
              getattr Demo.p0 "negative_prompt" = VStr "")
    by (split; reflexivity).
  split; [exact H|].
  destruct H as [H1 H2].
  pose proof (@prompt_search_replace nat (Demo.api Demo.Renders) Demo.p0
                "a cat" "" "bird" "dog" [VStr "dog"] no no
                [VInt 0] [VInt 0] (VStr "bird") (VInt 0) (VInt 0) [] []
                [] [] [] true false Demo.world0 H1 H2) as T.
  cbv zeta in T. destruct T as (_ & _ & _ & T).
  assert (Hc : PyStr.contains "bird" "a cat" || PyStr.contains "bird" ""
               = false) by reflexivity.
  rewrite Hc in T. destruct T as (msg & _ & _ & T).
  exists msg. exact T.
Defined.

(** C8. A sweep in which no cell produces an image does not return the
    empty result with page count zero: composing its first page inserts
    the grid into the template result, which is still [None], and the
    sweep raises [AttributeError]. On a host whose renders return no image
    the sweep over two step counts raises. *)
Theorem no_usable_image_raises :
  fst (run (Demo.api Demo.NoImages) Demo.p0 Demo.Steps "1,2" Demo.Nothing ""
         Demo.Nothing "" true false true Demo.world0)
  = Raise AttributeError /\
  fst (draw_crp_pages
         (Demo.cell_of Demo.NoImages Demo.Steps Demo.Nothing Demo.Nothing
            [VInt 1; VInt 2] [VInt 0] [VInt 0])
         [VInt 1; VInt 2] [VInt 0] [VInt 0] [] [] [] true false
         Demo.p0 Demo.world0)
  = Raise AttributeError /\
  fst (draw_crp_pages
         (Demo.cell_of Demo.NoImages Demo.Steps Demo.Nothing Demo.Nothing
            [VInt 1; VInt 2] [VInt 0] [VInt 0])
         [VInt 1; VInt 2] [VInt 0] [VInt 0] [] [] [] true false
         Demo.p0 Demo.world0)
  <> Ok (empty_Processed, 0%nat).
Proof.
  split; [vm_compute; reflexivity|].
  split; [vm_compute; reflexivity|vm_compute; discriminate].
Qed.

(** C9, an instance: the Seed axis on -1, 5, [None]: the first and the
    third value are drawn, the second stays. *)
Lemma fix_axis_seeds_spec_witness :
  let opt := Demo.option Demo.Renders Demo.Seed in
  let xs := [VInt (-1); VInt 5; VNone] in
  opt_label opt = "Seed" /\
  exists fixed d0 d2,
    fst (fix_unless_kept (Demo.api Demo.Renders) false opt xs Demo.world0)
    = Ok fixed /\
    fixed = [VInt d0; VInt 5; VInt d2] /\
    0 <= d0 < 2 ^ 32 - 2 /\ 0 <= d2 < 2 ^ 32 - 2.
Proof.
  intros opt xs.
  assert (Hl : opt_label opt = "Seed") by reflexivity.
  split; [exact Hl|].
  destruct (@fix_axis_seeds_spec nat (Demo.api Demo.Renders) opt xs
              Demo.shared0 O [] [])
    as (_ & _ & T).
  destruct (T (or_introl Hl)) as (fixed & Hrun & Hlen & _ & Hat).
  destruct (proj1 (Hat 0%nat (VInt (-1)) eq_refl)
              (or_intror (or_intror (or_introl eq_refl))))
    as (d0 & _ & H0 & B0).
  destruct (proj1 (Hat 2%nat VNone eq_refl) (or_introl eq_refl))
    as (d2 & _ & H2 & B2).
  assert (H1 : nth_error fixed 1 = Some (VInt 5)).
  { apply (proj2 (Hat 1%nat (VInt 5) eq_refl)); try discriminate. }
  exists fixed, (d0 mod 4294967294), (d2 mod 4294967294).
  split; [unfold Demo.world0; now rewrite Hrun|].
  split; [|split; assumption].
  destruct fixed as [|a [|b [|c [|? ?]]]]; try discriminate Hlen.
  cbn in H0, H1, H2. congruence.
Defined.

(** * Further properties of the script *)

(** ** Validators and axis functions agree *)

Section ValidatedFacts.

Variable Host : Type.
Variable api : host_api Host.

Lemma confirmed_sampler q xs x :
  confirm_samplers api q xs = Ok tt -> In x xs ->
  exists name sampler_name,
    x = VStr name /\
    samplers_map api (PyStr.lower name) = Some sampler_name.
Proof.
  induction xs as [|y xs IH]; intros Hc Hin; [contradiction|].
  destruct y; cbn in Hc; try discriminate.
  destruct (samplers_map api (PyStr.lower s)) as [sn|] eqn:E; [|discriminate].
  destruct Hin as [<-|Hin]; [eauto|now apply IH].
Qed.

Lemma confirmed_checkpoint q xs x :
  confirm_checkpoints api q xs = Ok tt -> In x xs ->
  exists name info,
    x = VStr name /\ get_closet_checkpoint_match api name = Some info.
Proof.
  induction xs as [|y xs IH]; intros Hc Hin; [contradiction|].
  destruct y; cbn in Hc; try discriminate.
  destruct (get_closet_checkpoint_match api s) as [i|] eqn:E; [|discriminate].
  destruct Hin as [<-|Hin]; [eauto|now apply IH].
Qed.

Lemma confirmed_hypernetwork q xs x :
  confirm_hypernetworks api q xs = Ok tt -> In x xs ->
  exists name,
    x = VStr name /\
    (names_no_hypernetwork name = true \/
     no_name (find_closest_hypernetwork_name api name) = false).
Proof.
  induction xs as [|y xs IH]; intros Hc Hin; [contradiction|].
  destruct y; cbn in Hc; try discriminate.
  destruct (names_no_hypernetwork s) eqn:En.
  - destruct Hin as [<-|Hin]; [eauto|now apply IH].
  - destruct (no_name (find_closest_hypernetwork_name api s)) eqn:E;
      [discriminate|].
    destruct Hin as [<-|Hin]; [eauto|now apply IH].
Qed.

(** X1. A value list that passed the validator of its option (Sampler,
    Checkpoint name, Hypernetwork) never makes the option's axis function
    raise: every value of the list is applied to a cell's request without
    an exception. For a sampler the request's [sampler_name] becomes the
    name registered under the lower-cased value. *)
Theorem confirmed_values_apply (opt : AxisOption Host) (cf : confirm_fn)
  (q p : Request) (xs : list value) (x : value) (w : World Host) :
  In opt (axis_options api) -> opt_confirm opt = Some cf ->
  cf q xs = Ok tt -> In x xs ->
  is_ok (fst (opt_apply opt p x xs w)) = true /\
  (opt_label opt = "Sampler" ->
   exists name sampler_name,
     x = VStr name /\
     samplers_map api (PyStr.lower name) = Some sampler_name /\
     opt_apply opt p x xs w
     = (Ok (setattr p "sampler_name" (VStr sampler_name)), w)).
Proof.
  intros Hin Hc Hok Hx. unfold axis_options in Hin. cbn [In] in Hin.
  repeat (destruct Hin as [<-|Hin]; [cbn in Hc; try discriminate|]);
    try contradiction;
    injection Hc as <-; cbn [opt_apply opt_label].
  - destruct (confirmed_sampler _ _ _ Hok Hx) as (name & sn & -> & Hs).
    unfold apply_sampler. rewrite Hs. split; [reflexivity|].
    intros _. exists name, sn. auto.
  - destruct (confirmed_checkpoint _ _ _ Hok Hx) as (name & info & -> & Hi).
    unfold apply_checkpoint. rewrite Hi. split; [reflexivity|discriminate].
  - destruct (confirmed_hypernetwork _ _ _ Hok Hx) as (name & -> & Hn).
    unfold apply_hypernetwork. split; [|discriminate].
    destruct (names_no_hypernetwork name); [reflexivity|].
    destruct Hn as [Hn| ->]; [discriminate|reflexivity].
Qed.

End ValidatedFacts.

(** ** [str.replace] and attributes *)

Module ReplaceFacts.
Import PyStr StrFacts.
Local Open Scope string_scope.

Lemma starts_with_split pre s :
  starts_with pre s = true -> s = pre ++ drop (String.length pre) s.
Proof.
  revert s. induction pre as [|a pre IH]; intros s H; [reflexivity|].
  destruct s as [|b s]; [discriminate|].
  cbn [starts_with] in H. apply andb_prop in H as [Hab Hs].
  apply Ascii.eqb_eq in Hab. subst b.
  cbn [append String.length drop]. f_equal. now apply IH.
Qed.

Lemma length_drop n s : (String.length (drop n s) <= String.length s)%nat.
Proof.
  revert s. induction n as [|n IH]; intros s; [reflexivity|].
  destruct s as [|c s]; [reflexivity|]. cbn [drop String.length].
  specialize (IH s). lia.
Qed.

(** Passing over the rest of an occurrence is dropping it. *)
Lemma replace_go_skip old new : forall s k,
  replace_go old new k s = replace_go old new 0 (drop k s).
Proof.
  induction s as [|c s IH]; intros k.
  - destruct k; reflexivity.
  - destruct k as [|k]; [reflexivity|]. cbn [replace_go drop]. apply IH.
Qed.

Lemma replace_go_same a old : forall n s,
  (String.length s <= n)%nat ->
  replace_go (String a old) (String a old) 0 s = s.
Proof.
  induction n as [|n IH]; intros s Hn.
  - destruct s; [reflexivity|cbn in Hn; lia].
  - destruct s as [|c s]; [reflexivity|]. cbn [replace_go].
    cbn [String.length] in Hn.
    destruct (starts_with (String a old) (String c s)) eqn:E.
    + rewrite replace_go_skip.
      cbn [starts_with] in E. apply andb_prop in E as [Hac Hs].
      apply Ascii.eqb_eq in Hac. subst c.
      apply starts_with_split in Hs.
      cbn [String.length Nat.sub append]. rewrite Nat.sub_0_r.
      rewrite IH by (pose proof (length_drop (String.length old) s); lia).
      now rewrite <- Hs.
    + f_equal. apply IH. lia.
Qed.

Lemma intersperse_empty s : intersperse "" s = s.
Proof. induction s as [|c s IH]; cbn; congruence. Qed.

(** Replacing a text by itself changes nothing. *)
Lemma replace_same s old : replace s old old = s.
Proof.
  unfold replace. destruct old as [|a old]; cbn [is_empty].
  - apply intersperse_empty.
  - now apply replace_go_same with (String.length s).
Qed.

Lemma contains_tail sub c s :
  contains sub (String c s) = false ->
  starts_with sub (String c s) = false /\ contains sub s = false.
Proof. cbn [contains]. intros H. now apply orb_false_elim in H. Qed.

(** Replacing a text that does not occur changes nothing. *)
Lemma replace_absent s old new :
  contains old s = false -> replace s old new = s.
Proof.
  unfold replace. destruct old as [|a old]; cbn [is_empty].
  - destruct s; discriminate.
  - induction s as [|c s IH]; intros H; [reflexivity|].
    apply contains_tail in H as [H1 H2].
    cbn [replace_go]. rewrite H1. f_equal. now apply IH.
Qed.

End ReplaceFacts.

(** ** Attributes of a request *)

Module AttrFacts.

Lemma setattr_same (p : Request) name x :
  getattr p name = x -> In name (map fst p) -> setattr p name x = p.
Proof.
  intros H Hin. induction p as [|[k v] p IH]; [contradiction|].
  cbn [getattr setattr] in *. destruct (String.eqb k name) eqn:E.
  - now subst.
  - f_equal. apply IH; [assumption|].
    destruct Hin as [Hk|Hin]; [|assumption].
    cbn in Hk. subst. now rewrite String.eqb_refl in E.
Qed.

Lemma getattr_setattr (p : Request) name x :
  getattr (setattr p name x) name = x.
Proof.
  induction p as [|[k v] p IH]; cbn [setattr getattr].
  - now rewrite String.eqb_refl.
  - destruct (String.eqb k name) eqn:E; cbn [getattr]; now rewrite E.
Qed.

Lemma getattr_setattr_other (p : Request) name name' x :
  name <> name' -> getattr (setattr p name x) name' = getattr p name'.
Proof.
  intros Hne. induction p as [|[k v] p IH]; cbn [setattr getattr].
  - destruct (String.eqb name name') eqn:E; [|reflexivity].
    apply String.eqb_eq in E. contradiction.
  - destruct (String.eqb k name) eqn:E; cbn [getattr].
    + apply String.eqb_eq in E. subst k.
      destruct (String.eqb name name') eqn:E'; [|reflexivity].
      apply String.eqb_eq in E'. contradiction.
    + destruct (String.eqb k name'); [reflexivity|exact IH].
Qed.

(** An attribute that holds a value other than [None] is present. *)
Lemma getattr_present (p : Request) name :
  getattr p name <> VNone -> In name (map fst p).
Proof.
  induction p as [|[k v] p IH]; cbn [getattr map In fst]; [congruence|].
  destruct (String.eqb k name) eqn:E.
  - apply String.eqb_eq in E. auto.
  - auto.
Qed.

End AttrFacts.

Section PromptReplaceFacts.

Import PyStr ReplaceFacts AttrFacts.

Variable Host : Type.

(** X2. The first value of a Prompt S/R axis is the text that is searched
    for: applied to a cell, it replaces itself and leaves the request as
    it was, so the first cell of such an axis renders the prompts as
    given. Any other value leaves a prompt in which the searched text does
    not occur as it was, and the other prompt is the one replaced. *)
Theorem first_value_keeps_request (p : Request) (pr np tok : string)
  (xs : list value) (w : World Host) :
  getattr p "prompt" = VStr pr ->
  getattr p "negative_prompt" = VStr np ->
  contains tok pr || contains tok np = true ->
  apply_prompt p (VStr tok) (VStr tok :: xs) w = (Ok p, w) /\
  (forall x,
      exists p',
        apply_prompt p (VStr x) (VStr tok :: xs) w = (Ok p', w) /\
        getattr p' "prompt" = VStr (replace pr tok x) /\
        getattr p' "negative_prompt" = VStr (replace np tok x) /\
        (contains tok pr = false -> getattr p' "prompt" = VStr pr) /\
        (contains tok np = false -> getattr p' "negative_prompt" = VStr np) /\
        (forall name, name <> "prompt" -> name <> "negative_prompt" ->
                      getattr p' name = getattr p name)).
Proof.
  intros Hp Hn Hc.
  assert (Hgo : forall x,
    apply_prompt p (VStr x) (VStr tok :: xs) w
    = (Ok (setattr (setattr p "prompt" (VStr (replace pr tok x)))
             "negative_prompt" (VStr (replace np tok x))), w)).
  { intros x. unfold apply_prompt. rewrite Hp, Hn.
    destruct (contains tok pr), (contains tok np);
      try discriminate; reflexivity. }
  split.
  - rewrite Hgo, !replace_same.
    rewrite (@setattr_same p "prompt" (VStr pr))
      by (try assumption; apply getattr_present; rewrite Hp; discriminate).
    rewrite (@setattr_same p "negative_prompt" (VStr np))
      by (try assumption; apply getattr_present; rewrite Hn; discriminate).
    reflexivity.
  - intros x. eexists. split; [apply Hgo|].
    assert (H1 : getattr
                   (setattr (setattr p "prompt" (VStr (replace pr tok x)))
                      "negative_prompt" (VStr (replace np tok x))) "prompt"
                 = VStr (replace pr tok x)).
    { rewrite getattr_setattr_other by discriminate. apply getattr_setattr. }
    assert (H2 : getattr
                   (setattr (setattr p "prompt" (VStr (replace pr tok x)))
                      "negative_prompt" (VStr (replace np tok x)))
                   "negative_prompt"
                 = VStr (replace np tok x)) by apply getattr_setattr.
    split; [exact H1|]. split; [exact H2|]. split; [|split].
    + intros Ha. now rewrite H1, replace_absent.
    + intros Ha. now rewrite H2, replace_absent.
    + intros name Hn1 Hn2.
      rewrite !getattr_setattr_other by congruence. reflexivity.
Qed.

End PromptReplaceFacts.

(** ** [itertools.permutations] *)

Module PermFacts.
Import Itertools.

Section Perms.

Variable A : Type.

Lemma selections_spec (xs : list A) x rest :
  In (x, rest) (selections xs) ->
  Permutation xs (x :: rest) /\ S (List.length rest) = List.length xs.
Proof.
  revert x rest. induction xs as [|y xs IH]; intros x rest H; [contradiction|].
  cbn [selections] in H. destruct H as [H|H].
  - injection H as <- <-. split; reflexivity.
  - apply in_map_iff in H as ([x' rest'] & H & Hin).
    cbn [fst snd] in H. injection H as <- <-.
    apply IH in Hin as [Hp Hl]. split.
    + rewrite Hp. apply perm_swap.
    + cbn [List.length]. now rewrite Hl.
Qed.

Lemma length_selections (xs : list A) :
  List.length (selections xs) = List.length xs.
Proof.
  induction xs as [|y xs IH]; [reflexivity|].
  cbn [selections List.length]. now rewrite length_map, IH.
Qed.

(** Every element can be the one selected. *)
Lemma selections_complete (xs : list A) x :
  In x xs -> exists rest, In (x, rest) (selections xs).
Proof.
  induction xs as [|y xs IH]; intros H; [contradiction|].
  destruct H as [->|H].
  - exists xs. now left.
  - destruct (IH H) as (rest & Hr). exists (y :: rest). right.
    apply in_map_iff. exists (x, rest). auto.
Qed.

Lemma length_flat_map_const {B C} (f : B -> list C) (l : list B) (c : nat) :
  (forall b, In b l -> List.length (f b) = c) ->
  List.length (flat_map f l) = (List.length l * c)%nat.
Proof.
  induction l as [|b l IH]; intros H; [reflexivity|].
  cbn [flat_map List.length]. rewrite length_app, IH, H.
  - reflexivity.
  - now left.
  - intros b' Hb. apply H. now right.
Qed.

Lemma length_perms : forall n (xs : list A),
  List.length xs = n -> List.length (perms n xs) = fact n.
Proof.
  induction n as [|n IH]; intros xs Hn; [reflexivity|].
  cbn [perms fact].
  rewrite (@length_flat_map_const _ _ _ _ (fact n)).
  - rewrite length_selections, Hn. reflexivity.
  - intros [x rest] Hin. rewrite length_map. apply IH.
    apply selections_spec in Hin as [_ Hl]. cbn [fst snd]. lia.
Qed.

Lemma perms_sound : forall n (xs o : list A),
  List.length xs = n -> In o (perms n xs) -> Permutation xs o.
Proof.
  induction n as [|n IH]; intros xs o Hn H.
  - destruct xs; [|discriminate]. destruct H as [<-|[]]. constructor.
  - cbn [perms] in H. apply in_flat_map in H as ([x rest] & Hsel & H).
    apply in_map_iff in H as (o' & <- & Ho').
    pose proof (selections_spec _ _ _ Hsel) as [Hp Hl].
    cbn [fst snd] in *. rewrite Hp. constructor.
    apply IH; [lia|assumption].
Qed.

Lemma perms_complete : forall n (xs o : list A),
  List.length xs = n -> Permutation xs o -> In o (perms n xs).
Proof.
  induction n as [|n IH]; intros xs o Hn H.
  - destruct xs; [|discriminate]. apply Permutation_nil in H. subst. now left.
  - destruct o as [|y o].
    { apply Permutation_sym, Permutation_nil in H. subst. discriminate. }
    assert (Hy : In y xs).
    { apply Permutation_in with (y :: o); [now symmetry|now left]. }
    destruct (selections_complete _ _ Hy) as (rest & Hsel).
    pose proof (selections_spec _ _ _ Hsel) as [Hp Hl].
    cbn [perms]. apply in_flat_map. exists (y, rest). split; [assumption|].
    cbn [fst snd]. apply in_map. apply IH; [lia|].
    apply Permutation_cons_inv with y. now rewrite <- Hp.
Qed.

Lemma perms_first : forall n (xs : list A),
  List.length xs = n -> hd_error (perms n xs) = Some xs.
Proof.
  induction n as [|n IH]; intros xs Hn.
  - destruct xs; [reflexivity|discriminate].
  - destruct xs as [|x xs]; [discriminate|].
    cbn [perms selections flat_map fst snd].
    injection Hn as Hn. specialize (IH xs Hn).
    destruct (perms n xs) as [|o os]; [discriminate|].
    injection IH as ->. reflexivity.
Qed.

End Perms.

End PermFacts.

Section OrderFacts.

Import Itertools PermFacts.

Variable Host : Type.
Variable api : host_api Host.

(** X3. A Prompt order axis (type [str_permutations]) expands the tokens
    of its value text, each stripped, to all their orderings: n! tuples
    for n tokens, the first of them the tokens in the order given, and a
    tuple occurs exactly when it is a rearrangement of the tokens. *)
Theorem prompt_order_orderings (p : Request) (opt : AxisOption Host)
  (vals : string) (fields : list string) :
  In opt (axis_options api) -> opt_type opt = TStrPermutations ->
  Csv.fields_of vals = Ok fields ->
  let tokens := map PyStr.strip fields in
  exists orders,
    process_axis p opt vals = Ok (map VTuple orders) /\
    List.length orders = fact (List.length tokens) /\
    hd_error orders = Some tokens /\
    (forall o, In o orders <-> Permutation tokens o).
Proof.
  intros Hin Ht Hf tokens.
  exists (permutations tokens).
  split; [|split; [|split]].
  - unfold axis_options in Hin. cbn [In] in Hin.
    repeat (destruct Hin as [<-|Hin]; [cbn in Ht; try discriminate|]);
      try contradiction.
    unfold process_axis, typed_values. cbn [opt_label opt_type opt_confirm].
    change (String.eqb "Prompt order" "Nothing") with false. cbv iota.
    rewrite Hf. cbn [obind]. fold tokens.
    generalize (permutations tokens). intros l.
    induction l as [|o l IH]; [reflexivity|].
    cbn [map omap convert obind] in *.
    destruct (omap (convert TStrPermutations) (map VTuple l)); [|discriminate].
    cbn [obind] in *. injection IH as ->. reflexivity.
  - now apply length_perms.
  - now apply perms_first.
  - intros o. split.
    + now apply perms_sound.
    + now apply perms_complete.
Qed.

End OrderFacts.

(** ** [str.find] and slices *)

Module FindFacts.
Import PyStr StrFacts.
Local Open Scope string_scope.

Lemma find_from_shift sub : forall s i,
  0 <= i ->
  (find_from sub s i = -1 /\ find_from sub s 0 = -1) \/
  (0 <= find_from sub s 0 /\ find_from sub s i = i + find_from sub s 0).
Proof.
  induction s as [|c s IH]; intros i Hi; cbn [find_from].
  - destruct (starts_with sub ""); [right|left]; split; lia.
  - destruct (starts_with sub (String c s)); [right; split; lia|].
    destruct (IH (i + 1) ltac:(lia)) as [[H1 H2]|[H1 H2]];
      destruct (IH (0 + 1) ltac:(lia)) as [[H3 H4]|[H3 H4]]; lia.
Qed.

(** The first occurrence in a text, when it lies behind a prefix, is the
    first occurrence in what follows the prefix. *)
Lemma find_suffix sub : forall pre rest k,
  0 <= k -> find (pre ++ rest) sub = len pre + k -> find rest sub = k.
Proof.
  unfold find, len. induction pre as [|c pre IH]; intros rest k Hk H.
  - cbn in H. exact H.
  - cbn [append find_from String.length] in H.
    destruct (starts_with sub (String c (pre ++ rest))); [lia|].
    destruct (@find_from_shift sub (pre ++ rest) (0 + 1) ltac:(lia))
      as [[H1 H2]|[H1 H2]]; [lia|].
    apply IH; [assumption|]. lia.
Qed.

Lemma drop_append (a b : string) : drop (String.length a) (a ++ b) = b.
Proof. induction a; cbn; congruence. Qed.

Lemma clamp_inside s n :
  (n <= String.length s)%nat -> clamp s (Z.of_nat n) = n.
Proof.
  intros H. unfold clamp, len.
  destruct (Z.of_nat n <? 0)%Z eqn:E; [apply Z.ltb_lt in E; lia|].
  rewrite Z.max_l, Z.min_l by lia. apply Nat2Z.id.
Qed.

Lemma slice_to_gap g rest : slice_to (g ++ rest) (len g) = g.
Proof.
  unfold slice_to, len. rewrite clamp_inside.
  - apply take_append.
  - rewrite length_append. lia.
Qed.

Lemma slice_from_token g t rest :
  slice_from (g ++ t ++ rest) (len g + len t) = rest.
Proof.
  unfold slice_from, len. rewrite <- Nat2Z.inj_add, clamp_inside.
  - rewrite <- length_append, <- append_assoc. apply drop_append.
  - rewrite !length_append. lia.
Qed.

End FindFacts.

(** ** The stable sort of the places *)

Module SortFacts.
Import Spec.

Lemma insert_sorted (a : Z * string) : forall l,
  StronglySorted earlier l -> Forall (fun b => fst b <> fst a) l ->
  StronglySorted earlier (insert_by_pos a l) /\
  Permutation (a :: l) (insert_by_pos a l).
Proof.
  induction l as [|u l IH]; intros Hs Hd; cbn [insert_by_pos].
  - split; [repeat constructor|reflexivity].
  - apply StronglySorted_inv in Hs as [Hs Hu].
    apply Forall_cons_iff in Hd as [Hne Hd].
    destruct (fst a <? fst u) eqn:E.
    + apply Z.ltb_lt in E. split; [|reflexivity].
      constructor; [now constructor|].
      constructor; [exact E|].
      apply Forall_impl with (2 := Hu). unfold earlier. intros b Hb. lia.
    + apply Z.ltb_ge in E. destruct (IH Hs Hd) as [IH1 IH2]. split.
      * constructor; [exact IH1|].
        apply Forall_forall. intros b Hb.
        apply Permutation_in with (l' := a :: l) in Hb;
          [|now symmetry].
        destruct Hb as [<-|Hb].
        -- unfold earlier. lia.
        -- now apply (proj1 (Forall_forall _ _) Hu).
      * rewrite perm_swap. now constructor.
Qed.

Lemma fold_insert_sorted : forall l acc,
  StronglySorted earlier acc -> NoDup (map fst (l ++ acc)) ->
  StronglySorted earlier (fold_left (fun acc t => insert_by_pos t acc) l acc) /\
  Permutation (l ++ acc)
    (fold_left (fun acc t => insert_by_pos t acc) l acc).
Proof.
  induction l as [|a l IH]; intros acc Hs Hd; cbn [fold_left app].
  - split; [assumption|reflexivity].
  - pose proof Hd as Hd'. cbn [app map] in Hd'.
    apply NoDup_cons_iff in Hd' as [Hni _].
    assert (Hne : Forall (fun b => fst b <> fst a) acc).
    { apply Forall_forall. intros b Hb E. apply Hni.
      rewrite <- E. apply in_map, in_or_app. now right. }
    destruct (@insert_sorted a acc Hs Hne) as [H1 H2].
    assert (Hp : Permutation ((a :: l) ++ acc) (l ++ insert_by_pos a acc)).
    { rewrite <- H2. apply Permutation_middle. }
    destruct (IH (insert_by_pos a acc) H1) as [H3 H4].
    + apply Permutation_NoDup with (2 := Hd). now apply Permutation_map.
    + split; [assumption|]. now rewrite <- H4.
Qed.

Lemma sort_by_pos_sorted l :
  NoDup (map fst l) ->
  StronglySorted earlier (sort_by_pos l) /\ Permutation l (sort_by_pos l).
Proof.
  intros Hd. unfold sort_by_pos.
  destruct (@fold_insert_sorted l []) as [H1 H2].
  - constructor.
  - now rewrite app_nil_r.
  - split; [assumption|]. now rewrite app_nil_r in H2.
Qed.

(** Two lists in strict order with the same elements are the same list. *)
Lemma sorted_unique : forall l1 l2,
  StronglySorted earlier l1 -> StronglySorted earlier l2 ->
  Permutation l1 l2 -> l1 = l2.
Proof.
  induction l1 as [|a l1 IH]; intros l2 H1 H2 Hp.
  - apply Permutation_nil in Hp. now subst.
  - destruct l2 as [|b l2].
    { apply Permutation_sym, Permutation_nil in Hp. discriminate. }
    apply StronglySorted_inv in H1 as [H1 Ha].
    apply StronglySorted_inv in H2 as [H2 Hb].
    assert (E : a = b).
    { assert (Hin1 : In a (b :: l2))
        by (apply Permutation_in with (1 := Hp); now left).
      assert (Hin2 : In b (a :: l1))
        by (apply Permutation_in with (1 := Permutation_sym Hp); now left).
      destruct Hin1 as [->|Hin1]; [reflexivity|].
      destruct Hin2 as [->|Hin2]; [reflexivity|].
      pose proof (proj1 (Forall_forall _ _) Hb _ Hin1) as L1.
      pose proof (proj1 (Forall_forall _ _) Ha _ Hin2) as L2.
      unfold earlier in *. lia. }
    subst b. f_equal. apply IH; try assumption.
    now apply Permutation_cons_inv with a.
Qed.

Lemma sorted_nodup l : StronglySorted earlier l -> NoDup (map fst l).
Proof.
  induction 1 as [|a l Hs IH Ha]; cbn [map]; constructor; [|assumption].
  intros Hin. apply in_map_iff in Hin as (b & E & Hb).
  pose proof (proj1 (Forall_forall _ _) Ha _ Hb) as L.
  unfold earlier in L. lia.
Qed.

(** Sorting any rearrangement of a strictly ordered list gives the list
    back. *)
Lemma sort_by_pos_perm l1 l2 :
  StronglySorted earlier l1 -> Permutation l1 l2 -> sort_by_pos l2 = l1.
Proof.
  intros Hs Hp.
  assert (Hd : NoDup (map fst l2)).
  { apply Permutation_NoDup with (map fst l1);
      [now apply Permutation_map|now apply sorted_nodup]. }
  destruct (@sort_by_pos_sorted l2 Hd) as [H1 H2].
  symmetry. apply sorted_unique; try assumption.
  now rewrite Hp.
Qed.

End SortFacts.

Section PromptOrderFacts.

Import PyStr Spec StrFacts FindFacts SortFacts.
Local Open Scope string_scope.

Variable Host : Type.

Lemma slots_sorted pr : forall gaps toks off,
  0 <= off -> List.length gaps = List.length toks ->
  slots_found pr off gaps toks ->
  StronglySorted earlier (map (placed pr) toks) /\
  Forall (fun a => off <= fst a) (map (placed pr) toks).
Proof.
  induction gaps as [|g gaps IH]; intros [|t toks] off Hoff Hlen H;
    try discriminate; cbn [map].
  - split; constructor.
  - cbn [slots_found] in H. destruct H as (Hne & Hf & H).
    injection Hlen as Hlen.
    assert (Hg : 0 <= len g) by (unfold len; lia).
    assert (Ht : 0 < len t).
    { unfold len. destruct t; [contradiction|]. cbn [String.length]. lia. }
    destruct (IH toks (off + len g + len t) ltac:(lia) Hlen H) as [H1 H2].
    split.
    + constructor; [assumption|].
      apply Forall_impl with (2 := H2). unfold earlier, placed. cbn [fst].
      intros a Ha. lia.
    + constructor; [unfold placed; cbn [fst]; lia|].
      apply Forall_impl with (2 := H2). intros a Ha. lia.
Qed.

Lemma split_tokens_slots pr : forall gaps toks pre last,
  List.length gaps = List.length toks ->
  pr = pre ++ interleave gaps toks last ->
  slots_found pr (len pre) gaps toks ->
  split_tokens toks (interleave gaps toks last) = (gaps, last).
Proof.
  induction gaps as [|g gaps IH]; intros [|t toks] pre last Hlen Hpr H;
    try discriminate; [reflexivity|].
  cbn [slots_found] in H. destruct H as (Hne & Hf & H).
  injection Hlen as Hlen. cbn [interleave split_tokens] in *.
  assert (Hfind : find (g ++ t ++ interleave gaps toks last) t = len g).
  { apply find_suffix with pre; [unfold len; lia|]. now rewrite <- Hpr. }
  rewrite Hfind, slice_to_gap, slice_from_token.
  rewrite (IH toks (pre ++ g ++ t) last Hlen).
  - reflexivity.
  - now rewrite Hpr, !append_assoc.
  - unfold len in *. rewrite !length_append, !Nat2Z.inj_add.
    now rewrite Z.add_assoc.
Qed.

Lemma rebuild_interleave : forall gaps x last,
  List.length gaps = List.length x ->
  rebuild gaps x ++ last = interleave gaps x last.
Proof.
  induction gaps as [|g gaps IH]; intros [|t x] last Hlen;
    try discriminate; [reflexivity|].
  injection Hlen as Hlen. cbn [rebuild interleave].
  now rewrite !append_assoc, IH.
Qed.

(** X15. Prompt order puts the tokens into the places where tokens stand
    in the prompt, in the order of the axis value: when each token is
    first found at its own place, the tokens of the prompt are replaced,
    place by place, by the tokens of the tuple, and the text between them
    stays. The ordering in which the tokens already stand leaves the
    prompt as it is. *)
Theorem prompt_order_rearranges (p : Request)
  (gaps toks x : list string) (last : string) (xs : list value)
  (w : World Host) :
  getattr p "prompt" = VStr (interleave gaps toks last) ->
  List.length gaps = List.length toks ->
  slots_found (interleave gaps toks last) 0 gaps toks ->
  Permutation toks x ->
  apply_order p (VTuple x) xs w
  = (Ok (setattr p "prompt" (VStr (interleave gaps x last))), w) /\
  apply_order p (VTuple toks) xs w
  = (Ok (setattr p "prompt" (VStr (interleave gaps toks last))), w).
Proof.
  intros Hp Hlen Hslots Hperm.
  assert (Hgo : forall y, Permutation toks y ->
    apply_order p (VTuple y) xs w
    = (Ok (setattr p "prompt" (VStr (interleave gaps y last))), w)).
  { intros y Hy. unfold apply_order. rewrite Hp.
    set (pr := interleave gaps toks last) in *.
    destruct (@slots_sorted pr gaps toks 0 (Z.le_refl 0) Hlen Hslots)
      as [Hsorted _].
    change (map (fun token => (find pr token, token)) y)
      with (map (placed pr) y).
    rewrite (@sort_by_pos_perm (map (placed pr) toks) (map (placed pr) y))
      by (try assumption; now apply Permutation_map).
    rewrite map_map. unfold placed at 1. cbn [snd]. rewrite map_id.
    unfold pr at 1.
    rewrite (@split_tokens_slots pr gaps toks "" last Hlen eq_refl Hslots).
    rewrite rebuild_interleave; [reflexivity|].
    rewrite Hlen. now apply Permutation_length. }
  split; [now apply Hgo|]. now apply Hgo.
Qed.

End PromptOrderFacts.

(** ** Signed steps *)

Module SignedFacts.
Import PyStr PyNum Re Patterns Spec StrFacts ReFacts PyFacts.
Local Open Scope string_scope.
Local Open Scope re_scope.

Lemma sign_cases sg : is_sign sg = true -> sg = "+"%char \/ sg = "-"%char.
Proof.
  unfold is_sign. intros H. apply orb_prop in H as [H|H];
    apply Ascii.eqb_eq in H; auto.
Qed.

(** START-END(STEP) with the step's sign written: the signed step is the
    third group. *)
Lemma re_range_signed_step sg a b st :
  is_sign sg = true ->
  is_digits a = true -> is_digits b = true -> is_digits st = true ->
  fullmatch re_range (a ++ "-" ++ b ++ "(" ++ String sg st ++ ")")
  = Some [(3%nat, String sg st); (2%nat, b); (1%nat, a)].
Proof.
  intros Hsg Ha Hb Hst. unfold re_range.
  apply range_of_int_prefix; try assumption; [reflexivity|].
  rewrite exec_seq, exec_opt.
  assert (Hsuffix :
    exec step_suffix
      ("(" ++ String sg st ++ ")") [(2%nat, b); (1%nat, a)]
      (fun s1 c1 => exec ws s1 c1 at_end)
    = Some [(3%nat, String sg st); (2%nat, b); (1%nat, a)]).
  { unfold step_suffix. rewrite exec_seq, exec_ws_stops by reflexivity.
    rewrite exec_seq.
    change ("(" ++ String sg st ++ ")")
      with (String "(" (String sg (st ++ ")"))).
    rewrite exec_lit, exec_seq, exec_grp, exec_seq.
    cbn [exec]. rewrite Hsg.
    apply exec_digits; [assumption|reflexivity|].
    change (String sg (st ++ ")")) with (String sg st ++ ")").
    rewrite consumed_append. reflexivity. }
  now rewrite Hsuffix.
Qed.

Lemma py_int_minus d :
  is_digits d = true -> py_int ("-" ++ d) = Ok (- decimal d).
Proof.
  intros H. unfold py_int.
  rewrite strip_plain
    by (cbn [append all_of]; now rewrite (digits_plain _ (is_digits_all _ H))).
  cbn [append split_sign]. change (Ascii.eqb "-" "-") with true. cbv iota.
  rewrite take_digits_all by now apply is_digits_all.
  apply is_digits_cons in H as (c & d' & -> & _ & _). reflexivity.
Qed.

Lemma py_int_signed sg d :
  is_sign sg = true -> is_digits d = true ->
  py_int (String sg d)
  = Ok (if Ascii.eqb sg "-" then - decimal d else decimal d).
Proof.
  intros Hsg Hd. destruct (sign_cases _ Hsg) as [-> | ->].
  - now apply py_int_plus.
  - now apply py_int_minus.
Qed.

(** [len(range(start, end + 1, - step))] for a positive [step]: the terms
    from [start] down that stay above [end + 1]. *)
Lemma range_len_down start end_ step :
  0 < step ->
  let n := range_len start (end_ + 1) (- step) in
  0 <= n /\ (forall i, 0 <= i < n -> end_ + 1 < start - i * step) /\
  start - n * step <= end_ + 1.
Proof.
  intros Hstep. unfold range_len.
  destruct (0 <? - step)%Z eqn:E; [apply Z.ltb_lt in E; lia|].
  rewrite Z.opp_involutive.
  destruct (end_ + 1 <? start)%Z eqn:E1.
  - apply Z.ltb_lt in E1.
    set (d := start - (end_ + 1) - 1).
    pose proof (Z.div_pos d step ltac:(lia) Hstep) as Hq.
    pose proof (Z.mul_div_le d step Hstep) as Hle.
    pose proof (Z.mul_succ_div_gt d step Hstep) as Hgt.
    repeat split; [lia| |nia].
    intros i Hi. nia.
  - apply Z.ltb_ge in E1. repeat split; [lia| |lia]. intros i Hi. lia.
Qed.

End SignedFacts.

Section SignedStepFacts.

Import PyStr PyNum Re Patterns Spec StrFacts ReFacts PyFacts SignedFacts.
Local Open Scope string_scope.

Variable Host : Type.
Variable api : host_api Host.
Variable p : Request.

Lemma expand_int_signed sg a b st :
  is_sign sg = true ->
  is_digits a = true -> is_digits b = true -> is_digits st = true ->
  expand_int (a ++ "-" ++ b ++ "(" ++ String sg st ++ ")")
  = (r <-? py_range (decimal a) (decimal b + 1)
             (if Ascii.eqb sg "-" then - decimal st else decimal st) ;
     Ok (map VInt r)).
Proof.
  intros Hsg Ha Hb Hst. unfold expand_int, group_int.
  rewrite re_range_signed_step by assumption. cbn [group Nat.eqb].
  rewrite !py_int_digits, py_int_signed by assumption. reflexivity.
Qed.

Lemma signed_text_plain sg a b st :
  is_sign sg = true ->
  is_digits a = true -> is_digits b = true -> is_digits st = true ->
  all_of plain (a ++ "-" ++ b ++ "(" ++ String sg st ++ ")") = true /\
  a ++ "-" ++ b ++ "(" ++ String sg st ++ ")" <> "".
Proof.
  intros Hsg Ha Hb Hst. apply range_text_plain; try assumption.
  cbn [append all_of]. rewrite all_of_append.
  rewrite (digits_plain _ (is_digits_all _ Hst)).
  destruct (sign_cases _ Hsg) as [-> | ->]; reflexivity.
Qed.

(** X4. A range with a negative step, START-END(-STEP), runs from START
    downwards in steps of STEP and stops while still above END + 1: the
    bound handed to [range] is END + 1 whatever the sign of the step, so
    neither END nor END + 1 is ever among the values ("5-1(-2)" gives 5, 3
    and "3-1(-1)" gives 3 alone). *)
Theorem descending_range_stops_short (opt : AxisOption Host)
  (a b st : string) :
  In opt (axis_options api) -> opt_type opt = TInt ->
  is_digits a = true -> is_digits b = true ->
  is_digits st = true -> 0 < decimal st ->
  process_axis p opt "5-1(-2)" = Ok (map VInt [5; 3]) /\
  process_axis p opt "3-1(-1)" = Ok (map VInt [3]) /\
  exists xs,
    process_axis p opt (a ++ "-" ++ b ++ "(-" ++ st ++ ")")
    = Ok (map VInt xs) /\
    xs = map (fun i => decimal a - Z.of_nat i * decimal st)
           (seq 0 (List.length xs)) /\
    (forall x, In x xs -> decimal b + 1 < x) /\
    decimal a - Z.of_nat (List.length xs) * decimal st <= decimal b + 1.
Proof.
  intros Hin Ht Ha Hb Hst Hpos. split; [|split].
  - rewrite (process_axis_int_field p Hin Ht)
      by first [reflexivity | discriminate].
    reflexivity.
  - rewrite (process_axis_int_field p Hin Ht)
      by first [reflexivity | discriminate].
    reflexivity.
  - destruct (@signed_text_plain "-"%char a b st eq_refl Ha Hb Hst)
      as [Hp Hn].
    change ("(" ++ String "-" st ++ ")") with ("(-" ++ st ++ ")") in Hp, Hn.
    pose proof (@expand_int_signed "-"%char a b st eq_refl Ha Hb Hst) as He.
    change ("(" ++ String "-" st ++ ")") with ("(-" ++ st ++ ")") in He.
    change (Ascii.eqb "-" "-") with true in He. cbv iota in He.
    rewrite (process_axis_int_field p Hin Ht Hp Hn), He.
    unfold py_range.
    destruct (- decimal st =? 0)%Z eqn:E; [apply Z.eqb_eq in E; lia|].
    cbn [obind]. rewrite omap_convert_ints.
    pose proof (range_len_down (decimal a) (decimal b) Hpos)
      as (Hn0 & Hin' & Hnext).
    set (n := range_len (decimal a) (decimal b + 1) (- decimal st)) in *.
    eexists. split; [reflexivity|].
    rewrite length_map, length_seq.
    split; [|split].
    + apply map_ext. intros i. lia.
    + intros x Hx. apply in_map_iff in Hx as (i & <- & Hi).
      apply in_seq in Hi. specialize (Hin' (Z.of_nat i)). lia.
    + rewrite Z2Nat.id by assumption. exact Hnext.
Qed.

(** X5. A step of zero, with either sign, makes the expansion of an int
    axis raise the [ValueError] of [range]. *)
Theorem zero_step_raises (opt : AxisOption Host) (sg : ascii)
  (a b st : string) :
  In opt (axis_options api) -> opt_type opt = TInt ->
  is_sign sg = true ->
  is_digits a = true -> is_digits b = true ->
  is_digits st = true -> decimal st = 0 ->
  process_axis p opt (a ++ "-" ++ b ++ "(" ++ String sg st ++ ")")
  = Raise (ValueError "range() arg 3 must not be zero").
Proof.
  intros Hin Ht Hsg Ha Hb Hst H0.
  destruct (@signed_text_plain sg a b st Hsg Ha Hb Hst) as [Hp Hn].
  rewrite (process_axis_int_field p Hin Ht Hp Hn).
  rewrite expand_int_signed by assumption.
  rewrite H0. unfold py_range.
  now destruct (Ascii.eqb sg "-").
Qed.

End SignedStepFacts.

(** ** Signed bounds *)

Module SignedBoundFacts.
Import PyStr PyNum Re Patterns Spec StrFacts ReFacts PyFacts SignedFacts.
Local Open Scope string_scope.
Local Open Scope re_scope.

Lemma exec_chr p a s c k :
  exec (Chr p) (String a s) c k = if p a then k s c else None.
Proof. reflexivity. Qed.

Lemma sign_text_cases s :
  sign_text s = true ->
  s = "" \/ exists sg, s = String sg "" /\ is_sign sg = true.
Proof.
  unfold sign_text. intros H.
  apply orb_prop in H as [H|H]; [apply orb_prop in H as [H|H]|];
    apply String.eqb_eq in H; subst; [now left|right..];
    eexists; split; reflexivity.
Qed.

(** A signed integer numeral in front of the input is matched whole. *)
Lemma exec_int_lit_signed sg ds rest c k m :
  is_sign sg = true ->
  is_digits ds = true -> stops is_digit rest = true -> k rest c = Some m ->
  exec int_lit (String sg ds ++ rest) c k = Some m.
Proof.
  intros Hsg H Hrest Hk. unfold int_lit.
  assert (Hin : exec (ws ;; digits) (ds ++ rest) c k = Some m).
  { rewrite exec_seq, exec_ws_stops by now apply stops_digits_space.
    now apply exec_digits. }
  rewrite exec_seq, exec_opt. cbn [append].
  rewrite exec_chr, Hsg. cbv beta. now rewrite Hin.
Qed.

(** A numeral with or without sign. *)
Lemma exec_numeral s ds rest c k m :
  sign_text s = true ->
  is_digits ds = true -> stops is_digit rest = true -> k rest c = Some m ->
  exec int_lit ((s ++ ds) ++ rest) c k = Some m.
Proof.
  intros Hs. destruct (sign_text_cases _ Hs) as [->|(sg & -> & Hsg)].
  - apply exec_int_lit.
  - now apply exec_int_lit_signed.
Qed.

Lemma numeral_stops_space s ds rest :
  sign_text s = true -> is_digits ds = true ->
  stops is_space ((s ++ ds) ++ rest) = true.
Proof.
  intros Hs Hd. destruct (sign_text_cases _ Hs) as [->|(sg & -> & Hsg)].
  - now apply stops_digits_space.
  - destruct (sign_cases _ Hsg) as [-> | ->]; reflexivity.
Qed.

Lemma numeral_plain s ds :
  sign_text s = true -> is_digits ds = true ->
  all_of plain (s ++ ds) = true.
Proof.
  intros Hs Hd. pose proof (digits_plain _ (is_digits_all _ Hd)) as Hp.
  destruct (sign_text_cases _ Hs) as [->|(sg & -> & Hsg)]; [exact Hp|].
  cbn [append all_of]. rewrite Hp.
  destruct (sign_cases _ Hsg) as [-> | ->]; reflexivity.
Qed.

Lemma py_int_numeral s ds :
  sign_text s = true -> is_digits ds = true ->
  py_int (s ++ ds) = Ok (signed_decimal s ds).
Proof.
  intros Hs Hd. destruct (sign_text_cases _ Hs) as [->|(sg & -> & Hsg)].
  - now apply py_int_digits.
  - cbn [append]. rewrite py_int_signed by assumption.
    unfold signed_decimal.
    destruct (sign_cases _ Hsg) as [-> | ->]; reflexivity.
Qed.

(** START-END, each numeral with or without sign, in front of [tail]. *)
Lemma range_of_numerals_prefix suffix sa sb a b tail m :
  sign_text sa = true -> sign_text sb = true ->
  is_digits a = true -> is_digits b = true -> stops is_digit tail = true ->
  exec (Opt suffix ;; ws) tail [(2%nat, sb ++ b); (1%nat, sa ++ a)] at_end
  = Some m ->
  fullmatch (range_of int_lit suffix) ((sa ++ a) ++ "-" ++ (sb ++ b) ++ tail)
  = Some m.
Proof.
  intros Hsa Hsb Ha Hb Htail Hrest. unfold fullmatch, range_of.
  rewrite exec_seq, exec_ws_stops by now apply numeral_stops_space.
  rewrite exec_seq, exec_grp.
  apply exec_numeral; [assumption|assumption|reflexivity|].
  rewrite consumed_append.
  rewrite exec_seq, exec_ws_stops by reflexivity.
  rewrite exec_seq.
  change ("-" ++ (sb ++ b) ++ tail) with (String "-" ((sb ++ b) ++ tail)).
  rewrite exec_lit.
  rewrite exec_seq, exec_ws_stops by now apply numeral_stops_space.
  rewrite exec_seq, exec_grp.
  apply exec_numeral; [assumption|assumption|assumption|].
  rewrite consumed_append. exact Hrest.
Qed.

Lemma re_range_numerals sa sb a b :
  sign_text sa = true -> sign_text sb = true ->
  is_digits a = true -> is_digits b = true ->
  fullmatch re_range ((sa ++ a) ++ "-" ++ (sb ++ b))
  = Some [(2%nat, sb ++ b); (1%nat, sa ++ a)].
Proof.
  intros Hsa Hsb Ha Hb.
  replace ((sa ++ a) ++ "-" ++ (sb ++ b))
    with ((sa ++ a) ++ "-" ++ (sb ++ b) ++ "")
    by now rewrite (append_nil_r (sb ++ b)).
  apply range_of_numerals_prefix; try assumption; reflexivity.
Qed.

End SignedBoundFacts.

Section SignedBoundsFacts.

Import PyStr PyNum Re Patterns Spec StrFacts ReFacts PyFacts SignedFacts
  SignedBoundFacts.
Local Open Scope string_scope.

Variable Host : Type.
Variable api : host_api Host.
Variable p : Request.

(** X16. START and END of a range may each carry a sign: a field such as
    "-2-+2" expands to every integer from the signed START to the signed
    END, here -2, -1, 0, 1, 2, and to no value when START lies above END
    ("5--5"). *)
Theorem signed_bounds_range (opt : AxisOption Host)
  (sa sb a b : string) :
  In opt (axis_options api) -> opt_type opt = TInt ->
  sign_text sa = true -> sign_text sb = true ->
  is_digits a = true -> is_digits b = true ->
  process_axis p opt "-2-+2" = Ok (map VInt [-2; -1; 0; 1; 2]) /\
  process_axis p opt "5--5" = Ok [] /\
  exists xs,
    process_axis p opt ((sa ++ a) ++ "-" ++ (sb ++ b)) = Ok (map VInt xs) /\
    progression_upto (signed_decimal sa a) 1 (signed_decimal sb b) xs /\
    (forall z, In z xs <-> signed_decimal sa a <= z <= signed_decimal sb b).
Proof.
  intros Hin Ht Hsa Hsb Ha Hb. split; [|split].
  - rewrite (process_axis_int_field p Hin Ht)
      by first [reflexivity | discriminate].
    reflexivity.
  - rewrite (process_axis_int_field p Hin Ht)
      by first [reflexivity | discriminate].
    reflexivity.
  - assert (Hplain : all_of plain ((sa ++ a) ++ "-" ++ (sb ++ b)) = true).
    { rewrite all_of_append. cbn [append all_of].
      now rewrite !numeral_plain. }
    assert (Hne : (sa ++ a) ++ "-" ++ (sb ++ b) <> "").
    { destruct (sa ++ a); discriminate. }
    assert (He : expand_int ((sa ++ a) ++ "-" ++ (sb ++ b))
                 = (r <-? py_range (signed_decimal sa a)
                            (signed_decimal sb b + 1) 1 ;
                    Ok (map VInt r))).
    { unfold expand_int, group_int.
      rewrite re_range_numerals by assumption. cbn [group Nat.eqb].
      rewrite !py_int_numeral by assumption. reflexivity. }
    destruct (@process_axis_int_range Host api p opt _ _ _ 1
                Hin Ht Hplain Hne Z.lt_0_1 He)
      as (xs & Hxs & Hprog).
    exists xs. split; [assumption|]. split; [assumption|].
    now apply progression_step_1.
Qed.

End SignedBoundsFacts.

(** ** What a pattern can match at all *)

Module ReAlphabet.
Import PyStr Re Patterns Spec StrFacts ReFacts.
Local Open Scope string_scope.
Local Open Scope re_scope.

Lemma star_alphabet p k s c m :
  star p k s c = Some m ->
  exists pre s1, s = pre ++ s1 /\ all_of p pre = true /\ k s1 c = Some m.
Proof.
  induction s as [|a s IH]; cbn [star].
  - intros H. exists "", "". auto.
  - destruct (p a) eqn:Ea.
    + destruct (star p k s c) eqn:E.
      * intros H. injection H as ->.
        destruct (IH eq_refl) as (pre & s1 & -> & Hp & Hk).
        exists (String a pre), s1. cbn [append all_of]. rewrite Ea. auto.
      * intros H. exists "", (String a s). auto.
    + intros H. exists "", (String a s). auto.
Qed.

(** A match consumes characters of the expression's alphabet only. *)
Lemma exec_alphabet r : forall s c k m,
  exec r s c k = Some m ->
  exists pre s1 c1,
    s = pre ++ s1 /\ all_of (alphabet r) pre = true /\ k s1 c1 = Some m.
Proof.
  induction r as [|p|r1 IH1 r2 IH2|r1 IH1|p|n0 r1 IH1]; intros s c k m H.
  - exists "", s, c. auto.
  - cbn [exec] in H. destruct s as [|a s]; [discriminate|].
    destruct (p a) eqn:Ea; [|discriminate].
    exists (String a ""), s, c. cbn [append all_of alphabet]. rewrite Ea. auto.
  - rewrite exec_seq in H.
    apply IH1 in H as (pre1 & s1 & c1 & -> & Hp1 & H).
    apply IH2 in H as (pre2 & s2 & c2 & -> & Hp2 & H).
    exists (pre1 ++ pre2), s2, c2. rewrite append_assoc.
    split; [reflexivity|]. split; [|assumption].
    rewrite all_of_append. apply andb_true_intro. split.
    + apply all_of_weaken with (alphabet r1); [|assumption].
      intros a Ha. cbn [alphabet]. now rewrite Ha.
    + apply all_of_weaken with (alphabet r2); [|assumption].
      intros a Ha. cbn [alphabet]. rewrite Ha. apply orb_true_r.
  - rewrite exec_opt in H. destruct (exec r1 s c k) eqn:E.
    + injection H as ->. now apply IH1 in E.
    + exists "", s, c. auto.
  - cbn [exec] in H. apply star_alphabet in H as (pre & s1 & -> & Hp & H).
    exists pre, s1, c. auto.
  - rewrite exec_grp in H. apply IH1 in H as (pre & s1 & c1 & -> & Hp & H).
    eauto 10.
Qed.

Lemma fullmatch_alphabet r s m :
  fullmatch r s = Some m -> all_of (alphabet r) s = true.
Proof.
  unfold fullmatch. intros H.
  apply exec_alphabet in H as (pre & s1 & c1 & -> & Hp & H).
  unfold at_end in H. destruct s1; [|discriminate].
  now rewrite append_nil_r.
Qed.

(** A text with a character outside the alphabet is not matched. *)
Lemma fullmatch_foreign r pre a post :
  alphabet r a = false -> fullmatch r (pre ++ String a post) = None.
Proof.
  intros Ha. destruct (fullmatch r (pre ++ String a post)) eqn:E;
    [|reflexivity].
  apply fullmatch_alphabet in E. rewrite all_of_append in E.
  cbn [all_of] in E. rewrite Ha in E.
  rewrite andb_false_l, andb_false_r in E. discriminate.
Qed.

(** START-END[COUNT]: the count is the third group. *)
Lemma re_range_count_count a b n :
  is_digits a = true -> is_digits b = true -> is_digits n = true ->
  fullmatch re_range_count (a ++ "-" ++ b ++ "[" ++ n ++ "]")
  = Some [(3%nat, n); (2%nat, b); (1%nat, a)].
Proof.
  intros Ha Hb Hn. unfold re_range_count.
  apply range_of_int_prefix; try assumption; [reflexivity|].
  rewrite exec_seq, exec_opt.
  assert (Hsuffix :
    exec count_suffix ("[" ++ n ++ "]") [(2%nat, b); (1%nat, a)]
      (fun s1 c1 => exec ws s1 c1 at_end)
    = Some [(3%nat, n); (2%nat, b); (1%nat, a)]).
  { unfold count_suffix. rewrite exec_seq, exec_ws_stops by reflexivity.
    rewrite exec_seq. change ("[" ++ n ++ "]") with (String "[" (n ++ "]")).
    rewrite exec_lit, exec_seq, exec_grp.
    apply exec_digits; [assumption|reflexivity|].
    rewrite consumed_append. reflexivity. }
  now rewrite Hsuffix.
Qed.

Lemma re_range_no_bracket a b n :
  fullmatch re_range (a ++ "-" ++ b ++ "[" ++ n ++ "]") = None.
Proof.
  replace (a ++ "-" ++ b ++ "[" ++ n ++ "]")
    with ((a ++ "-" ++ b) ++ String "[" (n ++ "]"))
    by now rewrite !append_assoc.
  now apply fullmatch_foreign.
Qed.

End ReAlphabet.

Section CountFacts.

Import PyStr PyNum Re Patterns Spec StrFacts ReFacts PyFacts ReAlphabet.
Local Open Scope string_scope.

Variable Host : Type.
Variable api : host_api Host.
Variable p : Request.

Lemma omap_length {A B} (f : A -> outcome B) xs ys :
  omap f xs = Ok ys -> List.length ys = List.length xs.
Proof.
  revert ys. induction xs as [|x xs IH]; intros ys H.
  - injection H as <-. reflexivity.
  - cbn [omap] in H. destruct (f x); [|discriminate].
    cbn [obind] in H. destruct (omap f xs) as [zs|]; [|discriminate].
    injection H as <-. cbn [List.length]. now rewrite (IH zs).
Qed.

Lemma np_linspace_length start stop num xs :
  np_linspace start stop num = Ok xs -> List.length xs = Z.to_nat num.
Proof.
  unfold np_linspace. destruct (num <? 0)%Z; [discriminate|].
  intros H. injection H as <-. now rewrite length_map, length_seq.
Qed.

Lemma count_text_plain a b n :
  is_digits a = true -> is_digits b = true -> is_digits n = true ->
  all_of plain (a ++ "-" ++ b ++ "[" ++ n ++ "]") = true /\
  a ++ "-" ++ b ++ "[" ++ n ++ "]" <> "".
Proof.
  intros Ha Hb Hn. apply range_text_plain; try assumption.
  cbn [append all_of]. rewrite all_of_append.
  now rewrite (digits_plain _ (is_digits_all _ Hn)).
Qed.

(** X6. A field START-END[COUNT] of an int axis does not match the step
    grammar; it is expanded by the count grammar to the COUNT samples of
    [numpy.linspace] between START and END, each cut to an integer:
    "1-5[3]" gives 1, 3, 5 and "1-2[3]" gives 1, 1, 2. Whenever the
    expansion returns, it returns exactly COUNT integers. *)
Theorem count_field_samples (opt : AxisOption Host) (a b n : string) :
  In opt (axis_options api) -> opt_type opt = TInt ->
  is_digits a = true -> is_digits b = true -> is_digits n = true ->
  process_axis p opt "1-5[3]" = Ok (map VInt [1; 3; 5]) /\
  process_axis p opt "1-2[3]" = Ok (map VInt [1; 1; 2]) /\
  fullmatch re_range (a ++ "-" ++ b ++ "[" ++ n ++ "]") = None /\
  process_axis p opt (a ++ "-" ++ b ++ "[" ++ n ++ "]")
  = (xs <-? np_linspace (float_of_Z (decimal a)) (float_of_Z (decimal b))
              (decimal n) ;
     ys <-? omap int_of_float xs ;
     Ok (map VInt ys)) /\
  (forall vs,
      process_axis p opt (a ++ "-" ++ b ++ "[" ++ n ++ "]") = Ok vs ->
      exists ys, vs = map VInt ys /\
                 List.length ys = Z.to_nat (decimal n)).
Proof.
  intros Hin Ht Ha Hb Hn.
  assert (Hgo :
    process_axis p opt (a ++ "-" ++ b ++ "[" ++ n ++ "]")
    = (xs <-? np_linspace (float_of_Z (decimal a)) (float_of_Z (decimal b))
                (decimal n) ;
       ys <-? omap int_of_float xs ;
       Ok (map VInt ys))).
  { destruct (count_text_plain a b n Ha Hb Hn) as [Hp Hne].
    rewrite (process_axis_int_field p Hin Ht Hp Hne).
    unfold expand_int, group_int.
    rewrite re_range_no_bracket, re_range_count_count by assumption.
    cbn [group Nat.eqb]. rewrite !py_int_digits by assumption.
    cbn [obind].
    destruct (np_linspace _ _ _) as [xs|e]; [|reflexivity]. cbn [obind].
    destruct (omap int_of_float xs) as [ys|e]; [|reflexivity]. cbn [obind].
    apply omap_convert_ints. }
  split; [|split; [|split; [|split]]].
  - rewrite (process_axis_int_field p Hin Ht)
      by first [reflexivity | discriminate].
    vm_compute. reflexivity.
  - rewrite (process_axis_int_field p Hin Ht)
      by first [reflexivity | discriminate].
    vm_compute. reflexivity.
  - apply re_range_no_bracket.
  - exact Hgo.
  - intros vs. rewrite Hgo.
    destruct (np_linspace _ _ _) as [xs|e] eqn:El; [|discriminate].
    cbn [obind].
    destruct (omap int_of_float xs) as [ys|e] eqn:Eo; [|discriminate].
    cbn [obind]. intros H. injection H as <-.
    exists ys. split; [reflexivity|].
    rewrite (omap_length _ _ Eo). now apply np_linspace_length in El.
Qed.

End CountFacts.

(** ** Fields that are no numbers *)

Module LetterFacts.
Import PyStr PyNum Re Patterns Spec StrFacts ReFacts ReAlphabet.
Local Open Scope string_scope.

Lemma letter_foreign c :
  is_letter c = true ->
  alphabet re_range c = false /\ alphabet re_range_count c = false /\
  is_digit c = false /\ is_sign c = false /\ Ascii.eqb c "_" = false.
Proof.
  destruct c as [[] [] [] [] [] [] [] []]; intros H;
    first [discriminate H | repeat split; reflexivity].
Qed.

(** [int] reads to the end only through digits and underscores. *)
Lemma take_digits_to_end : forall s acc n v n',
  take_digits acc n s = (v, n', "") ->
  all_of (fun c => is_digit c || Ascii.eqb c "_") s = true.
Proof.
  induction s as [|c s IH]; intros acc n v n' H; [reflexivity|].
  cbn [take_digits] in H. cbn [all_of].
  destruct (is_digit c) eqn:Ed.
  - cbn [orb andb]. eapply IH. exact H.
  - destruct (Ascii.eqb c "_") eqn:Eu; [|discriminate].
    cbn [orb andb].
    destruct n as [|n]; [discriminate|].
    destruct s as [|c2 s]; [discriminate|].
    destruct (is_digit c2); [|discriminate].
    eapply IH. exact H.
Qed.

Lemma py_int_letter pre c post :
  all_of plain (pre ++ String c post) = true -> is_letter c = true ->
  py_int (pre ++ String c post)
  = Raise (ValueError "invalid literal for int() with base 10").
Proof.
  intros Hp Hc. destruct (letter_foreign _ Hc) as (_ & _ & Hd & Hs & Hu).
  unfold py_int. rewrite strip_plain by assumption.
  assert (Hbody : forall body,
    (body = pre ++ String c post \/
     exists a, pre ++ String c post = String a body /\ is_sign a = true) ->
    match take_digits 0 0 body with
    | (v, S _, "") => Ok (signed false v)
    | _ => Raise (ValueError "invalid literal for int() with base 10")
    end = Raise (ValueError "invalid literal for int() with base 10") /\
    match take_digits 0 0 body with
    | (v, S _, "") => Ok (signed true v)
    | _ => Raise (ValueError "invalid literal for int() with base 10")
    end = Raise (ValueError "invalid literal for int() with base 10")).
  { intros body Hb.
    assert (Hin : exists pre', body = pre' ++ String c post).
    { destruct Hb as [->|(a & E & Ha)]; [eauto|].
      destruct pre as [|b pre].
      - cbn in E. injection E as <- _. congruence.
      - cbn in E. injection E as _ <-. eauto. }
    destruct Hin as (pre' & ->).
    destruct (take_digits 0 0 (pre' ++ String c post)) as [[v n] rest] eqn:E.
    destruct n as [|n]; [auto|]. destruct rest; [|auto].
    apply take_digits_to_end in E. rewrite all_of_append in E.
    cbn [all_of] in E. rewrite Hd, Hu in E. cbn [orb andb] in E.
    rewrite andb_false_r in E. discriminate. }
  unfold split_sign.
  destruct (pre ++ String c post) as [|a body] eqn:E.
  { destruct pre; discriminate. }
  destruct (Ascii.eqb a "-") eqn:E1; [|destruct (Ascii.eqb a "+") eqn:E2].
  - apply Hbody. right. exists a. split; [reflexivity|].
    unfold is_sign. now rewrite E1, orb_true_r.
  - apply Hbody. right. exists a. split; [reflexivity|].
    unfold is_sign. now rewrite E2.
  - rewrite <- E. apply Hbody. now left.
Qed.

End LetterFacts.

Section NonNumericFacts.

Import PyStr PyNum Re Patterns Spec StrFacts ReFacts PyFacts ReAlphabet
  LetterFacts.
Local Open Scope string_scope.

Variable Host : Type.
Variable api : host_api Host.
Variable p : Request.

(** X7. A field of an int axis with a letter in it is no range and no
    number: it matches neither range grammar, is handed to [int] as it
    stands, and [int] raises [ValueError]. The expansion of the axis
    raises, which is before the sweep starts. *)
Theorem non_numeric_field_raises (opt : AxisOption Host)
  (pre post : string) (c : ascii) :
  In opt (axis_options api) -> opt_type opt = TInt ->
  all_of plain (pre ++ String c post) = true -> is_letter c = true ->
  fullmatch re_range (pre ++ String c post) = None /\
  fullmatch re_range_count (pre ++ String c post) = None /\
  exists msg,
    process_axis p opt (pre ++ String c post) = Raise (ValueError msg).
Proof.
  intros Hin Ht Hp Hc.
  destruct (letter_foreign _ Hc) as (H1 & H2 & _).
  pose proof (fullmatch_foreign re_range pre c post H1) as Hm.
  pose proof (fullmatch_foreign re_range_count pre c post H2) as Hmc.
  split; [exact Hm|]. split; [exact Hmc|].
  eexists.
  rewrite (process_axis_int_field p Hin Ht Hp)
    by (destruct pre; discriminate).
  unfold expand_int. rewrite Hm, Hmc. cbn [obind omap convert].
  rewrite py_int_letter by assumption. reflexivity.
Qed.

End NonNumericFacts.

(** ** The csv reader on a comma-separated list *)

Module CsvListFacts.
Import PyStr Spec StrFacts Csv.
Local Open Scope string_scope.

Lemma field_char_facts c :
  field_char c = true ->
  Ascii.eqb c "," = false /\ Ascii.eqb c quotechar = false /\
  is_newline c = false /\ Ascii.eqb c nl = false.
Proof.
  unfold field_char. intros H.
  apply andb_prop in H as [H Hn]. apply andb_prop in H as [Hc Hq].
  apply negb_true_iff in Hc, Hq, Hn.
  repeat split; try assumption.
  unfold is_newline in Hn. now apply orb_false_elim in Hn.
Qed.

Lemma join_cons sep f fs :
  join sep (f :: fs)
  = match fs with [] => f | _ :: _ => f ++ sep ++ join sep fs end.
Proof. destruct fs; reflexivity. Qed.

Lemma step_comma s0 acc fs0 :
  unquoted s0 = true ->
  process_char (Some ","%char) (mk_reader s0 acc fs0)
  = Ok (mk_reader START_FIELD "" (fs0 ++ [acc])).
Proof. destruct s0; try discriminate; reflexivity. Qed.

Lemma step_field_char s0 a acc fs0 :
  unquoted s0 = true -> field_char a = true ->
  process_char (Some a) (mk_reader s0 acc fs0)
  = Ok (mk_reader IN_FIELD (acc ++ String a "") fs0).
Proof.
  intros Hs Ha. destruct (field_char_facts _ Ha) as (Hc & Hq & Hn & _).
  destruct s0; try discriminate;
    unfold process_char, start_field; cbn [st]; now rewrite ?Hn, ?Hq, ?Hc.
Qed.

Lemma step_end s0 acc fs0 :
  s0 = START_FIELD \/ s0 = IN_FIELD ->
  process_char None (mk_reader s0 acc fs0)
  = Ok (mk_reader START_RECORD "" (fs0 ++ [acc])).
Proof. intros [-> | ->]; reflexivity. Qed.

(** The fields of a list written with commas are read back, whatever
    field the reader is at. *)
Lemma feed_join : forall fs f s0 acc fs0,
  unquoted s0 = true ->
  Forall (fun x => all_of field_char x = true) (f :: fs) ->
  join "," (f :: fs) <> "" ->
  feed (join "," (f :: fs)) (mk_reader s0 acc fs0)
  = Ok (mk_reader START_RECORD "" (fs0 ++ (acc ++ f) :: fs)).
Proof.
  induction fs as [|f2 fs IHfs]; intros f.
  - (* the last field *)
    induction f as [|a f IHf]; intros s0 acc fs0 Hs Hall Hne;
      [now contradiction Hne|].
    apply Forall_inv in Hall as Hf. cbn [all_of] in Hf.
    apply andb_prop in Hf as [Ha Hf].
    destruct (field_char_facts _ Ha) as (_ & _ & _ & Hnl).
    cbn [join feed]. rewrite step_field_char, Hnl by assumption.
    cbn [obind orb].
    destruct f as [|b f].
    + cbn [is_empty]. rewrite step_end by auto. reflexivity.
    + cbn [is_empty obind].
      rewrite (IHf IN_FIELD); [|reflexivity| |discriminate].
      * now rewrite append_assoc.
      * constructor; [exact Hf|constructor].
  - (* a field followed by a comma *)
    induction f as [|a f IHf]; intros s0 acc fs0 Hs Hall Hne.
    + rewrite join_cons. cbn [append feed].
      rewrite step_comma by assumption. cbn [obind orb].
      change (Ascii.eqb "," nl) with false. cbn [orb].
      apply Forall_inv_tail in Hall.
      destruct (join "," (f2 :: fs)) eqn:Ej.
      * cbn [is_empty]. rewrite step_end by auto. cbn [feed].
        rewrite append_nil_r.
        destruct fs as [|f3 fs]; [|destruct f2; discriminate].
        cbn [join] in Ej. subst f2. now rewrite <- app_assoc.
      * cbn [is_empty obind]. rewrite <- Ej.
        rewrite IHfs; [|reflexivity|assumption|now rewrite Ej].
        now rewrite append_nil_r, <- app_assoc.
    + apply Forall_inv in Hall as Hf. cbn [all_of] in Hf.
      apply andb_prop in Hf as [Ha Hf].
      destruct (field_char_facts _ Ha) as (_ & _ & _ & Hnl).
      rewrite join_cons. cbn [append feed].
      rewrite step_field_char, Hnl by assumption. cbn [obind orb].
      change (f ++ String "," (join "," (f2 :: fs)))
        with (join "," (f :: f2 :: fs)).
      assert (Hrest : is_empty (join "," (f :: f2 :: fs)) = false)
        by (destruct f; reflexivity).
      rewrite Hrest. cbn [obind].
      rewrite (IHf IN_FIELD); [|reflexivity| |].
      * now rewrite append_assoc.
      * constructor; [exact Hf|now apply Forall_inv_tail in Hall].
      * rewrite join_cons. destruct f; discriminate.
Qed.

Lemma fields_of_join fs :
  Forall (fun x => all_of field_char x = true) fs -> fs <> [""] ->
  fields_of (join "," fs) = Ok fs.
Proof.
  intros Hall Hne. destruct fs as [|f fs]; [reflexivity|].
  unfold fields_of. rewrite feed_join; [reflexivity|reflexivity|assumption|].
  rewrite join_cons. destruct fs; [|destruct f; discriminate].
  intros ->. now apply Hne.
Qed.

End CsvListFacts.

(** ** Lists of values *)

Module DashFacts.
Import PyStr Re Patterns Spec StrFacts ReFacts ReAlphabet.
Local Open Scope string_scope.
Local Open Scope re_scope.

(** Every range pattern has a dash between its two numerals: a text
    without one is not matched. *)
Lemma range_needs_dash num suffix s :
  all_of (fun c => negb (Ascii.eqb "-" c)) s = true ->
  fullmatch (range_of num suffix) s = None.
Proof.
  intros Hs. destruct (fullmatch (range_of num suffix) s) eqn:E;
    [|reflexivity].
  exfalso. unfold fullmatch, range_of in E.
  rewrite exec_seq in E.
  apply exec_alphabet in E as (p1 & s1 & c1 & -> & _ & E).
  rewrite exec_seq in E.
  apply exec_alphabet in E as (p2 & s2 & c2 & -> & _ & E).
  rewrite exec_seq in E.
  apply exec_alphabet in E as (p3 & s3 & c3 & -> & _ & E).
  rewrite exec_seq in E. cbn [exec lit] in E.
  destruct s3 as [|a s3]; [discriminate|].
  destruct (Ascii.eqb "-" a) eqn:Ea; [|discriminate].
  rewrite !all_of_append in Hs. cbn [all_of] in Hs. rewrite Ea in Hs.
  cbn [negb andb] in Hs. rewrite !andb_false_r in Hs. discriminate.
Qed.

Lemma digits_no_dash d :
  all_of is_digit d = true ->
  all_of (fun c => negb (Ascii.eqb "-" c)) d = true.
Proof.
  apply all_of_weaken. intros c Hc. now rewrite (digit_not_dash _ Hc).
Qed.

End DashFacts.

Section ListFacts.

Import PyStr PyNum Re Patterns Spec StrFacts ReFacts PyFacts
  CsvListFacts DashFacts.
Local Open Scope string_scope.

Variable Host : Type.
Variable api : host_api Host.
Variable p : Request.

(** X8. The value text of an axis is split at its commas, and each field
    is stripped of surrounding white space: a list of fields without
    quotes and line ends, written with commas in between, gives a str axis
    the stripped fields in order (an empty field included), handed to the
    option's validator when it has one. *)
Theorem separated_values_in_order (opt : AxisOption Host)
  (fs : list string) :
  In opt (axis_options api) -> opt_type opt = TStr ->
  opt_label opt <> "Nothing" ->
  Forall (fun f => all_of field_char f = true) fs -> fs <> [""] ->
  let values := map VStr (map strip fs) in
  Csv.fields_of (join "," fs) = Ok fs /\
  process_axis p opt (join "," fs)
  = match opt_confirm opt with
    | Some confirm => _ <-? confirm p values ; Ok values
    | None => Ok values
    end.
Proof.
  intros Hin Ht Hl Hall Hne values.
  pose proof (fields_of_join Hall Hne) as Hf.
  split; [exact Hf|].
  unfold process_axis, typed_values. rewrite Hf, Ht. cbn [obind].
  rewrite omap_convert_strs. cbn [obind]. fold values.
  destruct (String.eqb (opt_label opt) "Nothing") eqn:E; [|reflexivity].
  apply String.eqb_eq in E. contradiction.
Qed.

Lemma expand_int_number d :
  is_digits d = true -> expand_int d = Ok [VStr d].
Proof.
  intros Hd. unfold expand_int, re_range, re_range_count.
  rewrite !range_needs_dash
    by now apply digits_no_dash, is_digits_all.
  reflexivity.
Qed.

Lemma expand_numbers ds :
  Forall (fun d => is_digits d = true) ds ->
  expand_fields expand_int ds = Ok (map VStr ds).
Proof.
  induction 1 as [|d ds Hd _ IH]; [reflexivity|].
  cbn [expand_fields map]. rewrite (expand_int_number d Hd), IH. reflexivity.
Qed.

Lemma convert_numbers ds :
  Forall (fun d => is_digits d = true) ds ->
  omap (convert TInt) (map VStr ds) = Ok (map VInt (map decimal ds)).
Proof.
  induction 1 as [|d ds Hd _ IH]; [reflexivity|].
  cbn [omap map convert]. rewrite (py_int_digits d Hd). cbn [obind].
  rewrite IH. reflexivity.
Qed.

(** X9. A list of unsigned integers written with commas, with or without
    blanks around them, gives an int axis these integers, in order. *)
Theorem number_list_in_order (opt : AxisOption Host) (fs : list string) :
  In opt (axis_options api) -> opt_type opt = TInt ->
  Forall (fun f => all_of field_char f = true) fs ->
  Forall (fun f => is_digits (strip f) = true) fs ->
  process_axis p opt (join "," fs)
  = Ok (map VInt (map (fun f => decimal (strip f)) fs)).
Proof.
  intros Hin Ht Hall Hds.
  destruct (int_option_facts Hin Ht) as [Hl Hc].
  assert (Hne : fs <> [""]).
  { intros ->. apply Forall_inv in Hds. discriminate. }
  unfold process_axis, typed_values.
  rewrite Hl, Hc, Ht, (fields_of_join Hall Hne). cbn [obind].
  assert (Hds' : Forall (fun d => is_digits d = true) (map strip fs)).
  { apply Forall_map. exact Hds. }
  rewrite (expand_numbers Hds'). cbn [obind].
  rewrite (convert_numbers Hds'). cbn [obind].
  now rewrite (map_map strip decimal).
Qed.

End ListFacts.

(** ** Bare ranges *)

Section BareRangeFacts.

Import PyStr PyNum Re Patterns Spec StrFacts ReFacts ReMeta PyFacts
  CsvListFacts.
Local Open Scope string_scope.

Variable Host : Type.
Variable api : host_api Host.
Variable p : Request.

(** A text without comma, quote and line end is one field. *)
Lemma fields_of_one (f : string) :
  all_of field_char f = true -> f <> "" -> Csv.fields_of f = Ok [f].
Proof.
  intros Hf Hne.
  change f with (join "," [f]) at 1.
  apply fields_of_join.
  - constructor; [assumption|constructor].
  - intros E. injection E as E. now apply Hne.
Qed.

Lemma process_axis_one_int (opt : AxisOption Host) (f : string) :
  In opt (axis_options api) -> opt_type opt = TInt ->
  all_of field_char f = true -> f <> "" ->
  process_axis p opt f
  = (xs <-? expand_int (strip f) ; omap (convert TInt) xs).
Proof.
  intros Hin Ht Hf Hne.
  destruct (int_option_facts Hin Ht) as [Hl Hc].
  unfold process_axis, typed_values.
  rewrite Hl, Hc, Ht, fields_of_one by assumption.
  cbn [obind map expand_fields].
  destruct (expand_int (strip f)) as [xs|e]; cbn [obind]; [|reflexivity].
  rewrite app_nil_r. now destruct (omap (convert TInt) xs).
Qed.

Lemma process_axis_one_float (opt : AxisOption Host) (f : string) :
  In opt (axis_options api) -> opt_type opt = TFloat ->
  all_of field_char f = true -> f <> "" ->
  process_axis p opt f
  = (xs <-? expand_float (strip f) ; omap (convert TFloat) xs).
Proof.
  intros Hin Ht Hf Hne.
  destruct (float_option_facts Hin Ht) as [Hl Hc].
  unfold process_axis, typed_values.
  rewrite Hl, Hc, Ht, fields_of_one by assumption.
  cbn [obind map expand_fields].
  destruct (expand_float (strip f)) as [xs|e]; cbn [obind]; [|reflexivity].
  rewrite app_nil_r. now destruct (omap (convert TFloat) xs).
Qed.

Lemma plain_field_char (s : string) :
  all_of plain s = true -> all_of field_char s = true.
Proof.
  apply all_of_weaken. intros c Hc. unfold field_char.
  now rewrite (plain_not_comma _ Hc), (plain_not_quote _ Hc),
    (plain_not_newline _ Hc).
Qed.

(** C10 (amended). A field of the bare form START-END, one that matches
    the step grammar without a step, matches the count grammar as well,
    for int numerals and for float numerals, and it is the step grammar
    that expands it, with step 1, when [int] (for a float axis [float])
    accepts the texts of START and END: for an int axis to every integer
    from START to END, two or more values when START < END and not the
    single sample of the count grammar; for a float axis to
    [numpy.arange(START, END + 1, 1)], the doubles START, START + 1,
    START + i * ((START + 1) - START), as many as the ceiling of
    END + 1 - START, as "1-3" to 1.0, 2.0, 3.0. Every START-END of
    unsigned numerals is such a field. And the count grammar is reached
    only by a field with a bracketed count: whenever it is applied, its
    third group is present. *)
Theorem bare_range_prefers_step
  (opt_i opt_f : AxisOption Host) (fi ff : string) (mi mf : caps)
  (si ei : Z) (sf ef : float) :
  In opt_i (axis_options api) -> opt_type opt_i = TInt ->
  In opt_f (axis_options api) -> opt_type opt_f = TFloat ->
  all_of field_char fi = true ->
  fullmatch re_range (strip fi) = Some mi -> group mi 3 = None ->
  group_int mi 1 = Ok si -> group_int mi 2 = Ok ei ->
  all_of field_char ff = true ->
  fullmatch re_range_float (strip ff) = Some mf -> group mf 3 = None ->
  group_float mf 1 = Ok sf -> group_float mf 2 = Ok ef ->
  (fullmatch re_range_count (strip fi) <> None /\
   fullmatch re_range_count_float (strip ff) <> None) /\
  (exists xs,
      process_axis p opt_i fi = Ok (map VInt xs) /\
      progression_upto si 1 ei xs /\
      (forall z, In z xs <-> si <= z <= ei) /\
      (si < ei -> (2 <= List.length xs)%nat)) /\
  (process_axis p opt_f ff
   = (r <-? np_arange sf (ef + 1)%float 1%float ; Ok (map VFloat r)) /\
   process_axis p opt_f ff
   = match ceil ((ef + 1 - sf) / 1)%float with
     | None => Raise (ValueError "arange: cannot compute length")
     | Some n =>
         Ok (map VFloat
               (map (fun i =>
                       match i with
                       | O => sf
                       | S O => (sf + 1)%float
                       | _ => (sf + float_of_Z (Z.of_nat i)
                                    * ((sf + 1) - sf))%float
                       end)
                    (seq 0 (Z.to_nat n))))
     end) /\
  process_axis p opt_f "1-3"
  = Ok [VFloat 1%float; VFloat 2%float; VFloat 3%float] /\
  (forall a b, is_digits a = true -> is_digits b = true ->
     all_of field_char (a ++ "-" ++ b) = true /\
     fullmatch re_range (strip (a ++ "-" ++ b))
     = Some [(2%nat, b); (1%nat, a)] /\
     group_int [(2%nat, b); (1%nat, a)] 1 = Ok (decimal a) /\
     group_int [(2%nat, b); (1%nat, a)] 2 = Ok (decimal b)) /\
  (forall x y, float_numeral x -> float_numeral y ->
     all_of field_char (x ++ "-" ++ y) = true /\
     fullmatch re_range_float (strip (x ++ "-" ++ y))
     = Some [(2%nat, y); (1%nat, x)] /\
     is_ok (group_float [(2%nat, y); (1%nat, x)] 1) = true /\
     is_ok (group_float [(2%nat, y); (1%nat, x)] 2) = true) /\
  (forall val mc,
      fullmatch re_range val = None ->
      fullmatch re_range_count val = Some mc -> group mc 3 <> None) /\
  (forall val mc,
      fullmatch re_range_float val = None ->
      fullmatch re_range_count_float val = Some mc -> group mc 3 <> None).
Proof.
  intros Hi Hti Hf Htf Hfi Hmi H3i Hsi Hei Hff Hmf H3f Hsf Hef.
  assert (Hni : fi <> "").
  { intros ->. cbn in Hmi. discriminate. }
  assert (Hnf : ff <> "").
  { intros ->. cbn in Hmf. discriminate. }
  assert (Hfloat :
    process_axis p opt_f ff
    = (r <-? np_arange sf (ef + 1)%float 1%float ; Ok (map VFloat r))).
  { rewrite process_axis_one_float by assumption.
    unfold expand_float. rewrite Hmf, Hsf, Hef, H3f. cbn [obind].
    change (float_of_Z 1) with 1%float.
    destruct (np_arange sf (ef + 1)%float 1%float) as [r|e];
      cbn [obind]; [apply omap_convert_floats|reflexivity]. }
  split; [|split; [|split; [|split; [|split; [|split; [|split]]]]]].
  - split.
    + exact (@range_without_suffix int_lit count_suffix step_suffix
               (strip fi) mi eq_refl Hmi H3i).
    + exact (@range_without_suffix float_lit count_suffix_float
               step_suffix_float (strip ff) mf eq_refl Hmf H3f).
  - destruct (py_range_upto si ei Z.lt_0_1) as (xs & Hr & Hprog).
    exists xs. split; [|split; [assumption|split]].
    + rewrite process_axis_one_int by assumption.
      unfold expand_int. rewrite Hmi, Hsi, Hei, H3i. cbn [obind].
      rewrite Hr. cbn [obind]. apply omap_convert_ints.
    + now apply progression_step_1.
    + intros Hlt. destruct Hprog as (_ & _ & Hnext). lia.
  - split; [exact Hfloat|]. rewrite Hfloat. unfold np_arange.
    change (1 =? 0)%float with false. cbv iota.
    destruct (ceil ((ef + 1 - sf) / 1)%float); reflexivity.
  - rewrite process_axis_one_float
      by first [assumption | reflexivity | discriminate].
    vm_compute. reflexivity.
  - intros a b Ha Hb.
    destruct (range_text_plain a b "" Ha Hb eq_refl) as [Hp Hn].
    rewrite append_nil_r in Hp, Hn.
    split; [now apply plain_field_char|].
    rewrite strip_plain, re_range_bare by assumption.
    split; [reflexivity|]. unfold group_int. cbn [group Nat.eqb].
    now rewrite !py_int_digits.
  - intros x y Hx Hy.
    assert (Hp : all_of plain (x ++ "-" ++ y) = true).
    { rewrite all_of_append. cbn [append all_of].
      now rewrite (FloatFacts.float_numeral_plain Hx),
        (FloatFacts.float_numeral_plain Hy). }
    split; [now apply plain_field_char|].
    rewrite strip_plain, ReFloatFacts.re_range_float_bare by assumption.
    split; [reflexivity|]. unfold group_float. cbn [group Nat.eqb].
    destruct (FloatFacts.py_float_numeral Hx) as (vx & ->).
    destruct (FloatFacts.py_float_numeral Hy) as (vy & ->).
    split; reflexivity.
  - intros val mc Hnone Hmc H3.
    revert Hnone.
    exact (@range_without_suffix int_lit step_suffix count_suffix
             val mc eq_refl Hmc H3).
  - intros val mc Hnone Hmc H3.
    revert Hnone.
    exact (@range_without_suffix float_lit step_suffix_float
             count_suffix_float val mc eq_refl Hmc H3).
Qed.

End BareRangeFacts.

(** ** Quoted fields *)

Module CsvQuoteFacts.
Import PyStr Spec StrFacts Csv CsvListFacts.
Local Open Scope string_scope.

(** Inside a quoted field every character but the quote is content, a
    comma and a line end included. *)
Lemma feed_quoted_content : forall f acc fs0 rest,
  all_of no_quote f = true -> rest <> "" ->
  feed (f ++ rest) (mk_reader IN_QUOTED_FIELD acc fs0)
  = feed rest (mk_reader IN_QUOTED_FIELD (acc ++ f) fs0).
Proof.
  induction f as [|a f IH]; intros acc fs0 rest Hf Hrest.
  - now rewrite append_nil_r.
  - cbn [all_of] in Hf. apply andb_prop in Hf as [Ha Hf].
    apply negb_true_iff in Ha.
    cbn [append feed]. unfold process_char at 1. cbn [st]. rewrite Ha.
    cbn [obind].
    assert (Hne : is_empty (f ++ rest) = false).
    { destruct f; [destruct rest; [contradiction|]|]; reflexivity. }
    rewrite Hne, orb_false_r.
    destruct (Ascii.eqb a nl); unfold add_char;
      cbn [obind process_char st field fields];
      rewrite IH by assumption; now rewrite append_assoc.
Qed.

Lemma feed_cons c s r :
  feed (String c s) r
  = (r1 <-? process_char (Some c) r ;
     r2 <-? (if Ascii.eqb c nl || is_empty s
             then process_char None r1 else Ok r1) ;
     feed s r2).
Proof. reflexivity. Qed.

Lemma step_open s0 fs0 :
  s0 = START_RECORD \/ s0 = START_FIELD ->
  process_char (Some quotechar) (mk_reader s0 "" fs0)
  = Ok (mk_reader IN_QUOTED_FIELD "" fs0).
Proof. intros [-> | ->]; reflexivity. Qed.

Lemma step_close acc fs0 :
  process_char (Some quotechar) (mk_reader IN_QUOTED_FIELD acc fs0)
  = Ok (mk_reader QUOTE_IN_QUOTED_FIELD acc fs0).
Proof. reflexivity. Qed.

Lemma step_closed_comma acc fs0 :
  process_char (Some ","%char) (mk_reader QUOTE_IN_QUOTED_FIELD acc fs0)
  = Ok (mk_reader START_FIELD "" (fs0 ++ [acc])).
Proof. reflexivity. Qed.

Lemma step_closed_end acc fs0 :
  process_char None (mk_reader QUOTE_IN_QUOTED_FIELD acc fs0)
  = Ok (mk_reader START_RECORD "" (fs0 ++ [acc])).
Proof. reflexivity. Qed.

(** One quoted field and what follows it. *)
Lemma feed_quoted f s0 fs0 rest :
  s0 = START_RECORD \/ s0 = START_FIELD ->
  all_of no_quote f = true ->
  feed (quoted f ++ rest) (mk_reader s0 "" fs0)
  = match rest with
    | "" => Ok (mk_reader START_RECORD "" (fs0 ++ [f]))
    | String _ _ => feed rest (mk_reader QUOTE_IN_QUOTED_FIELD f fs0)
    end.
Proof.
  intros Hs Hf. unfold quoted. cbn [append].
  rewrite feed_cons, step_open by assumption. cbn [obind].
  change (Ascii.eqb quotechar nl) with false.
  replace (is_empty ((f ++ String quotechar "") ++ rest)) with false
    by (destruct f; reflexivity).
  cbn [orb obind]. rewrite append_assoc.
  rewrite feed_quoted_content by (assumption || discriminate).
  cbn [append]. rewrite feed_cons, step_close. cbn [obind].
  change (Ascii.eqb quotechar nl) with false. cbn [orb].
  destruct rest as [|c rest]; cbn [is_empty obind]; [|reflexivity].
  rewrite step_closed_end. reflexivity.
Qed.

Lemma feed_quoted_list : forall fs f s0 fs0,
  s0 = START_RECORD \/ s0 = START_FIELD ->
  Forall (fun x => all_of no_quote x = true) (f :: fs) ->
  feed (join "," (map quoted (f :: fs))) (mk_reader s0 "" fs0)
  = Ok (mk_reader START_RECORD "" (fs0 ++ f :: fs)).
Proof.
  induction fs as [|f2 fs IH]; intros f s0 fs0 Hs Hall.
  - apply Forall_inv in Hall. cbn [map join].
    rewrite <- (append_nil_r (quoted f)).
    now rewrite feed_quoted.
  - apply Forall_inv in Hall as Hf. apply Forall_inv_tail in Hall.
    change (map quoted (f :: f2 :: fs))
      with (quoted f :: map quoted (f2 :: fs)).
    rewrite join_cons. cbn [map].
    rewrite feed_quoted by assumption. cbn [append].
    rewrite feed_cons, step_closed_comma. cbn [obind].
    change (Ascii.eqb "," nl) with false.
    replace (is_empty (join "," (quoted f2 :: map quoted fs))) with false
      by (destruct fs; reflexivity).
    cbn [orb obind].
    change (quoted f2 :: map quoted fs) with (map quoted (f2 :: fs)).
    rewrite IH by auto. now rewrite <- app_assoc.
Qed.

Lemma fields_of_quoted fs :
  Forall (fun x => all_of no_quote x = true) fs ->
  fields_of (join "," (map quoted fs)) = Ok fs.
Proof.
  intros Hall. destruct fs as [|f fs]; [reflexivity|].
  unfold fields_of. rewrite feed_quoted_list by auto. reflexivity.
Qed.

End CsvQuoteFacts.

Section QuotedFacts.

Import PyStr Spec CsvQuoteFacts.
Local Open Scope string_scope.

Variable Host : Type.
Variable api : host_api Host.
Variable p : Request.

(** X10. Fields written between double quotes are read back as they
    stand: a quoted field may hold commas and line ends, which do not
    split it. A list of quoted fields gives a str axis the fields, each
    stripped, in order. *)
Theorem quoted_values_keep_commas (opt : AxisOption Host)
  (fs : list string) :
  In opt (axis_options api) -> opt_type opt = TStr ->
  opt_label opt <> "Nothing" ->
  Forall (fun f => all_of no_quote f = true) fs ->
  let values := map VStr (map strip fs) in
  Csv.fields_of (join "," (map quoted fs)) = Ok fs /\
  process_axis p opt (join "," (map quoted fs))
  = match opt_confirm opt with
    | Some confirm => _ <-? confirm p values ; Ok values
    | None => Ok values
    end.
Proof.
  intros Hin Ht Hl Hall values.
  pose proof (fields_of_quoted Hall) as Hf.
  split; [exact Hf|].
  unfold process_axis, typed_values. rewrite Hf, Ht. cbn [obind].
  rewrite omap_convert_strs. cbn [obind]. fold values.
  destruct (String.eqb (opt_label opt) "Nothing") eqn:E; [|reflexivity].
  apply String.eqb_eq in E. contradiction.
Qed.

End QuotedFacts.

(** ** The number of render calls *)

Section RenderCount.

Import Spec.

Variable Host : Type.
Variable api : host_api Host.

(** The render calls made so far. *)
Let calls (w : World Host) : nat := List.length (rendered w).

Lemma rendered_modify (f : Shared -> Shared) :
  stable (@rendered Host) (modify_shared f).
Proof. intros w. reflexivity. Qed.

(** No axis function of the table renders. *)
Lemma rendered_apply (opt : AxisOption Host) pc x xs :
  In opt (axis_options api) ->
  stable (@rendered Host) (opt_apply opt pc x xs).
Proof.
  intros Hin. unfold axis_options in Hin. cbn [In] in Hin.
  repeat (destruct Hin as [<-|Hin];
          [cbn [opt_apply];
           unfold apply_field, apply_prompt, apply_order, apply_sampler,
             apply_checkpoint, apply_hypernetwork,
             apply_hypernetwork_strength, apply_clip_skip, do_nothing,
             reload_model_weights, load_hypernetwork, apply_strength;
           repeat match goal with
                  | |- stable _ (match ?x with _ => _ end) => destruct x
                  | |- stable _ (if ?x then _ else _) => destruct x
                  | |- stable _ (bind _ _) => apply stable_bind; [|intros ?]
                  | |- stable _ (modify_shared _) => apply rendered_modify
                  | |- stable _ (ret _) => apply stable_ret
                  | |- stable _ (raise _) => apply stable_raise
                  end|]).
  contradiction.
Qed.

Section Loops.

Variable the_cell : cell_fn Host.

(** A cell makes at most one render call, and exactly one when it
    returns. *)
Hypothesis one_render : forall c r pg w res w',
  the_cell c r pg w = (res, w') ->
  (calls w' <= S (calls w))%nat /\
  (is_ok res = true -> calls w' = S (calls w)).

Variables cols rows pages : list value.
Variables col_texts row_texts page_texts : list label.
Variables draw_legend include_lone_images : bool.

Lemma cell_step_calls ipg ir ic pg r c l w res w' :
  cell_step the_cell cols rows pages include_lone_images
    ipg ir ic pg r c l w = (res, w') ->
  (calls w' <= S (calls w))%nat /\
  (is_ok res = true -> calls w' = S (calls w)).
Proof.
  unfold cell_step. rewrite bind_unfold.
  unfold report_job, modify_shared at 1. cbv beta iota.
  rewrite bind_unfold.
  match goal with |- context [the_cell c r pg ?w0] =>
    destruct (the_cell c r pg w0) as [[processed|e] w1] eqn:Ec;
    apply one_render in Ec as H;
    change (calls w0) with (calls w) in H
  end.
  - destruct (try_take include_lone_images processed l).
    intros E. injection E as <- <-. exact H.
  - intros E. injection E as <- <-. exact H.
Qed.

Lemma loop_cols_calls ipg ir pg r : forall cols' ic l w res w',
  loop_cols the_cell cols rows pages include_lone_images
    ipg ir pg r ic cols' l w = (res, w') ->
  (calls w' <= calls w + List.length cols')%nat /\
  (is_ok res = true -> interrupted (shared w') = false ->
   calls w' = (calls w + List.length cols')%nat).
Proof.
  induction cols' as [|c cols' IH]; intros ic l w res w'; cbn [loop_cols].
  - intros E. injection E as <- <-. cbn. split; [lia|intros; lia].
  - rewrite bind_unfold.
    destruct (cell_step the_cell cols rows pages include_lone_images
                ipg ir ic pg r c l w) as [[l1|e] w1] eqn:Es;
      apply cell_step_calls in Es as [H1 H2]; cbn [List.length].
    + rewrite bind_unfold. unfold get_shared at 1.
      specialize (H2 eq_refl).
      destruct (interrupted (shared w1)) eqn:Ei.
      * intros E. injection E as <- <-. split; [lia|]. intros _ Hf. congruence.
      * intros E. apply IH in E as [IH1 IH2]. split; [lia|].
        intros Hok Hf. rewrite (IH2 Hok Hf). lia.
    + intros E. injection E as <- <-. split; [lia|discriminate].
Qed.

Lemma loop_rows_calls ipg pg : forall rows' ir l w res w',
  loop_rows the_cell cols rows pages include_lone_images
    ipg pg ir rows' l w = (res, w') ->
  (calls w' <= calls w + List.length rows' * List.length cols)%nat /\
  (is_ok res = true -> interrupted (shared w') = false ->
   calls w' = (calls w + List.length rows' * List.length cols)%nat).
Proof.
  induction rows' as [|r rows' IH]; intros ir l w res w'; cbn [loop_rows].
  - intros E. injection E as <- <-. cbn. split; [lia|intros; lia].
  - rewrite bind_unfold.
    destruct (loop_cols the_cell cols rows pages include_lone_images
                ipg ir pg r 0 cols l w) as [[l1|e] w1] eqn:Es;
      apply loop_cols_calls in Es as [H1 H2]; cbn [List.length].
    + rewrite bind_unfold. unfold get_shared at 1.
      destruct (interrupted (shared w1)) eqn:Ei.
      * intros E. injection E as <- <-. split; [lia|]. intros _ Hf. congruence.
      * specialize (H2 eq_refl eq_refl).
        intros E. apply IH in E as [IH1 IH2]. split; [lia|].
        intros Hok Hf. rewrite (IH2 Hok Hf). lia.
    + intros E. injection E as <- <-. split; [lia|discriminate].
Qed.

Lemma loop_pages_calls : forall pages' ipg l w res w',
  loop_pages the_cell cols rows pages col_texts row_texts
    page_texts draw_legend include_lone_images ipg pages' l w = (res, w') ->
  (calls w'
   <= calls w + List.length pages' * (List.length rows * List.length cols))%nat /\
  (is_ok res = true -> interrupted (shared w') = false ->
   calls w'
   = (calls w + List.length pages' * (List.length rows * List.length cols))%nat).
Proof.
  induction pages' as [|pg pages' IH]; intros ipg l w res w'; cbn [loop_pages].
  - intros E. injection E as <- <-. cbn. split; [lia|intros; lia].
  - rewrite bind_unfold.
    destruct (loop_rows the_cell cols rows pages include_lone_images
                ipg pg 0 rows l w) as [[l1|e] w1] eqn:Es;
      apply loop_rows_calls in Es as [H1 H2]; cbn [List.length].
    + rewrite bind_unfold.
      unfold compose_page at 1. rewrite bind_unfold. unfold lift at 1.
      destruct (page_grid rows pages col_texts row_texts page_texts
                  draw_legend ipg l1) as [grid|e];
        [|intros E; injection E as <- <-; split; [lia|discriminate]].
      destruct (processed_result l1) as [t|];
        [|intros E; injection E as <- <-; split; [lia|discriminate]].
      cbn [ret]. rewrite bind_unfold. unfold get_shared at 1.
      destruct (interrupted (shared w1)) eqn:Ei.
      * intros E. injection E as <- <-. split; [lia|]. intros _ Hf. congruence.
      * specialize (H2 eq_refl eq_refl).
        intros E. apply IH in E as [IH1 IH2]. split; [lia|].
        intros Hok Hf. rewrite (IH2 Hok Hf). lia.
    + intros E. injection E as <- <-. split; [lia|discriminate].
Qed.

Lemma draw_crp_pages_calls p w res w' :
  draw_crp_pages the_cell cols rows pages col_texts row_texts
    page_texts draw_legend include_lone_images p w = (res, w') ->
  (calls w'
   <= calls w + List.length pages * (List.length rows * List.length cols))%nat /\
  (is_ok res = true -> interrupted (shared w') = false ->
   calls w'
   = (calls w + List.length pages * (List.length rows * List.length cols))%nat).
Proof.
  unfold draw_crp_pages. rewrite bind_unfold.
  unfold modify_shared at 1. cbv beta iota. rewrite bind_unfold.
  match goal with |- context [loop_pages _ _ _ _ _ _ _ _ _ _ _ _ ?w0] =>
    destruct (loop_pages the_cell cols rows pages col_texts row_texts
                page_texts draw_legend include_lone_images 0 pages
                initial_locals w0) as [[r|e] w1] eqn:Es;
    apply loop_pages_calls in Es as [H1 H2];
    change (calls w0) with (calls w) in H1, H2
  end.
  - destruct (processed_result (fst r)); intros E; injection E as <- <-;
      split; auto.
  - intros E. injection E as <- <-. split; [lia|discriminate].
Qed.

End Loops.

Lemma cell_renders_once p (co ro po : AxisOption Host) cvs rvs pvs c r pg
  w res w' :
  In co (axis_options api) -> In ro (axis_options api) ->
  In po (axis_options api) ->
  cell api p co ro po cvs rvs pvs c r pg w = (res, w') ->
  (calls w' <= S (calls w))%nat /\
  (is_ok res = true -> calls w' = S (calls w)).
Proof.
  intros Hc Hr Hp. unfold cell. cbv zeta.
  rewrite bind_unfold.
  pose proof (rendered_apply p c cvs Hc w) as H1.
  destruct (opt_apply co p c cvs w) as [[p1|e] w1]; cbn [fst snd] in H1;
    [|intros E; injection E as <- <-; unfold calls; rewrite H1;
      split; [lia|discriminate]].
  rewrite bind_unfold.
  pose proof (rendered_apply p1 r rvs Hr w1) as H2.
  destruct (opt_apply ro p1 r rvs w1) as [[p2|e] w2]; cbn [fst snd] in H2;
    [|intros E; injection E as <- <-; unfold calls; rewrite H2, H1;
      split; [lia|discriminate]].
  rewrite bind_unfold.
  pose proof (rendered_apply p2 pg pvs Hp w2) as H3.
  destruct (opt_apply po p2 pg pvs w2) as [[p3|e] w3]; cbn [fst snd] in H3;
    [|intros E; injection E as <- <-; unfold calls; rewrite H3, H2, H1;
      split; [lia|discriminate]].
  unfold render.
  destruct (process_images api p3 (shared w3) (host w3)) as [[res0 intr] h].
  intros E. injection E as <- <-. unfold calls. cbn [rendered].
  rewrite length_app, H3, H2, H1. cbn [List.length]. split; [lia|intros; lia].
Qed.

(** X11. A sweep never makes more than pages x rows x cols render calls,
    and it makes exactly that many when it returns without the job having
    been interrupted: every combination is rendered once. The axis
    functions themselves never render. *)
Theorem render_calls_bounded (p q : Request) (co ro po : AxisOption Host)
  (cols rows pages : list value) (col_texts row_texts page_texts : list label)
  (draw_legend include_lone_images : bool) (w : World Host) :
  In co (axis_options api) -> In ro (axis_options api) ->
  In po (axis_options api) ->
  let out := draw_crp_pages (cell api p co ro po cols rows pages)
               cols rows pages col_texts row_texts page_texts
               draw_legend include_lone_images q w in
  let cells := (List.length pages * (List.length rows * List.length cols))%nat in
  (List.length (rendered (snd out)) <= List.length (rendered w) + cells)%nat /\
  (is_ok (fst out) = true -> interrupted (shared (snd out)) = false ->
   List.length (rendered (snd out)) = (List.length (rendered w) + cells)%nat).
Proof.
  intros Hc Hr Hp out cells.
  destruct out as [res w'] eqn:E. subst out. cbn [fst snd].
  apply (@draw_crp_pages_calls (cell api p co ro po cols rows pages))
    in E; [exact E|].
  intros c r pg w0 res0 w0'. now apply cell_renders_once.
Qed.

End RenderCount.

(** ** The template result and the separate images *)

Section TemplateFacts.

Variable Host : Type.
Variable cell : cell_fn Host.
Variables cols rows pages : list value.

(** X12. With "Include Separate Images" on, the first cell that renders an
    image is drawn blank in the grid of its page: the template result is a
    shallow copy of that cell's result, clearing the template's lists
    empties the cell's [infotexts] too, and reading [infotexts[0]] raises
    inside the [try], after the image was appended to the result. With the
    option off the image itself goes into the grid, and so it does for
    every later cell with an info text. *)
Theorem first_lone_image_drawn_blank (ipg ir ic : nat) (pg r c : value)
  (l : Locals) (w w1 : World Host) (processed : Processed)
  (im : image) (rest : list image) :
  cell c r pg (snd (report_job cols rows pages ipg ir ic w))
  = (Ok processed, w1) ->
  images processed = im :: rest ->
  (processed_result l = None ->
   cell_step cell cols rows pages true ipg ir ic pg r c l w
   = (Ok (mk_Locals
            (cache_images l ++ [Blank (image_mode im) (image_size im)])
            (Some (mk_Processed [im] (prompt processed) (seed processed)
                     [] [prompt processed] [seed processed]))
            (image_mode im) (image_size im)), w1) /\
   cell_step cell cols rows pages false ipg ir ic pg r c l w
   = (Ok (mk_Locals (cache_images l ++ [im])
            (Some (mk_Processed [] (prompt processed) (seed processed)
                     [] [] []))
            (image_mode im) (image_size im)), w1)) /\
  (forall t info infos,
      processed_result l = Some t ->
      infotexts processed = info :: infos ->
      cell_step cell cols rows pages true ipg ir ic pg r c l w
      = (Ok (mk_Locals (cache_images l ++ [im])
               (Some (mk_Processed (images t ++ [im]) (prompt t) (seed t)
                        (infotexts t ++ [info])
                        (all_prompts t ++ [prompt processed])
                        (all_seeds t ++ [seed processed])))
               (cell_mode l) (cell_size l)), w1)).
Proof.
  intros Hcell Him.
  assert (Hgo : forall b,
    cell_step cell cols rows pages b ipg ir ic pg r c l w
    = (let (l', processed_image) := try_take b processed l in
       (Ok (mk_Locals (cache_images l' ++ [processed_image])
              (processed_result l') (cell_mode l') (cell_size l')), w1))).
  { intros b. unfold cell_step. rewrite bind_unfold.
    unfold report_job, modify_shared in *. cbv beta iota. cbn [snd] in Hcell.
    rewrite bind_unfold, Hcell.
    destruct (try_take b processed l). reflexivity. }
  split.
  - intros Hnone. rewrite !Hgo. unfold try_take, template_of.
    rewrite Him, Hnone. split; reflexivity.
  - intros t info infos Hsome Hinfo. rewrite Hgo. unfold try_take.
    rewrite Him, Hsome, Hinfo. reflexivity.
Qed.

Variables col_texts row_texts page_texts : list label.
Variables draw_legend include_lone_images : bool.

Lemma save_pages_firstn (imgs : list image) : forall n i (w : World Host),
  (i + n <= List.length imgs)%nat ->
  save_pages imgs i n w
  = (Ok tt, mk_World (shared w) (host w) (rendered w)
              (saved w ++ firstn n (skipn i imgs))).
Proof.
  induction n as [|n IH]; intros i w Hle.
  - cbn [save_pages firstn]. rewrite app_nil_r. now destruct w.
  - cbn [save_pages].
    destruct (nth_error imgs i) as [im|] eqn:E.
    + rewrite bind_unfold. cbv beta iota. rewrite IH by lia.
      cbn [shared host rendered saved]. rewrite <- app_assoc.
      do 3 f_equal.
      rewrite <- (firstn_skipn i imgs) in E at 1.
      rewrite nth_error_app2 in E by (rewrite length_firstn; lia).
      rewrite length_firstn, Nat.min_l, Nat.sub_diag in E by lia.
      destruct (skipn i imgs) as [|x xs] eqn:Es; [discriminate|].
      injection E as ->. cbn [app firstn]. f_equal.
      change (S i) with (1 + i)%nat. rewrite <- skipn_skipn, Es. reflexivity.
    + apply nth_error_None in E. lia.
Qed.

(** X13. When the sweep returns, the page count it reports does not
    exceed the images of the result, so saving the grids
    ([opts.grid_save]) never raises: it hands exactly the composed pages
    to [images.save_image], in page order, and nothing else. *)
Theorem saved_pages_are_composed_pages (p : Request) (w w' : World Host)
  (res : Processed * nat) :
  draw_crp_pages cell cols rows pages col_texts row_texts page_texts
    draw_legend include_lone_images p w = (Ok res, w') ->
  (snd res <= List.length (images (fst res)))%nat /\
  save_pages (images (fst res)) 0 (snd res) w'
  = (Ok tt, mk_World (shared w') (host w') (rendered w')
              (saved w' ++ firstn (snd res) (images (fst res)))).
Proof.
  intros H.
  assert (Hle : (snd res <= List.length (images (fst res)))%nat).
  { revert H. unfold draw_crp_pages. rewrite !bind_unfold.
    unfold modify_shared at 1. cbv beta iota. rewrite bind_unfold.
    match goal with |- context [loop_pages _ _ _ _ _ _ _ _ _ _ _ _ ?w0] =>
      destruct (loop_pages cell cols rows pages col_texts row_texts
                  page_texts draw_legend include_lone_images 0 pages
                  initial_locals w0) as [[[l n]|e] w1] eqn:E
    end; [|discriminate].
    apply loop_pages_inv in E as (Hinv & _ & _); [|reflexivity|reflexivity].
    cbn [fst snd]. cbv beta in Hinv.
    destruct (processed_result l) as [t|]; intros H; injection H as <- <-;
      cbn [fst snd].
    - apply Hinv.
    - subst n. apply Nat.le_0_l. }
  split; [exact Hle|].
  rewrite save_pages_firstn by lia. reflexivity.
Qed.

End TemplateFacts.

(** ** An axis without values *)

Section EmptyAxisFacts.

Variable Host : Type.
Variable api : host_api Host.

(** An empty value text gives an option no value at all, except for
    "Nothing", which always has its one value, and for "Prompt order",
    where the one ordering of no tokens is a value. *)
Lemma process_axis_empty (opt : AxisOption Host) q :
  In opt (axis_options api) ->
  opt_label opt <> "Nothing" -> opt_label opt <> "Prompt order" ->
  process_axis q opt "" = Ok [].
Proof.
  intros Hin Hl Hl'. unfold axis_options in Hin. cbn [In] in Hin.
  repeat (destruct Hin as [<-|Hin];
          [first [exfalso; apply Hl; reflexivity
                 |exfalso; apply Hl'; reflexivity
                 |reflexivity]|]).
  contradiction.
Qed.

Lemma run_sweep_no_pages p (co ro po : AxisOption Host) cols rows
  dl il nf (w : World Host) :
  exists w',
    run_sweep api p co ro po cols rows [] dl il nf w
    = (Ok empty_Processed, w') /\
    rendered w' = rendered w.
Proof.
  unfold run_sweep. rewrite bind_unfold.
  destruct (fix_unless_kept_world api nf co cols w)
    as (cols1 & w1 & -> & _ & Hr1 & _).
  rewrite bind_unfold.
  destruct (fix_unless_kept_world api nf ro rows w1)
    as (rows1 & w2 & -> & _ & Hr2 & _).
  rewrite bind_unfold.
  destruct (fix_unless_kept_world api nf po [] w2)
    as (pages1 & w3 & Hfix & _ & Hr3 & _).
  assert (pages1 = []).
  { revert Hfix. unfold fix_unless_kept, fix_axis_seeds.
    destruct nf; [intros H; now injection H|].
    destruct (is_seed_axis po); intros H; now injection H. }
  subst pages1. rewrite Hfix.
  unfold with_SharedSettingsStackHelper, draw_crp_pages, enter, exit,
    reload_model_weights, load_hypernetwork, apply_strength,
    modify_shared, get_shared, bind, ret.
  cbn -[total_steps int_attr Z.mul Z.of_nat].
  match goal with |- context [if ?b then _ else _] => destruct b end;
    (eexists; split; [reflexivity|]); cbn [rendered]; congruence.
Qed.

(** X14. A page axis whose value text is empty has no value (unless it is
    "Nothing", or "Prompt order", whose one value is then the empty
    ordering), and so the sweep has no page: when the column and row axes
    expand, [run] makes no render call and returns the empty result. *)
Theorem empty_page_axis_returns_empty (p : Request)
  (cm : nat) (cv : string) (rm : nat) (rv : string) (pm : nat)
  (co ro po : AxisOption Host) (dl il nf : bool) (w : World Host) :
  option_at api cm = Ok co -> is_ok (process_axis p co cv) = true ->
  option_at api rm = Ok ro -> is_ok (process_axis p ro rv) = true ->
  option_at api pm = Ok po ->
  opt_label po <> "Nothing" -> opt_label po <> "Prompt order" ->
  fst (run api p cm cv rm rv pm "" dl il nf w) = Ok empty_Processed /\
  rendered (snd (run api p cm cv rm rv pm "" dl il nf w)) = rendered w.
Proof.
  intros Hco Hcv Hro Hrv Hpo Hl Hl'.
  destruct (run_unfold api p cm cv rm rv pm "" dl il nf w)
    as (p1 & w1 & _ & Hr & ->).
  rewrite Hco, Hro, Hpo.
  rewrite (process_axis_any p1 p cv (option_at_In api cm Hco)).
  destruct (process_axis p co cv) as [cvs|]; [|discriminate].
  rewrite (process_axis_any p1 p rv (option_at_In api rm Hro)).
  destruct (process_axis p ro rv) as [rvs|]; [|discriminate].
  rewrite (process_axis_empty p1 (option_at_In api pm Hpo) Hl Hl').
  destruct (run_sweep_no_pages p1 co ro po cvs rvs dl il nf w1)
    as (w' & -> & H).
  split; [reflexivity|]. cbn [snd]. now rewrite H.
Qed.

End EmptyAxisFacts.

(** ** The further properties on the demo host *)

(** X1, an instance: the sampler "Euler a", known to the host. *)
Lemma confirmed_values_apply_witness :
  let api := Demo.api Demo.Renders in
  let opt := Demo.option Demo.Renders Demo.Sampler in
  let xs := [VStr "Euler a"] in
  (In opt (axis_options api) /\
   opt_confirm opt = Some (confirm_samplers api) /\
   confirm_samplers api Demo.p0 xs = Ok tt /\
   In (VStr "Euler a") xs) /\
  is_ok (fst (opt_apply opt Demo.p0 (VStr "Euler a") xs Demo.world0)) = true.
Proof.
  intros api opt xs.
  assert (H : In opt (axis_options api) /\
              opt_confirm opt = Some (confirm_samplers api) /\
              confirm_samplers api Demo.p0 xs = Ok tt /\
              In (VStr "Euler a") xs).
  { split; [subst opt api; in_table|]. split; [reflexivity|].
    split; [reflexivity|left; reflexivity]. }
  split; [exact H|]. destruct H as (H1 & H2 & H3 & H4).
  exact (proj1 (@confirmed_values_apply nat api opt (confirm_samplers api)
                  Demo.p0 Demo.p0 xs (VStr "Euler a") Demo.world0
                  H1 H2 H3 H4)).
Defined.

(** X2, an instance: "cat" as the first value on the prompt "a cat". *)
Lemma first_value_keeps_request_witness :
  (getattr Demo.p0 "prompt" = VStr "a cat" /\
   getattr Demo.p0 "negative_prompt" = VStr "" /\
   PyStr.contains "cat" "a cat" || PyStr.contains "cat" "" = true) /\
  apply_prompt Demo.p0 (VStr "cat") [VStr "cat"; VStr "dog"] Demo.world0
  = (Ok Demo.p0, Demo.world0).
Proof.
  assert (H : getattr Demo.p0 "prompt" = VStr "a cat" /\
              getattr Demo.p0 "negative_prompt" = VStr "" /\
              PyStr.contains "cat" "a cat" || PyStr.contains "cat" "" = true)
    by (split; [reflexivity|split; reflexivity]).
  split; [exact H|]. destruct H as (H1 & H2 & H3).
  exact (proj1 (@first_value_keeps_request nat Demo.p0 "a cat" "" "cat"
                  [VStr "dog"] Demo.world0 H1 H2 H3)).
Defined.

(** X3, an instance: the two orderings of "a,b". *)
Lemma prompt_order_orderings_witness :
  let opt := Demo.option Demo.Renders 7 in
  (In opt (axis_options (Demo.api Demo.Renders)) /\
   opt_type opt = TStrPermutations /\
   Csv.fields_of "a,b" = Ok ["a"; "b"]) /\
  exists orders,
    process_axis Demo.p0 opt "a,b" = Ok (map VTuple orders) /\
    List.length orders = 2%nat /\
    hd_error orders = Some ["a"; "b"].
Proof.
  intros opt.
  assert (H : In opt (axis_options (Demo.api Demo.Renders)) /\
              opt_type opt = TStrPermutations /\
              Csv.fields_of "a,b" = Ok ["a"; "b"]).
  { split; [subst opt; in_table|]. split; reflexivity. }
  split; [exact H|]. destruct H as (H1 & H2 & H3).
  destruct (@prompt_order_orderings nat (Demo.api Demo.Renders) Demo.p0 opt
              "a,b" ["a"; "b"] H1 H2 H3) as (orders & Ho & Hl & Hh & _).
  exists orders. split; [exact Ho|]. split; [exact Hl|exact Hh].
Defined.

(** X4, an instance: "10-1(-3)" on the Steps axis. *)
Lemma descending_range_stops_short_witness :
  let opt := Demo.option Demo.Renders Demo.Steps in
  (In opt (axis_options (Demo.api Demo.Renders)) /\ opt_type opt = TInt /\
   Spec.is_digits "10" = true /\ Spec.is_digits "1" = true /\
   Spec.is_digits "3" = true /\ 0 < Spec.decimal "3") /\
  process_axis Demo.p0 opt "5-1(-2)" = Ok (map VInt [5; 3]) /\
  process_axis Demo.p0 opt "3-1(-1)" = Ok (map VInt [3]).
Proof.
  intros opt.
  assert (H : In opt (axis_options (Demo.api Demo.Renders)) /\
              opt_type opt = TInt /\
              Spec.is_digits "10" = true /\ Spec.is_digits "1" = true /\
              Spec.is_digits "3" = true /\ 0 < Spec.decimal "3").
  { split; [subst opt; in_table|]. repeat split; reflexivity. }
  split; [exact H|]. destruct H as (H1 & H2 & H3 & H4 & H5 & H6).
  pose proof (@descending_range_stops_short nat (Demo.api Demo.Renders)
                Demo.p0 opt "10" "1" "3" H1 H2 H3 H4 H5 H6) as T.
  split; [exact (proj1 T)|exact (proj1 (proj2 T))].
Defined.

(** X5, an instance: "1-5(+0)" on the Steps axis. *)
Lemma zero_step_raises_witness :
  let opt := Demo.option Demo.Renders Demo.Steps in
  (In opt (axis_options (Demo.api Demo.Renders)) /\ opt_type opt = TInt /\
   PyStr.is_sign "+" = true /\
   Spec.is_digits "1" = true /\ Spec.is_digits "5" = true /\
   Spec.is_digits "0" = true /\ Spec.decimal "0" = 0) /\
  process_axis Demo.p0 opt "1-5(+0)"
  = Raise (ValueError "range() arg 3 must not be zero").
Proof.
  intros opt.
  assert (H : In opt (axis_options (Demo.api Demo.Renders)) /\
              opt_type opt = TInt /\ PyStr.is_sign "+" = true /\
              Spec.is_digits "1" = true /\ Spec.is_digits "5" = true /\
              Spec.is_digits "0" = true /\ Spec.decimal "0" = 0).
  { split; [subst opt; in_table|]. repeat split; reflexivity. }
  split; [exact H|]. destruct H as (H1 & H2 & H3 & H4 & H5 & H6 & H7).
  exact (@zero_step_raises nat (Demo.api Demo.Renders) Demo.p0 opt
           "+"%char "1" "5" "0" H1 H2 H3 H4 H5 H6 H7).
Defined.

(** X6, an instance: "2-9[4]" on the Steps axis. *)
Lemma count_field_samples_witness :
  let opt := Demo.option Demo.Renders Demo.Steps in
  (In opt (axis_options (Demo.api Demo.Renders)) /\ opt_type opt = TInt /\
   Spec.is_digits "2" = true /\ Spec.is_digits "9" = true /\
   Spec.is_digits "4" = true) /\
  Re.fullmatch Patterns.re_range "2-9[4]" = None /\
  process_axis Demo.p0 opt "1-5[3]" = Ok (map VInt [1; 3; 5]).
Proof.
  intros opt.
  assert (H : In opt (axis_options (Demo.api Demo.Renders)) /\
              opt_type opt = TInt /\
              Spec.is_digits "2" = true /\ Spec.is_digits "9" = true /\
              Spec.is_digits "4" = true).
  { split; [subst opt; in_table|]. repeat split; reflexivity. }
  split; [exact H|]. destruct H as (H1 & H2 & H3 & H4 & H5).
  pose proof (@count_field_samples nat (Demo.api Demo.Renders) Demo.p0 opt
                "2" "9" "4" H1 H2 H3 H4 H5) as T.
  split; [exact (proj1 (proj2 (proj2 T)))|exact (proj1 T)].
Defined.

(** X7, an instance: the field "1a" on the Steps axis. *)
Lemma non_numeric_field_raises_witness :
  let opt := Demo.option Demo.Renders Demo.Steps in
  (In opt (axis_options (Demo.api Demo.Renders)) /\ opt_type opt = TInt /\
   Spec.all_of Spec.plain "1a" = true /\ Spec.is_letter "a" = true) /\
  exists msg, process_axis Demo.p0 opt "1a" = Raise (ValueError msg).
Proof.
  intros opt.
  assert (H : In opt (axis_options (Demo.api Demo.Renders)) /\
              opt_type opt = TInt /\
              Spec.all_of Spec.plain "1a" = true /\
              Spec.is_letter "a" = true).
  { split; [subst opt; in_table|]. repeat split; reflexivity. }
  split; [exact H|]. destruct H as (H1 & H2 & H3 & H4).
  exact (proj2 (proj2
           (@non_numeric_field_raises nat (Demo.api Demo.Renders) Demo.p0
              opt "1" "" "a"%char H1 H2 H3 H4))).
Defined.

(** X8, an instance: the text "cat, dog" on the Prompt S/R axis. *)
Lemma separated_values_in_order_witness :
  let opt := Demo.option Demo.Renders Demo.Prompt_SR in
  let fs := ["cat"; " dog"] in
  (In opt (axis_options (Demo.api Demo.Renders)) /\ opt_type opt = TStr /\
   opt_label opt <> "Nothing" /\
   Forall (fun f => Spec.all_of Spec.field_char f = true) fs /\
   fs <> [""]) /\
  process_axis Demo.p0 opt "cat, dog" = Ok [VStr "cat"; VStr "dog"].
Proof.
  intros opt fs.
  assert (H : In opt (axis_options (Demo.api Demo.Renders)) /\
              opt_type opt = TStr /\ opt_label opt <> "Nothing" /\
              Forall (fun f => Spec.all_of Spec.field_char f = true) fs /\
              fs <> [""]).
  { split; [subst opt; in_table|]. split; [reflexivity|].
    split; [discriminate|]. split; [|discriminate].
    repeat constructor. }
  split; [exact H|]. destruct H as (H1 & H2 & H3 & H4 & H5).
  exact (proj2 (@separated_values_in_order nat (Demo.api Demo.Renders)
                  Demo.p0 opt fs H1 H2 H3 H4 H5)).
Defined.

(** X9, an instance: the text "1, 2,3 " on the Steps axis. *)
Lemma number_list_in_order_witness :
  let opt := Demo.option Demo.Renders Demo.Steps in
  let fs := ["1"; " 2"; "3 "] in
  (In opt (axis_options (Demo.api Demo.Renders)) /\ opt_type opt = TInt /\
   Forall (fun f => Spec.all_of Spec.field_char f = true) fs /\
   Forall (fun f => Spec.is_digits (PyStr.strip f) = true) fs) /\
  process_axis Demo.p0 opt "1, 2,3 " = Ok (map VInt [1; 2; 3]).
Proof.
  intros opt fs.
  assert (H : In opt (axis_options (Demo.api Demo.Renders)) /\
              opt_type opt = TInt /\
              Forall (fun f => Spec.all_of Spec.field_char f = true) fs /\
              Forall (fun f => Spec.is_digits (PyStr.strip f) = true) fs).
  { split; [subst opt; in_table|]. split; [reflexivity|].
    split; repeat constructor. }
  split; [exact H|]. destruct H as (H1 & H2 & H3 & H4).
  exact (@number_list_in_order nat (Demo.api Demo.Renders) Demo.p0 opt fs
           H1 H2 H3 H4).
Defined.

(** X10, an instance: the quoted field "a, b" and the quoted field "c". *)
Lemma quoted_values_keep_commas_witness :
  let opt := Demo.option Demo.Renders Demo.Prompt_SR in
  let fs := ["a, b"; "c"] in
  (In opt (axis_options (Demo.api Demo.Renders)) /\ opt_type opt = TStr /\
   opt_label opt <> "Nothing" /\
   Forall (fun f => Spec.all_of Spec.no_quote f = true) fs) /\
  Csv.fields_of (PyStr.join "," (map Spec.quoted fs)) = Ok fs /\
  process_axis Demo.p0 opt (PyStr.join "," (map Spec.quoted fs))
  = Ok [VStr "a, b"; VStr "c"].
Proof.
  intros opt fs.
  assert (H : In opt (axis_options (Demo.api Demo.Renders)) /\
              opt_type opt = TStr /\ opt_label opt <> "Nothing" /\
              Forall (fun f => Spec.all_of Spec.no_quote f = true) fs).
  { split; [subst opt; in_table|]. split; [reflexivity|].
    split; [discriminate|]. repeat constructor. }
  split; [exact H|]. destruct H as (H1 & H2 & H3 & H4).
  exact (@quoted_values_keep_commas nat (Demo.api Demo.Renders) Demo.p0
           opt fs H1 H2 H3 H4).
Defined.

(** X11, an instance: a sweep over two step counts makes two render
    calls. *)
Lemma render_calls_bounded_witness :
  let api := Demo.api Demo.Renders in
  let co := Demo.option Demo.Renders Demo.Steps in
  let no := Demo.option Demo.Renders Demo.Nothing in
  let out := draw_crp_pages
               (cell api Demo.p0 co no no [VInt 1; VInt 2] [VInt 0] [VInt 0])
               [VInt 1; VInt 2] [VInt 0] [VInt 0] [] [] [] false false
               Demo.p0 Demo.world0 in
  (In co (axis_options api) /\ In no (axis_options api)) /\
  (List.length (rendered (snd out)) <= 2)%nat.
Proof.
  intros api co no out.
  assert (H : In co (axis_options api) /\ In no (axis_options api)).
  { split; [subst co api; in_table|subst no api; in_table]. }
  split; [exact H|]. destruct H as (H1 & H2).
  exact (proj1 (@render_calls_bounded nat api Demo.p0 Demo.p0 co no no
                  [VInt 1; VInt 2] [VInt 0] [VInt 0] [] [] [] false false
                  Demo.world0 H1 H2 H2)).
Defined.

(** X12, an instance: the first cell of a sweep over two step counts with
    the separate images included. *)
Lemma first_lone_image_drawn_blank_witness :
  let cell := Demo.cell_of Demo.Renders Demo.Steps Demo.Nothing Demo.Nothing
                [VInt 1; VInt 2] [VInt 0] [VInt 0] in
  let w := snd (report_job [VInt 1; VInt 2] [VInt 0] [VInt 0] 0 0 0
                  Demo.world0) in
  let w1 := snd (cell (VInt 1) (VInt 0) (VInt 0) w) in
  (cell (VInt 1) (VInt 0) (VInt 0) w = (Ok (Demo.rendered_ok 0), w1) /\
   images (Demo.rendered_ok 0) = [Demo.picture 0]) /\
  cell_step cell [VInt 1; VInt 2] [VInt 0] [VInt 0] true 0 0 0
    (VInt 0) (VInt 0) (VInt 1) initial_locals Demo.world0
  = (Ok (mk_Locals [Blank "RGB" (512, 512)]
           (Some (mk_Processed [Demo.picture 0] "a cat" (VInt 7)
                    [] ["a cat"] [VInt 7]))
           "RGB" (512, 512)), w1).
Proof.
  intros cell w w1.
  assert (H : cell (VInt 1) (VInt 0) (VInt 0) w
              = (Ok (Demo.rendered_ok 0), w1) /\
              images (Demo.rendered_ok 0) = [Demo.picture 0])
    by (split; reflexivity).
  split; [exact H|]. destruct H as [H1 H2].
  exact (proj1 (proj1 (@first_lone_image_drawn_blank nat cell
                         [VInt 1; VInt 2] [VInt 0] [VInt 0] 0%nat 0%nat 0%nat
                         (VInt 0) (VInt 0) (VInt 1) initial_locals
                         Demo.world0 w1 (Demo.rendered_ok 0)
                         (Demo.picture 0) [] H1 H2) eq_refl)).
Defined.

(** X13, an instance: the two pages of a sweep are the images saved. *)
Lemma saved_pages_are_composed_pages_witness :
  let cols := [VInt 1] in
  let rows := [VInt 0] in
  let pages := [VInt 1; VInt 2] in
  let out := draw_crp_pages
               (Demo.cell_of Demo.Renders Demo.Steps
                  Demo.Nothing Demo.Clip_skip cols rows pages)
               cols rows pages [] [] [] false false Demo.p0 Demo.world0 in
  exists res w',
    out = (Ok res, w') /\
    save_pages (images (fst res)) 0 (snd res) w'
    = (Ok tt, mk_World (shared w') (host w') (rendered w')
                (saved w' ++ firstn (snd res) (images (fst res)))).
Proof.
  intros cols rows pages out.
  destruct out as [[res|e] w'] eqn:E; [|vm_compute in E; discriminate E].
  exists res, w'. split; [reflexivity|].
  exact (proj2 (@saved_pages_are_composed_pages nat _ cols rows pages
                  [] [] [] false false Demo.p0 Demo.world0 w' res E)).
Defined.

(** X14, an instance: a Seed axis without values in the page position. *)
Lemma empty_page_axis_returns_empty_witness :
  let api := Demo.api Demo.Renders in
  let co := Demo.option Demo.Renders Demo.Steps in
  let ro := Demo.option Demo.Renders Demo.Nothing in
  let po := Demo.option Demo.Renders Demo.Seed in
  (option_at api Demo.Steps = Ok co /\
   is_ok (process_axis Demo.p0 co "1,2") = true /\
   option_at api Demo.Nothing = Ok ro /\
   is_ok (process_axis Demo.p0 ro "") = true /\
   option_at api Demo.Seed = Ok po /\
   opt_label po <> "Nothing" /\ opt_label po <> "Prompt order") /\
  fst (run api Demo.p0 Demo.Steps "1,2" Demo.Nothing "" Demo.Seed ""
         true false false Demo.world0)
  = Ok empty_Processed /\
  rendered (snd (run api Demo.p0 Demo.Steps "1,2" Demo.Nothing ""
                   Demo.Seed "" true false false Demo.world0))
  = rendered Demo.world0.
Proof.
  intros api co ro po.
  assert (H : option_at api Demo.Steps = Ok co /\
              is_ok (process_axis Demo.p0 co "1,2") = true /\
              option_at api Demo.Nothing = Ok ro /\
              is_ok (process_axis Demo.p0 ro "") = true /\
              option_at api Demo.Seed = Ok po /\
              opt_label po <> "Nothing" /\ opt_label po <> "Prompt order").
  { split; [reflexivity|]. split; [vm_compute; reflexivity|].
    split; [reflexivity|]. split; [reflexivity|].
    split; [reflexivity|]. split; discriminate. }
  split; [exact H|]. destruct H as (H1 & H2 & H3 & H4 & H5 & H6 & H7).
  exact (@empty_page_axis_returns_empty nat api Demo.p0
           Demo.Steps "1,2" Demo.Nothing "" Demo.Seed co ro po
           true false false Demo.world0 H1 H2 H3 H4 H5 H6 H7).
Defined.

(** X15, an instance: "cat" and "dog" change places in
    "a cat and a dog". *)
Lemma prompt_order_rearranges_witness :
  let p := [("prompt", VStr "a cat and a dog")] in
  let gaps := ["a "; " and a "] in
  let toks := ["cat"; "dog"] in
  (getattr p "prompt" = VStr (Spec.interleave gaps toks "") /\
   List.length gaps = List.length toks /\
   Spec.slots_found (Spec.interleave gaps toks "") 0 gaps toks /\
   Permutation toks ["dog"; "cat"]) /\
  apply_order p (VTuple ["dog"; "cat"]) [] Demo.world0
  = (Ok [("prompt", VStr "a dog and a cat")], Demo.world0).
Proof.
  intros p gaps toks.
  assert (H : getattr p "prompt" = VStr (Spec.interleave gaps toks "") /\
              List.length gaps = List.length toks /\
              Spec.slots_found (Spec.interleave gaps toks "") 0 gaps toks /\
              Permutation toks ["dog"; "cat"]).
  { split; [reflexivity|]. split; [reflexivity|]. split.
    - cbn [Spec.slots_found gaps toks].
      split; [discriminate|]. split; [reflexivity|].
      split; [discriminate|]. split; [reflexivity|exact I].
    - apply perm_swap. }
  split; [exact H|]. destruct H as (H1 & H2 & H3 & H4).
  exact (proj1 (@prompt_order_rearranges nat p gaps toks ["dog"; "cat"] ""
                  [] Demo.world0 H1 H2 H3 H4)).
Defined.

(** X16, an instance: "-3-1" on the Steps axis. *)
Lemma signed_bounds_range_witness :
  let opt := Demo.option Demo.Renders Demo.Steps in
  (In opt (axis_options (Demo.api Demo.Renders)) /\ opt_type opt = TInt /\
   Spec.sign_text "-" = true /\ Spec.sign_text "" = true /\
   Spec.is_digits "3" = true /\ Spec.is_digits "1" = true) /\
  exists xs,
    process_axis Demo.p0 opt "-3-1" = Ok (map VInt xs) /\
    (forall z, In z xs <-> -3 <= z <= 1).
Proof.
  intros opt.
  assert (H : In opt (axis_options (Demo.api Demo.Renders)) /\
              opt_type opt = TInt /\
              Spec.sign_text "-" = true /\ Spec.sign_text "" = true /\
              Spec.is_digits "3" = true /\ Spec.is_digits "1" = true).
  { split; [subst opt; in_table|]. repeat split; reflexivity. }
  split; [exact H|]. destruct H as (H1 & H2 & H3 & H4 & H5 & H6).
  destruct (@signed_bounds_range nat (Demo.api Demo.Renders) Demo.p0 opt
              "-" "" "3" "1" H1 H2 H3 H4 H5 H6) as (_ & _ & xs & Hx & _ & Hz).
  exists xs. split; [exact Hx|exact Hz].
Defined.

(** ** Bare ranges on the demo host *)

(** C10, the claim as stated fails: "+ 1-5" is a bare START-END for both
    grammars, the patterns allowing white space between a sign and its
    digits, but [int] does not read "+ 1": the expansion raises. So does
    [float] on "1x5", which the float patterns take for a numeral, their
    decimal point being any character. *)
Lemma spaced_sign_range_raises :
  Re.fullmatch Patterns.re_range "+ 1-5"
  = Some [(2%nat, "5"); (1%nat, "+ 1")] /\
  Re.fullmatch Patterns.re_range_count "+ 1-5" <> None /\
  Demo.expand Demo.Steps "+ 1-5"
  = Raise (ValueError "invalid literal for int() with base 10") /\
  Demo.expand Demo.Steps "+ 1-5" <> Ok (map VInt [1; 2; 3; 4; 5]) /\
  Re.fullmatch Patterns.re_range_float "1x5-2"
  = Some [(2%nat, "2"); (1%nat, "1x5")] /\
  Re.fullmatch Patterns.re_range_count_float "1x5-2" <> None /\
  Demo.expand Demo.CFG_Scale "1x5-2"
  = Raise (ValueError "could not convert string to float").
Proof.
  split; [vm_compute; reflexivity|]. split; [vm_compute; discriminate|].
  split; [vm_compute; reflexivity|]. split; [vm_compute; discriminate|].
  split; [vm_compute; reflexivity|]. split; [vm_compute; discriminate|].
  vm_compute. reflexivity.
Qed.

(** C10 (amended), an instance: " +1 - 5" on the Steps axis and "0-1.5"
    on the CFG Scale axis. *)
Lemma bare_range_prefers_step_witness :
  let opt_i := Demo.option Demo.Renders Demo.Steps in
  let opt_f := Demo.option Demo.Renders Demo.CFG_Scale in
  let mi := [(2%nat, "5"); (1%nat, "+1")] in
  let mf := [(2%nat, "1.5"); (1%nat, "0")] in
  (In opt_i (axis_options (Demo.api Demo.Renders)) /\
   opt_type opt_i = TInt /\
   In opt_f (axis_options (Demo.api Demo.Renders)) /\
   opt_type opt_f = TFloat /\
   Spec.all_of Spec.field_char " +1 - 5" = true /\
   Re.fullmatch Patterns.re_range (PyStr.strip " +1 - 5") = Some mi /\
   Re.group mi 3 = None /\
   group_int mi 1 = Ok 1 /\ group_int mi 2 = Ok 5 /\
   Spec.all_of Spec.field_char "0-1.5" = true /\
   Re.fullmatch Patterns.re_range_float (PyStr.strip "0-1.5") = Some mf /\
   Re.group mf 3 = None /\
   group_float mf 1 = Ok 0%float /\ group_float mf 2 = Ok 1.5%float) /\
  Re.fullmatch Patterns.re_range_count "+1 - 5" <> None /\
  exists xs,
    process_axis Demo.p0 opt_i " +1 - 5" = Ok (map VInt xs) /\
    (forall z, In z xs <-> 1 <= z <= 5).
Proof.
  intros opt_i opt_f mi mf.
  assert (H : In opt_i (axis_options (Demo.api Demo.Renders)) /\
              opt_type opt_i = TInt /\
              In opt_f (axis_options (Demo.api Demo.Renders)) /\
              opt_type opt_f = TFloat /\
              Spec.all_of Spec.field_char " +1 - 5" = true /\
              Re.fullmatch Patterns.re_range (PyStr.strip " +1 - 5")
              = Some mi /\
              Re.group mi 3 = None /\
              group_int mi 1 = Ok 1 /\ group_int mi 2 = Ok 5 /\
              Spec.all_of Spec.field_char "0-1.5" = true /\
              Re.fullmatch Patterns.re_range_float (PyStr.strip "0-1.5")
              = Some mf /\
              Re.group mf 3 = None /\
              group_float mf 1 = Ok 0%float /\
              group_float mf 2 = Ok 1.5%float).
  { split; [subst opt_i; in_table|]. split; [reflexivity|].
    split; [subst opt_f; in_table|]. split; [reflexivity|].
    repeat split; vm_compute; reflexivity. }
  split; [exact H|].
  destruct H as (H1 & H2 & H3 & H4 & H5 & H6 & H7 & H8 & H9 & H10 & H11
                 & H12 & H13 & H14).
  destruct (@bare_range_prefers_step nat (Demo.api Demo.Renders) Demo.p0
              opt_i opt_f " +1 - 5" "0-1.5" mi mf 1 5 0%float 1.5%float
              H1 H2 H3 H4 H5 H6 H7 H8 H9 H10 H11 H12 H13 H14)
    as ((T1 & _) & (xs & Hx & _ & Hz & _) & _).
  split; [exact T1|]. exists xs. split; [exact Hx|exact Hz].
Defined.
